(** * Real-time notification transport of the tender application

    A shallow embedding of the two halves of the publish/subscribe layer:

    - [Server]: the channel registry [wsConnections], the connection
      handler, the inbound message router, the close handler, the
      broadcast helper [broadcastToChannel] and the 30 s heartbeat of
      [server/index.js];
    - [Client]: the shared socket table [activeConnections] and the
      [useWebSocket] hook (connect, socket callbacks, unmount cleanup) of
      [src/hooks/useWebSocket.ts];
    - [Cors], [Database], [AdminStats], [TenderList], [TenderComparison]:
      the origin check and the database retries of [server/index.js], the
      monthly buckets of the dashboard statistics, and the component state
      that the messages of the channels are folded into.

    JavaScript code runs on one event loop: every callback is modelled as a
    computation in an exception-and-state monad over the whole world, and
    the environment (network peers, timers, collaborators calling the
    broadcast helper) is a list of events. *)

From Stdlib Require Import ZArith Ascii String.
From stdpp Require Import gmap strings list fin_maps pretty.

Set Warnings "-register-all,-clear-no-such-hyp".
Open Scope Z_scope.

(** ** JavaScript values on the wire *)

(** Values accepted by [JSON.stringify] and produced by [JSON.parse]. *)
Inductive Json : Type :=
  | JNull
  | JBool (b : bool)
  | JNum (n : Z)
  | JStr (s : string)
  | JArr (items : list Json)
  | JObj (fields : list (string * Json)).

(** The four values of [WebSocket.readyState]. *)
Inductive ReadyState : Type := CONNECTING | OPEN | CLOSING | CLOSED.

Global Instance ReadyState_eq_dec : EqDecision ReadyState.
Proof. solve_decision. Defined.

(** What a socket hands to the transport. *)
Inductive Frame : Type :=
  | Text (payload : string)
  | PingFrame
  | CloseFrame (code : Z) (reason : string).

(** Lines written with [console.log] and [console.error]. *)
Inductive LogLine : Type :=
  | Info (text : string)
  | Error (text : string) (err : string).

(** ** Exceptions and state *)

Inductive Res (A : Type) : Type :=
  | Ok (a : A)
  | Thrown (err : string).
Arguments Ok {A} a.
Arguments Thrown {A} err.

(** A computation reads and writes the world and either returns or
    throws; what it wrote before throwing stays written. *)
Definition M (S A : Type) : Type := S -> Res A * S.

Definition ret {S A} (a : A) : M S A := fun w => (Ok a, w).
Definition throw {S A} (err : string) : M S A := fun w => (Thrown err, w).
Definition bind {S A B} (m : M S A) (k : A -> M S B) : M S B :=
  fun w => match m w with
           | (Ok a, w') => k a w'
           | (Thrown e, w') => (Thrown e, w')
           end.
Definition try_catch {S A} (body : M S A) (handler : string -> M S A) : M S A :=
  fun w => match body w with
           | (Ok a, w') => (Ok a, w')
           | (Thrown e, w') => handler e w'
           end.
Definition gets {S A} (f : S -> A) : M S A := fun w => (Ok (f w), w).
Definition modify {S} (f : S -> S) : M S unit := fun w => (Ok tt, f w).

Notation "x <~ m >> k" := (bind m (fun x => k))
  (at level 100, m at next level, k at level 200, right associativity).
Notation "m >> k" := (bind m (fun _ => k))
  (at level 100, k at level 200, right associativity).

(** [collection.forEach(callback)]: a throwing callback ends the loop. *)
Fixpoint forEach {S A} (items : list A) (callback : A -> M S unit) : M S unit :=
  match items with
  | [] => ret tt
  | x :: rest => callback x >> forEach rest callback
  end.

(** ** Strings *)

(** [s.split(sep)] for a one-character separator: never empty, and the
    pieces are in order. *)
Fixpoint split (sep : ascii) (s : string) : list string :=
  match s with
  | EmptyString => [EmptyString]
  | String c rest =>
      if Ascii.eqb c sep then EmptyString :: split sep rest
      else match split sep rest with
           | [] => [String c EmptyString]
           | piece :: pieces => String c piece :: pieces
           end
  end.

(** [parts.join(', ')]. *)
Fixpoint join (sep : string) (parts : list string) : string :=
  match parts with
  | [] => ""
  | [p] => p
  | p :: rest => p +:+ sep +:+ join sep rest
  end.

(** [obj.type] as [data.type] reads it: reading a property of [null]
    throws, an object gives the field or [undefined], and every other
    parsed value has no such property. *)
Definition prop_type (data : Json) : Res (option Json) :=
  match data with
  | JNull => Thrown "TypeError: Cannot read properties of null (reading 'type')"
  | JObj fields => Ok (snd <$> List.find (fun kv => String.eqb (fst kv) "type") fields)
  | _ => Ok None
  end.

(** [v === 'literal']. *)
Definition is_string (v : option Json) (lit : string) : bool :=
  match v with
  | Some (JStr s) => String.eqb s lit
  | _ => false
  end.

(** * The server: channel hub and connection gateway ([server/index.js]) *)

Module Server.

(** A server-side [ws] socket object.  [isAlive] and [isAuthenticated]
    are properties the application adds to it, [None] while they are
    [undefined]; the three listener fields record what [ws.on] has
    installed, the close listener together with the [channel] its closure
    captured; [sent] is what the socket wrote to the wire and [destroyed]
    whether [terminate] tore the connection down. *)
Record Socket : Type := mkSocket {
  readyState : ReadyState;
  isAlive : option bool;
  isAuthenticated : option bool;
  onMessageListener : bool;
  onCloseListener : option string;
  onPongListener : bool;
  sent : list Frame;
  destroyed : bool
}.

(** The process: the socket objects by identity, the set [wss.clients]
    kept by the library, the registry [wsConnections], a clock and the
    console. *)
Record World : Type := mkWorld {
  sockets : gmap nat Socket;
  nextId : nat;
  clients : gset nat;
  wsConnections : gmap string (gset nat);
  now : Z;
  console : list LogLine
}.

Definition initial : World :=
  {| sockets := ∅; nextId := 0; clients := ∅; wsConnections := ∅;
     now := 0; console := [] |}.

Definition with_sockets (f : gmap nat Socket -> gmap nat Socket) (w : World) : World :=
  {| sockets := f (sockets w); nextId := nextId w; clients := clients w;
     wsConnections := wsConnections w; now := now w; console := console w |}.
Definition with_clients (f : gset nat -> gset nat) (w : World) : World :=
  {| sockets := sockets w; nextId := nextId w; clients := f (clients w);
     wsConnections := wsConnections w; now := now w; console := console w |}.
Definition with_registry (f : gmap string (gset nat) -> gmap string (gset nat))
    (w : World) : World :=
  {| sockets := sockets w; nextId := nextId w; clients := clients w;
     wsConnections := f (wsConnections w); now := now w; console := console w |}.
Definition with_console (f : list LogLine -> list LogLine) (w : World) : World :=
  {| sockets := sockets w; nextId := nextId w; clients := clients w;
     wsConnections := wsConnections w; now := now w; console := f (console w) |}.
Definition with_now (f : Z -> Z) (w : World) : World :=
  {| sockets := sockets w; nextId := nextId w; clients := clients w;
     wsConnections := wsConnections w; now := f (now w); console := console w |}.

Definition set_readyState (r : ReadyState) (s : Socket) : Socket :=
  mkSocket r (isAlive s) (isAuthenticated s) (onMessageListener s)
    (onCloseListener s) (onPongListener s) (sent s) (destroyed s).
Definition set_isAlive (b : bool) (s : Socket) : Socket :=
  mkSocket (readyState s) (Some b) (isAuthenticated s) (onMessageListener s)
    (onCloseListener s) (onPongListener s) (sent s) (destroyed s).
Definition set_isAuthenticated (b : bool) (s : Socket) : Socket :=
  mkSocket (readyState s) (isAlive s) (Some b) (onMessageListener s)
    (onCloseListener s) (onPongListener s) (sent s) (destroyed s).
Definition set_onMessage (s : Socket) : Socket :=
  mkSocket (readyState s) (isAlive s) (isAuthenticated s) true
    (onCloseListener s) (onPongListener s) (sent s) (destroyed s).
Definition set_onClose (channel : string) (s : Socket) : Socket :=
  mkSocket (readyState s) (isAlive s) (isAuthenticated s) (onMessageListener s)
    (Some channel) (onPongListener s) (sent s) (destroyed s).
Definition set_onPong (s : Socket) : Socket :=
  mkSocket (readyState s) (isAlive s) (isAuthenticated s) (onMessageListener s)
    (onCloseListener s) true (sent s) (destroyed s).
Definition push_frame (f : Frame) (s : Socket) : Socket :=
  mkSocket (readyState s) (isAlive s) (isAuthenticated s) (onMessageListener s)
    (onCloseListener s) (onPongListener s) (sent s ++ [f]) (destroyed s).
Definition set_destroyed (s : Socket) : Socket :=
  mkSocket (readyState s) (isAlive s) (isAuthenticated s) (onMessageListener s)
    (onCloseListener s) (onPongListener s) (sent s) true.

(** A socket as [new WebSocket] hands it to the ['connection'] listener. *)
Definition fresh_socket : Socket :=
  mkSocket OPEN None None false None false [] false.

Definition update (ws : nat) (f : Socket -> Socket) : M World unit :=
  modify (with_sockets (alter f ws)).
Definition field {A} (ws : nat) (f : Socket -> A) : M World (option A) :=
  gets (fun w => f <$> sockets w !! ws).
Definition console_log (text : string) : M World unit :=
  modify (with_console (fun l => l ++ [Info text])).
Definition console_error (text err : string) : M World unit :=
  modify (with_console (fun l => l ++ [Error text err])).

(** ** What the [ws] library does *)

(** [ws.send(data)].  Sending while the handshake is still in progress
    throws; on an open socket the frame is written unless the
    environment makes this very call fail ([fails]); on a closing or
    closed socket the data is dropped without an exception. *)
Definition ws_send (fails : bool) (ws : nat) (data : string) : M World unit :=
  rs <~ field ws readyState >>
  match rs with
  | Some CONNECTING => throw "Error: WebSocket is not open: readyState 0 (CONNECTING)"
  | Some OPEN =>
      if fails then throw "Error: send failed"
      else update ws (push_frame (Text data))
  | _ => ret tt
  end.

(** [ws.ping()]. *)
Definition ws_ping (ws : nat) : M World unit :=
  rs <~ field ws readyState >>
  match rs with
  | Some CONNECTING => throw "Error: WebSocket is not open: readyState 0 (CONNECTING)"
  | Some OPEN => update ws (push_frame PingFrame)
  | _ => ret tt
  end.

(** [ws.close(code, reason)]: starts the closing handshake of an open
    socket. *)
Definition ws_close (ws : nat) (code : Z) (reason : string) : M World unit :=
  rs <~ field ws readyState >>
  match rs with
  | Some OPEN =>
      update ws (fun s => set_readyState CLOSING (push_frame (CloseFrame code reason) s))
  | _ => ret tt
  end.

(** [ws.terminate()]: destroys the connection without a handshake; the
    ['close'] event follows on a later turn of the event loop. *)
Definition ws_terminate (ws : nat) : M World unit :=
  rs <~ field ws readyState >>
  match rs with
  | Some CLOSED | None => ret tt
  | Some _ => update ws (fun s => set_destroyed (set_readyState CLOSING s))
  end.

(** ** The application *)

Section Runtime.

(** The built-ins the code calls: [JSON.parse] ([None] when it throws a
    [SyntaxError]), [JSON.stringify], which returns for every value of
    [Json] since these are finite trees, and
    [Date.prototype.toISOString]. *)
Variable JSON_parse : string -> option Json.
Variable JSON_stringify : Json -> string.
Variable toISOString : Z -> string.

Definition parse (text : string) : M World Json :=
  match JSON_parse text with
  | Some v => ret v
  | None => throw "SyntaxError: Unexpected token in JSON"
  end.

Definition typeOf (data : Json) : M World (option Json) :=
  match prop_type data with
  | Ok v => ret v
  | Thrown e => throw e
  end.

Definition validChannels : list string :=
  ["DASHBOARD_STATS"; "TENDER_REQUESTS"; "WEBSITE_ANALYTICS"].

(** The whitelist as the specification words it, to compare with
    [validChannels]. *)
Definition specChannels : list string :=
  ["dashboard-stats"; "tender-requests"; "website-analytics"].

(** [validChannels.includes(channel)]. *)
Definition includes (l : list string) (x : string) : bool :=
  existsb (String.eqb x) l.

(** [req.url.split('?')[0].split('/')]. *)
Definition urlParts (url : string) : list string :=
  split "/" (List.hd "" (split "?" url)).

(** [urlParts[1] || 'default']: a missing and an empty segment are both
    falsy. *)
Definition channelOf (url : string) : string :=
  match urlParts url !! 1%nat with
  | Some seg => if String.eqb seg "" then "default" else seg
  | None => "default"
  end.

(** [wsConnections.get(channel).add(ws)]. *)
Definition registry_add (channel : string) (ws : nat) : M World unit :=
  members <~ gets (fun w => wsConnections w !! channel) >>
  match members with
  | Some set => modify (with_registry <[channel := set ∪ {[ws]}]>)
  | None => throw "TypeError: Cannot read properties of undefined (reading 'add')"
  end.

(** [wsConnections.get(channel)?.delete(ws)]. *)
Definition registry_remove (channel : string) (ws : nat) : M World unit :=
  members <~ gets (fun w => wsConnections w !! channel) >>
  match members with
  | Some set => modify (with_registry <[channel := set ∖ {[ws]}]>)
  | None => ret tt
  end.

(** The ['close'] listener of a registered socket. *)
Definition onClose (ws : nat) (channel : string) (code : Z) (reason : string)
    : M World unit :=
  console_log ("Client disconnected from channel: " +:+ channel +:+ ", code: " +:+
               pretty code +:+ ", reason: " +:+
               (if String.eqb reason "" then "No reason provided" else reason)) >>
  registry_remove channel ws >>
  members <~ gets (fun w => wsConnections w !! channel) >>
  if bool_decide (size <$> members = Some 0%nat) then
    modify (with_registry (delete channel)) >>
    console_log ("Channel " +:+ channel +:+ " removed as it has no connections")
  else ret tt.

(** The ['message'] listener. *)
Definition onMessage (replyFails : bool) (ws : nat) (message : string) : M World unit :=
  try_catch
    (data <~ parse message >>
     type <~ typeOf data >>
     if is_string type "PING" then
       t <~ gets now >>
       ws_send replyFails ws
         (JSON_stringify (JObj [("type", JStr "PONG"); ("timestamp", JStr (toISOString t))])) >>
       update ws (set_isAlive true)
     else
       type' <~ typeOf data >>
       if is_string type' "AUTH" then
         update ws (set_isAuthenticated true) >>
         t <~ gets now >>
         ws_send replyFails ws
           (JSON_stringify (JObj [("type", JStr "AUTH_SUCCESS");
                                  ("timestamp", JStr (toISOString t))]))
       else ret tt)
    (fun err => console_error "Error handling WebSocket message:" err).

(** The ['pong'] listener. *)
Definition onPong (ws : nat) : M World unit :=
  update ws (set_isAlive true).

(** The ['connection'] listener of the server, for the socket [ws] the
    library just accepted on [url]. *)
Definition onConnection (ackFails : bool) (ws : nat) (url : string) : M World unit :=
  let channel := channelOf url in
  console_log ("New WebSocket connection attempt on channel: " +:+ channel) >>
  try_catch
    (if negb (includes validChannels channel) then
       console_error ("Invalid channel: " +:+ channel +:+ ", valid channels are: " +:+
                      join ", " validChannels) "" >>
       ws_close ws 1008 "Invalid channel"
     else
       known <~ gets (fun w => bool_decide (is_Some (wsConnections w !! channel))) >>
       (if negb known then modify (with_registry <[channel := ∅]>) else ret tt) >>
       registry_add channel ws >>
       console_log ("Client successfully connected to channel: " +:+ channel) >>
       t <~ gets now >>
       ws_send ackFails ws
         (JSON_stringify (JObj [("type", JStr "CONNECTED"); ("channel", JStr channel);
                                ("timestamp", JStr (toISOString t))])) >>
       update ws set_onMessage >>
       update ws (set_onClose channel) >>
       update ws (set_isAlive true) >>
       update ws set_onPong)
    (fun err =>
       console_error "Error in WebSocket connection:" err >>
       ws_close ws 1011 "Internal Server Error").

(** [WebSocket.OPEN].  The file imports only [WebSocketServer] and
    reads [WebSocket] from the globals of the runtime, where [OPEN] is
    the ready state of an open socket. *)
Definition WebSocket_OPEN : ReadyState := OPEN.

(** The arrow function [broadcastToChannel] passes to [forEach]. *)
Definition sendToClient (failing : gset nat) (data : Json) (client : nat) : M World unit :=
  rs <~ field client readyState >>
  if bool_decide (rs = Some WebSocket_OPEN) then
    try_catch
      (ws_send (bool_decide (client ∈ failing)) client (JSON_stringify data))
      (fun error => console_error "Failed to send message to client:" error)
  else ret tt.

(** [broadcastToChannel(channel, data)].  [failing] is the set of
    sockets whose [send] the environment makes throw during this call. *)
Definition broadcastToChannel (failing : gset nat) (channel : string) (data : Json)
    : M World unit :=
  members <~ gets (fun w => wsConnections w !! channel) >>
  match members with
  | Some set => forEach (elements set) (sendToClient failing data)
  | None => ret tt
  end.

(** The arrow function the heartbeat passes to [wss.clients.forEach]. *)
Definition checkClient (ws : nat) : M World unit :=
  alive <~ field ws isAlive >>
  if bool_decide (alive = Some (Some false)) then
    console_log "Client not responding to ping, terminating connection" >>
    ws_terminate ws
  else
    update ws (set_isAlive false) >>
    ws_ping ws.

(** The callback of the [pingInterval] timer, run every 30 s. *)
Definition pingInterval : M World unit :=
  all <~ gets clients >>
  forEach (elements all) checkClient.

(** ** The environment *)

Inductive Event : Type :=
  | Connect (url : string) (ackFails : bool)
  | Message (ws : nat) (message : string) (replyFails : bool)
  | Pong (ws : nat)
  | Close (ws : nat) (code : Z) (reason : string)
  | Sweep
  | Broadcast (channel : string) (data : Json) (failing : gset nat)
  | Tick (ms : Z).

(** The library accepts a connection: a new open socket joins
    [wss.clients], then the ['connection'] listener runs. *)
Definition accept (url : string) (ackFails : bool) : M World unit :=
  ws <~ gets nextId >>
  modify (fun w =>
    {| sockets := <[ws := fresh_socket]> (sockets w); nextId := S ws;
       clients := clients w ∪ {[ws]}; wsConnections := wsConnections w;
       now := now w; console := console w |}) >>
  onConnection ackFails ws url.

(** The ['close'] event of a socket, emitted once: the library marks the
    socket closed and drops it from [wss.clients], then the
    application's listener, if installed, runs. *)
Definition emitClose (ws : nat) (code : Z) (reason : string) : M World unit :=
  s <~ gets (fun w => sockets w !! ws) >>
  match s with
  | Some sock =>
      if bool_decide (readyState sock = CLOSED) then ret tt
      else
        update ws (set_readyState CLOSED) >>
        modify (with_clients (fun c => c ∖ {[ws]})) >>
        match onCloseListener sock with
        | Some channel => onClose ws channel code reason
        | None => ret tt
        end
  | None => ret tt
  end.

(** A ['message'] or ['pong'] event reaches its listener while the
    connection has not been closed or destroyed. *)
Definition receiving (sock : Socket) : bool :=
  negb (bool_decide (readyState sock = CLOSED)) && negb (destroyed sock).

Definition emitMessage (ws : nat) (message : string) (replyFails : bool) : M World unit :=
  s <~ gets (fun w => sockets w !! ws) >>
  match s with
  | Some sock =>
      if receiving sock && onMessageListener sock
      then onMessage replyFails ws message else ret tt
  | None => ret tt
  end.

Definition emitPong (ws : nat) : M World unit :=
  s <~ gets (fun w => sockets w !! ws) >>
  match s with
  | Some sock =>
      if receiving sock && onPongListener sock then onPong ws else ret tt
  | None => ret tt
  end.

Definition exec (e : Event) : M World unit :=
  match e with
  | Connect url ackFails => accept url ackFails
  | Message ws message replyFails => emitMessage ws message replyFails
  | Pong ws => emitPong ws
  | Close ws code reason => emitClose ws code reason
  | Sweep => pingInterval
  | Broadcast channel data failing => broadcastToChannel failing channel data
  | Tick ms => modify (with_now (fun t => t + Z.max 0 ms))
  end.

Definition step (e : Event) (w : World) : World := snd (exec e w).

Definition run (es : list Event) (w : World) : World :=
  fold_left (fun w e => step e w) es w.

Definition reachable (w : World) : Prop := exists es, w = run es initial.

(** ** Observations *)

(** The members registered under [channel], empty when there is no
    entry. *)
Definition members (w : World) (channel : string) : gset nat :=
  default ∅ (wsConnections w !! channel).

Definition outbox (w : World) (ws : nat) : list Frame :=
  default [] (sent <$> sockets w !! ws).

Definition isOpen (w : World) (ws : nat) : Prop :=
  readyState <$> sockets w !! ws = Some OPEN.

(** What an inbound message is to the router. *)
Inductive Kind : Type := Malformed | IsPing | IsAuth | Ignored.

Definition classify (message : string) : Kind :=
  match JSON_parse message with
  | None => Malformed
  | Some data =>
      match prop_type data with
      | Thrown _ => Malformed
      | Ok type =>
          if is_string type "PING" then IsPing
          else if is_string type "AUTH" then IsAuth
          else Ignored
      end
  end.

(** An event of the socket [ws] that is a sign of life from its peer. *)
Definition signOfLife (ws : nat) (e : Event) : bool :=
  match e with
  | Pong x => bool_decide (x = ws)
  | Message x message _ =>
      bool_decide (x = ws) &&
      match classify message with IsPing => true | _ => false end
  | _ => false
  end.

Definition closes (ws : nat) (e : Event) : bool :=
  match e with
  | Close x _ _ => bool_decide (x = ws)
  | _ => false
  end.

(** ** The effect of each callback on one socket and on the registry

    These functions restate, socket by socket, what the callbacks above
    do; the lemmas [step_sockets] and [step_registry] prove that they
    agree with [step]. *)

Definition frame (w w' : World) : Prop :=
  nextId w' = nextId w /\ clients w' = clients w /\
  wsConnections w' = wsConnections w /\ now w' = now w.

Definition on_broadcast (failing : gset nat) (data : string) (x : nat) (s : Socket)
    : Socket :=
  if bool_decide (readyState s = OPEN) && negb (bool_decide (x ∈ failing))
  then push_frame (Text data) s else s.

Definition broadcast_log (failing : gset nat) (x : nat) (s : option Socket)
    : list LogLine :=
  match s with
  | Some sock =>
      if bool_decide (readyState sock = OPEN) && bool_decide (x ∈ failing)
      then [Error "Failed to send message to client:" "Error: send failed"] else []
  | None => []
  end.

Definition on_sweep (s : Socket) : Socket :=
  if bool_decide (isAlive s = Some false) then
    if bool_decide (readyState s = CLOSED) then s
    else set_destroyed (set_readyState CLOSING s)
  else
    if bool_decide (readyState s = OPEN) then push_frame PingFrame (set_isAlive false s)
    else set_isAlive false s.

Definition sweep_log (s : option Socket) : list LogLine :=
  match s with
  | Some sock =>
      if bool_decide (isAlive sock = Some false)
      then [Info "Client not responding to ping, terminating connection"] else []
  | None => []
  end.

Definition pongText (t : Z) : string :=
  JSON_stringify (JObj [("type", JStr "PONG"); ("timestamp", JStr (toISOString t))]).
Definition authSuccessText (t : Z) : string :=
  JSON_stringify (JObj [("type", JStr "AUTH_SUCCESS");
                        ("timestamp", JStr (toISOString t))]).
Definition connectedText (channel : string) (t : Z) : string :=
  JSON_stringify (JObj [("type", JStr "CONNECTED"); ("channel", JStr channel);
                        ("timestamp", JStr (toISOString t))]).

Definition on_message (replyFails : bool) (t : Z) (message : string) (s : Socket)
    : Socket :=
  match classify message with
  | IsPing =>
      match readyState s with
      | CONNECTING => s
      | OPEN => if replyFails then s
                else set_isAlive true (push_frame (Text (pongText t)) s)
      | _ => set_isAlive true s
      end
  | IsAuth =>
      match readyState s with
      | OPEN => if replyFails then set_isAuthenticated true s
                else push_frame (Text (authSuccessText t)) (set_isAuthenticated true s)
      | _ => set_isAuthenticated true s
      end
  | _ => s
  end.

Definition rejected (code : Z) (reason : string) : Socket :=
  mkSocket CLOSING None None false None false [CloseFrame code reason] false.

Definition established (channel ack : string) : Socket :=
  mkSocket OPEN (Some true) None true (Some channel) true [Text ack] false.

Definition connect_socket (url : string) (ackFails : bool) (t : Z) : Socket :=
  if includes validChannels (channelOf url) then
    if ackFails then rejected 1011 "Internal Server Error"
    else established (channelOf url) (connectedText (channelOf url) t)
  else rejected 1008 "Invalid channel".

Definition unregister (channel : string) (x : nat) (reg : gmap string (gset nat))
    : gmap string (gset nat) :=
  match reg !! channel with
  | Some set =>
      if bool_decide (size (set ∖ {[x]}) = 0%nat) then delete channel reg
      else <[channel := set ∖ {[x]}]> reg
  | None => reg
  end.

Definition socket_after (e : Event) (w : World) (c : nat) (s : Socket) : Socket :=
  match e with
  | Message x message replyFails =>
      if bool_decide (x = c) && receiving s && onMessageListener s
      then on_message replyFails (now w) message s else s
  | Pong x =>
      if bool_decide (x = c) && receiving s && onPongListener s
      then set_isAlive true s else s
  | Close x _ _ =>
      if bool_decide (x = c) && negb (bool_decide (readyState s = CLOSED))
      then set_readyState CLOSED s else s
  | Sweep => if bool_decide (c ∈ clients w) then on_sweep s else s
  | Broadcast channel data failing =>
      if bool_decide (c ∈ members w channel)
      then on_broadcast failing (JSON_stringify data) c s else s
  | Connect _ _ | Tick _ => s
  end.

Definition registry_after (e : Event) (w : World) : gmap string (gset nat) :=
  match e with
  | Connect url _ =>
      if includes validChannels (channelOf url)
      then <[channelOf url := members w (channelOf url) ∪ {[nextId w]}]> (wsConnections w)
      else wsConnections w
  | Close x _ _ =>
      match sockets w !! x with
      | Some s =>
          if bool_decide (readyState s = CLOSED) then wsConnections w
          else match onCloseListener s with
               | Some channel => unregister channel x (wsConnections w)
               | None => wsConnections w
               end
      | None => wsConnections w
      end
  | _ => wsConnections w
  end.

Definition clients_after (e : Event) (w : World) : gset nat :=
  match e with
  | Connect _ _ => clients w ∪ {[nextId w]}
  | Close x _ _ =>
      match sockets w !! x with
      | Some s => if bool_decide (readyState s = CLOSED) then clients w
                  else clients w ∖ {[x]}
      | None => clients w
      end
  | _ => clients w
  end.

(** An event that is neither a sign of life of [ws] nor its close. *)
Definition silent (ws : nat) (e : Event) : Prop :=
  signOfLife ws e = false /\ closes ws e = false.

Global Instance isOpen_dec w ws : Decision (isOpen w ws).
Proof. unfold isOpen. apply _. Defined.

(** The line the broadcast helper logs for a failed send. *)
Definition sendError : LogLine :=
  Error "Failed to send message to client:" "Error: send failed".

Definition nextId_after (e : Event) (w : World) : nat :=
  match e with Connect _ _ => S (nextId w) | _ => nextId w end.

(** The socket object an event creates, if any. *)
Definition created (e : Event) (w : World) (c : nat) : option Socket :=
  match e with
  | Connect url ackFails =>
      if bool_decide (c = nextId w)
      then Some (connect_socket url ackFails (now w)) else None
  | _ => None
  end.

(** ** Invariant of the reachable states *)

Record Inv (w : World) : Prop := mkInv {
  inv_bounded : forall c s, sockets w !! c = Some s -> (c < nextId w)%nat;
  inv_connected : forall c s, sockets w !! c = Some s -> readyState s <> CONNECTING;
  inv_nonempty : forall channel set, wsConnections w !! channel = Some set -> set <> ∅;
  inv_member : forall channel c, c ∈ members w channel ->
    exists s, sockets w !! c = Some s /\
      forall channel', onCloseListener s = Some channel' -> channel' = channel;
  inv_client : forall c, c ∈ clients w ->
    exists s, sockets w !! c = Some s /\ readyState s <> CLOSED;
  inv_registered : forall c s channel, sockets w !! c = Some s ->
    onCloseListener s = Some channel -> readyState s <> CLOSED ->
    c ∈ members w channel
}.

Definition noConnecting (w : World) : Prop :=
  forall c s, sockets w !! c = Some s -> readyState s <> CONNECTING.

End Runtime.

End Server.

(** * The client: shared sockets and the [useWebSocket] hook
    ([src/hooks/useWebSocket.ts]) *)

Module Client.

(** [WebSocketChannel]. *)
Inductive Channel : Type := DASHBOARD_STATS | TENDER_REQUESTS | WEBSITE_ANALYTICS.

(** The channel as the key of [activeConnections] and in messages. *)
Definition channelName (c : Channel) : string :=
  match c with
  | DASHBOARD_STATS => "DASHBOARD_STATS"
  | TENDER_REQUESTS => "TENDER_REQUESTS"
  | WEBSITE_ANALYTICS => "WEBSITE_ANALYTICS"
  end.

(** The arguments of one [useWebSocket(channel, options)] call site,
    the same on every render of the component.  [onMessage] tells
    whether the caller passed a callback; the callback is identified by
    the hook instance it belongs to. *)
Record Props : Type := mkProps {
  channel : Channel;
  optReconnectAttempts : option nat;
  optEnabled : option bool;
  onMessage : bool;
  token : option string
}.

(** The defaults of the destructured options. *)
Definition reconnectAttempts (p : Props) : nat := default 5%nat (optReconnectAttempts p).
Definition enabled (p : Props) : bool := default true (optEnabled p).

(** One instance of the hook: its arguments, its two pieces of React
    state and its refs. *)
Record Hook : Type := mkHook {
  props : Props;
  isConnected : bool;
  error : option string;
  wsRef : option nat;
  reconnectCountRef : nat;
  reconnectTimeoutRef : option nat;
  lastMessageTimeRef : Z;
  isUnmountedRef : bool
}.

(** A browser [WebSocket].  Its four callbacks are installed by the
    [connect] of the hook instance [owner]: they close over the refs of
    that instance and over the arguments [closure] of the render that
    built this [connect]. *)
Record Socket : Type := mkSocket {
  url : string;
  readyState : ReadyState;
  owner : nat;
  closure : Props;
  sent : list string
}.

(** What [setTimeout] and [setInterval] have pending. *)
Inductive Timer : Type :=
  | Reconnect (hook : nat) (delay : Z)
  | PingInterval (ws : nat)
  | HealthCheck (ws pingInterval : nat).

Record World : Type := mkWorld {
  hooks : gmap nat Hook;
  sockets : gmap nat Socket;
  activeConnections : gmap string nat;
  timers : gmap nat Timer;
  nextHook : nat;
  nextSocket : nat;
  nextTimer : nat;
  now : Z;
  received : list (nat * Json);
  console : list LogLine
}.

Definition initial : World :=
  mkWorld ∅ ∅ ∅ ∅ 0 0 0 0 [] [].

Definition with_hooks (f : gmap nat Hook -> gmap nat Hook) (w : World) : World :=
  mkWorld (f (hooks w)) (sockets w) (activeConnections w) (timers w) (nextHook w)
    (nextSocket w) (nextTimer w) (now w) (received w) (console w).
Definition with_sockets (f : gmap nat Socket -> gmap nat Socket) (w : World) : World :=
  mkWorld (hooks w) (f (sockets w)) (activeConnections w) (timers w) (nextHook w)
    (nextSocket w) (nextTimer w) (now w) (received w) (console w).
Definition with_active (f : gmap string nat -> gmap string nat) (w : World) : World :=
  mkWorld (hooks w) (sockets w) (f (activeConnections w)) (timers w) (nextHook w)
    (nextSocket w) (nextTimer w) (now w) (received w) (console w).
Definition with_timers (f : gmap nat Timer -> gmap nat Timer) (w : World) : World :=
  mkWorld (hooks w) (sockets w) (activeConnections w) (f (timers w)) (nextHook w)
    (nextSocket w) (nextTimer w) (now w) (received w) (console w).
Definition with_received (f : list (nat * Json) -> list (nat * Json)) (w : World) : World :=
  mkWorld (hooks w) (sockets w) (activeConnections w) (timers w) (nextHook w)
    (nextSocket w) (nextTimer w) (now w) (f (received w)) (console w).
Definition with_console (f : list LogLine -> list LogLine) (w : World) : World :=
  mkWorld (hooks w) (sockets w) (activeConnections w) (timers w) (nextHook w)
    (nextSocket w) (nextTimer w) (now w) (received w) (f (console w)).
Definition with_now (f : Z -> Z) (w : World) : World :=
  mkWorld (hooks w) (sockets w) (activeConnections w) (timers w) (nextHook w)
    (nextSocket w) (nextTimer w) (f (now w)) (received w) (console w).

Definition setIsConnected (b : bool) (h : Hook) : Hook :=
  mkHook (props h) b (error h) (wsRef h) (reconnectCountRef h) (reconnectTimeoutRef h)
    (lastMessageTimeRef h) (isUnmountedRef h).
Definition setError (e : option string) (h : Hook) : Hook :=
  mkHook (props h) (isConnected h) e (wsRef h) (reconnectCountRef h)
    (reconnectTimeoutRef h) (lastMessageTimeRef h) (isUnmountedRef h).
Definition set_wsRef (r : option nat) (h : Hook) : Hook :=
  mkHook (props h) (isConnected h) (error h) r (reconnectCountRef h)
    (reconnectTimeoutRef h) (lastMessageTimeRef h) (isUnmountedRef h).
Definition set_reconnectCount (n : nat) (h : Hook) : Hook :=
  mkHook (props h) (isConnected h) (error h) (wsRef h) n (reconnectTimeoutRef h)
    (lastMessageTimeRef h) (isUnmountedRef h).
Definition set_reconnectTimeout (t : option nat) (h : Hook) : Hook :=
  mkHook (props h) (isConnected h) (error h) (wsRef h) (reconnectCountRef h) t
    (lastMessageTimeRef h) (isUnmountedRef h).
Definition set_lastMessageTime (t : Z) (h : Hook) : Hook :=
  mkHook (props h) (isConnected h) (error h) (wsRef h) (reconnectCountRef h)
    (reconnectTimeoutRef h) t (isUnmountedRef h).
Definition set_isUnmounted (b : bool) (h : Hook) : Hook :=
  mkHook (props h) (isConnected h) (error h) (wsRef h) (reconnectCountRef h)
    (reconnectTimeoutRef h) (lastMessageTimeRef h) b.

Definition set_readyState (r : ReadyState) (s : Socket) : Socket :=
  mkSocket (url s) r (owner s) (closure s) (sent s).
Definition push_sent (data : string) (s : Socket) : Socket :=
  mkSocket (url s) (readyState s) (owner s) (closure s) (sent s ++ [data]).

Definition update (h : nat) (f : Hook -> Hook) : M World unit :=
  modify (with_hooks (alter f h)).
Definition console_error (text err : string) : M World unit :=
  modify (with_console (fun l => l ++ [Error text err])).

(** Reads of the instance [h]; a hook instance the world does not know
    cannot run. *)
Definition the_hook (h : nat) : M World Hook :=
  o <~ gets (fun w => hooks w !! h) >>
  match o with
  | Some hk => ret hk
  | None => throw "ReferenceError: no such hook instance"
  end.

(** ** The browser *)

(** [ws.send(data)]: throws while connecting, writes when open, drops
    the data otherwise. *)
Definition ws_send (ws : nat) (data : string) : M World unit :=
  s <~ gets (fun w => sockets w !! ws) >>
  match readyState <$> s with
  | Some CONNECTING => throw "InvalidStateError: Still in CONNECTING state"
  | Some OPEN => modify (with_sockets (alter (push_sent data) ws))
  | _ => ret tt
  end.

(** [ws.close()]: starts closing a socket that is connecting or open. *)
Definition ws_close (ws : nat) : M World unit :=
  s <~ gets (fun w => sockets w !! ws) >>
  match readyState <$> s with
  | Some CONNECTING | Some OPEN => modify (with_sockets (alter (set_readyState CLOSING) ws))
  | _ => ret tt
  end.

Definition setTimer (t : Timer) : M World nat :=
  id <~ gets nextTimer >>
  modify (fun w =>
    mkWorld (hooks w) (sockets w) (activeConnections w) (<[id := t]> (timers w))
      (nextHook w) (nextSocket w) (S id) (now w) (received w) (console w)) >>
  ret id.

(** [clearTimeout(id)] and [clearInterval(id)]. *)
Definition clearTimer (id : nat) : M World unit :=
  modify (with_timers (delete id)).

Section Runtime.

Variable JSON_parse : string -> option Json.
Variable JSON_stringify : Json -> string.
(** [WS_BASE_URL] of [config/api.ts]. *)
Variable WS_BASE_URL : string.

(** [API_ENDPOINTS.WS[channel]]. *)
Definition wsEndpoint (c : Channel) : string :=
  match c with
  | DASHBOARD_STATS => WS_BASE_URL +:+ "/ws/dashboard-stats"
  | TENDER_REQUESTS => WS_BASE_URL +:+ "/ws/tender-requests"
  | WEBSITE_ANALYTICS => WS_BASE_URL +:+ "/ws/website-analytics"
  end.

(** [Math.min(1000 * Math.pow(2, n), 30000)]. *)
Definition backoff (n : nat) : Z := Z.min (1000 * 2 ^ Z.of_nat n) 30000.

(** [if (token)]: [null] and the empty string are falsy. *)
Definition truthy (tok : option string) : option string :=
  match tok with
  | Some t => if String.eqb t "" then None else Some t
  | None => None
  end.

(** [ws.onopen], for the socket [ws] created by the instance [h] from
    the arguments [p]. *)
Definition onopen (h : nat) (p : Props) (ws : nat) : M World unit :=
  update h (setIsConnected true) >>
  update h (setError None) >>
  update h (set_reconnectCount 0) >>
  t <~ gets now >>
  update h (set_lastMessageTime t) >>
  match truthy (token p) with
  | Some tok =>
      ws_send ws (JSON_stringify (JObj [("type", JStr "AUTH"); ("token", JStr tok);
                                        ("channel", JStr (channelName (channel p)))]))
  | None => ret tt
  end.

(** [ws.onmessage]: the parsed message goes to the [onMessage] of the
    arguments the callback closed over. *)
Definition onmessage (h : nat) (p : Props) (data : string) : M World unit :=
  try_catch
    (match JSON_parse data with
     | Some v =>
         t <~ gets now >>
         update h (set_lastMessageTime t) >>
         if onMessage p then modify (with_received (fun l => l ++ [(h, v)]))
         else ret tt
     | None => throw "SyntaxError: Unexpected token in JSON"
     end)
    (fun err => console_error "Failed to parse WebSocket message:" err).

(** [ws.onerror]. *)
Definition onerror (h : nat) (p : Props) : M World unit :=
  console_error ("WebSocket error for " +:+ channelName (channel p) +:+ ":") "" >>
  update h (setError (Some "Connection error occurred")).

(** [ws.onclose].  The callback of the timeout it sets is
    [reconnectNow]. *)
Definition onclose (h : nat) (p : Props) : M World unit :=
  hk <~ the_hook h >>
  if isUnmountedRef hk then ret tt
  else
    update h (setIsConnected false) >>
    update h (set_wsRef None) >>
    modify (with_active (delete (channelName (channel p)))) >>
    hk' <~ the_hook h >>
    if negb (isUnmountedRef hk') && enabled p &&
       bool_decide (reconnectCountRef hk' < reconnectAttempts p)%nat
    then
      id <~ setTimer (Reconnect h (backoff (reconnectCountRef hk'))) >>
      update h (set_reconnectTimeout (Some id))
    else if bool_decide (reconnectAttempts p <= reconnectCountRef hk')%nat
    then update h (setError (Some "Maximum reconnection attempts reached"))
    else ret tt.

(** [connect()] of the instance [h]. *)
Definition connect (h : nat) : M World unit :=
  try_catch
    (hk <~ the_hook h >>
     if negb (enabled (props hk)) then ret tt
     else
       current <~ gets (fun w => wsRef hk ≫= fun ws => readyState <$> sockets w !! ws) >>
       if bool_decide (current = Some CONNECTING) || bool_decide (current = Some OPEN)
       then ret tt
       else
         existing <~ gets (fun w => activeConnections w !! channelName (channel (props hk))) >>
         match existing with
         | Some ws =>
             update h (set_wsRef (Some ws)) >>
             update h (setIsConnected true)
         | None =>
             let wsUrl := wsEndpoint (channel (props hk)) +:+ "?channel=" +:+
                          channelName (channel (props hk)) in
             ws <~ gets nextSocket >>
             modify (fun w =>
               mkWorld (hooks w)
                 (<[ws := mkSocket wsUrl CONNECTING h (props hk) []]> (sockets w))
                 (activeConnections w) (timers w) (nextHook w) (S ws) (nextTimer w)
                 (now w) (received w) (console w)) >>
             update h (set_wsRef (Some ws)) >>
             modify (with_active <[channelName (channel (props hk)) := ws]>) >>
             pingInterval <~ setTimer (PingInterval ws) >>
             _ <~ setTimer (HealthCheck ws pingInterval) >>
             ret tt
         end)
    (fun err =>
       console_error "Failed to establish WebSocket connection:" err >>
       update h (setError (Some "Failed to establish connection"))).

(** The callback of the reconnect timeout. *)
Definition reconnectNow (h : nat) : M World unit :=
  hk <~ the_hook h >>
  update h (set_reconnectCount (S (reconnectCountRef hk))) >>
  connect h.

(** The callback of the 30 s ping interval of the socket [ws]. *)
Definition pingTick (ws : nat) : M World unit :=
  s <~ gets (fun w => sockets w !! ws) >>
  match s with
  | Some sock =>
      if bool_decide (readyState sock = OPEN) then
        ws_send ws (JSON_stringify
                      (JObj [("type", JStr "PING");
                             ("channel", JStr (channelName (channel (closure sock))))]))
      else ret tt
  | None => ret tt
  end.

(** The callback of the 45 s health check of the socket [ws], whose own
    timer is [self]. *)
Definition healthTick (self ws pingInterval : nat) : M World unit :=
  s <~ gets (fun w => sockets w !! ws) >>
  match s with
  | Some sock =>
      hk <~ the_hook (owner sock) >>
      if isUnmountedRef hk || negb (enabled (closure sock)) then clearTimer self
      else
        t <~ gets now >>
        if bool_decide (45000 < t - lastMessageTimeRef hk) then
          ws_close ws >>
          clearTimer self >>
          clearTimer pingInterval
        else ret tt
  | None => ret tt
  end.

(** [Object.values(activeConnections).includes(ws)]. *)
Definition inUse (w : World) (ws : nat) : bool :=
  bool_decide (ws ∈ (map_to_list (activeConnections w)).*2).

(** The body of the effect. *)
Definition effect (h : nat) : M World unit :=
  hk <~ the_hook h >>
  update h (set_isUnmounted false) >>
  if enabled (props hk) then connect h else ret tt.

(** The cleanup the effect returns. *)
Definition cleanup (h : nat) : M World unit :=
  update h (set_isUnmounted true) >>
  hk <~ the_hook h >>
  match reconnectTimeoutRef hk with
  | Some id => clearTimer id
  | None => ret tt
  end >>
  match wsRef hk with
  | Some ws =>
      otherComponentsUsingChannel <~ gets (fun w => inUse w ws) >>
      (if negb otherComponentsUsingChannel then
         ws_close ws >>
         modify (with_active (delete (channelName (channel (props hk)))))
       else ret tt) >>
      update h (set_wsRef None)
  | None => ret tt
  end.

(** ** The environment *)

Inductive Event : Type :=
  | Mount (p : Props)
  | Cleanup (h : nat)
  | Effect (h : nat)
  | SocketOpen (ws : nat)
  | SocketMessage (ws : nat) (data : string)
  | SocketError (ws : nat)
  | SocketClose (ws : nat)
  | TimerFires (id : nat)
  | Tick (ms : Z).

(** A component calling the hook is rendered for the first time. *)
Definition mount (p : Props) : M World unit :=
  h <~ gets nextHook >>
  t <~ gets now >>
  modify (fun w =>
    mkWorld (<[h := mkHook p false None None 0 None t false]> (hooks w)) (sockets w)
      (activeConnections w) (timers w) (S h) (nextSocket w) (nextTimer w) (now w)
      (received w) (console w)) >>
  effect h.

Definition socketOpen (ws : nat) : M World unit :=
  s <~ gets (fun w => sockets w !! ws) >>
  match s with
  | Some sock =>
      if bool_decide (readyState sock = CONNECTING) then
        modify (with_sockets (alter (set_readyState OPEN) ws)) >>
        onopen (owner sock) (closure sock) ws
      else ret tt
  | None => ret tt
  end.

Definition socketMessage (ws : nat) (data : string) : M World unit :=
  s <~ gets (fun w => sockets w !! ws) >>
  match s with
  | Some sock =>
      if bool_decide (readyState sock = OPEN) then onmessage (owner sock) (closure sock) data
      else ret tt
  | None => ret tt
  end.

Definition socketError (ws : nat) : M World unit :=
  s <~ gets (fun w => sockets w !! ws) >>
  match s with
  | Some sock =>
      if bool_decide (readyState sock = CLOSED) then ret tt else onerror (owner sock) (closure sock)
  | None => ret tt
  end.

Definition socketClose (ws : nat) : M World unit :=
  s <~ gets (fun w => sockets w !! ws) >>
  match s with
  | Some sock =>
      if bool_decide (readyState sock = CLOSED) then ret tt
      else
        modify (with_sockets (alter (set_readyState CLOSED) ws)) >>
        onclose (owner sock) (closure sock)
  | None => ret tt
  end.

Definition timerFires (id : nat) : M World unit :=
  t <~ gets (fun w => timers w !! id) >>
  match t with
  | Some (Reconnect h _) => clearTimer id >> reconnectNow h
  | Some (PingInterval ws) => pingTick ws
  | Some (HealthCheck ws pingInterval) => healthTick id ws pingInterval
  | None => ret tt
  end.

Definition exec (e : Event) : M World unit :=
  match e with
  | Mount p => mount p
  | Cleanup h => cleanup h
  | Effect h => effect h
  | SocketOpen ws => socketOpen ws
  | SocketMessage ws data => socketMessage ws data
  | SocketError ws => socketError ws
  | SocketClose ws => socketClose ws
  | TimerFires id => timerFires id
  | Tick ms => modify (with_now (fun t => t + Z.max 0 ms))
  end.

Definition step (e : Event) (w : World) : World := snd (exec e w).

Definition run (es : list Event) (w : World) : World :=
  fold_left (fun w e => step e w) es w.

Definition reachable (w : World) : Prop := exists es, w = run es initial.

(** ** Observations *)

(** How often the callback of the instance [h] was called with [v]. *)
Definition calls (w : World) (h : nat) : list Json :=
  snd <$> filter (fun hv => fst hv = h) (received w).

(** The delays of the reconnect timeouts that are pending, by timer. *)
Definition pendingReconnects (w : World) : list (nat * Z) :=
  omap (fun kv => match snd kv with
                  | Reconnect h d => Some (h, d)
                  | _ => None
                  end) (map_to_list (timers w)).

End Runtime.

(** ** Invariant of the reachable states

    Every socket was created by a [connect] whose arguments had
    [enabled] set. *)
Definition CInv (w : World) : Prop :=
  forall ws s, sockets w !! ws = Some s -> enabled (closure s) = true.

(** A computation that keeps a property of the world, however it ends. *)
Definition keeps {A} (P : World -> Prop) (m : M World A) : Prop :=
  forall w, P w -> P (snd (m w)).

(** Two worlds in which every instance has the same attempt counter. *)
Definition sameCounts (w w' : World) : Prop :=
  forall h hk, hooks w !! h = Some hk ->
    exists hk', hooks w' !! h = Some hk' /\ reconnectCountRef hk' = reconnectCountRef hk.

(** Nothing is open, pending or registered, and every instance is
    switched off. *)
Definition idle (w : World) : Prop :=
  sockets w = ∅ /\ timers w = ∅ /\ activeConnections w = ∅ /\
  forall h hk, hooks w !! h = Some hk -> enabled (props hk) = false.

(** Every socket was opened at the address of a channel:
    [`${API_ENDPOINTS.WS[channel]}?channel=${channel}`]. *)
Definition UrlInv (WS_BASE_URL : string) (w : World) : Prop :=
  forall ws s, sockets w !! ws = Some s ->
    exists c, url s = wsEndpoint WS_BASE_URL c +:+ "?channel=" +:+ channelName c.

End Client.

(** * Around the transport

    The origin check and the database retries of [server/index.js], the
    monthly buckets of the dashboard statistics ([server/routes/admin.js])
    and the component state the messages of the channels are folded
    into. *)

(** ** [corsOptions.origin] *)

Module Cors.

Definition allowedOrigins : list string :=
  [ "http://localhost:5173";
    "http://localhost:5174";
    "ws://localhost:5173";
    "ws://localhost:5174";
    "http://localhost:5000";
    "https://dhiya-frontend.vercel.app";
    "https://dhiya-frontend.vercel.app/";
    "https://dhiya-frontend-8kw2fs9nw-jananis-projects-e76bb261.vercel.app";
    "https://dhiya-frontend-a1wcym8u4-jananis-projects-e76bb261.vercel.app";
    "https://dhiya-frontend-jh0vkuf43-jananis-projects-e76bb261.vercel.app" ].

(** [s.endsWith(suffix)]: [s] is [suffix], or what follows its first
    character ends with [suffix]. *)
Fixpoint endsWith (s suffix : string) : bool :=
  String.eqb s suffix ||
  match s with
  | String _ rest => endsWith rest suffix
  | EmptyString => false
  end.

(** What [callback] is called with: [(null, true)] or an error. *)
Inductive Verdict : Type :=
  | Allowed
  | Refused (err : string).

(** The [origin] function, for the [Origin] header of a request
    ([None]: the request has none), with what it logs. *)
Definition origin (origin : option string) : Verdict * list LogLine :=
  match origin with
  | None => (Allowed, [])
  | Some o =>
      if String.eqb o "" then (Allowed, [])
      else if Server.includes allowedOrigins o || endsWith o ".vercel.app"
      then (Allowed, [])
      else (Refused "Not allowed by CORS",
            [Info ("CORS blocked request from origin: " +:+ o)])
  end.

End Cors.

(** ** [connectDB] *)

Module Database.

Definition MAX_RETRIES : nat := 5.

(** How a chain of attempts ends: connected, [process.exit(code)], or
    still waiting for [mongoose.connect] to settle. *)
Inductive Outcome : Type :=
  | Connected
  | Exited (code : Z)
  | Connecting.

(** [connectDB(retryCount)] against the results of the successive
    [mongoose.connect] calls ([true]: resolved, [false]: rejected): the
    delays of the timeouts it sets, in order, and how the chain ends. *)
Fixpoint connectDB (results : list bool) (retryCount : nat) : list Z * Outcome :=
  match results with
  | [] => ([], Connecting)
  | true :: _ => ([], Connected)
  | false :: rest =>
      if bool_decide (retryCount < MAX_RETRIES)%nat then
        let '(delays, outcome) := connectDB rest (S retryCount) in
        (5000 * 2 ^ Z.of_nat retryCount :: delays, outcome)
      else ([], Exited 1)
  end.

(** The time spent waiting between attempts. *)
Definition waited (delays : list Z) : Z := foldr Z.add 0 delays.

End Database.

(** ** [getMonthlyRequestCounts] *)

Module AdminStats.

Definition monthNames : list string :=
  ["Jan"; "Feb"; "Mar"; "Apr"; "May"; "Jun"; "Jul"; "Aug"; "Sep"; "Oct"; "Nov"; "Dec"].

(** The year and the month of the bucket [i] months back:
    [Math.floor(targetMonth / 12)] is the floor of the quotient, [%]
    is the remainder that has the sign of the dividend. *)
Definition target (fullYear getMonth i : Z) : Z * Z :=
  let targetMonth := getMonth - i in
  let year := fullYear + targetMonth / 12 in
  let month := Z.rem (Z.rem targetMonth 12 + 12) 12 in
  (year, month).

Section Calendar.

(** [new Date(year, month, day).getTime()]. *)
Variable Date : Z -> Z -> Z -> Z.

(** [TenderRequest.countDocuments({ createdAt: { $gte, $lte } })] over
    the creation times of the collection. *)
Definition countDocuments (collection : list Z) (gte lte : Z) : nat :=
  length (filter (fun createdAt => gte <= createdAt <= lte) collection).

(** One pass of the loop body. *)
Definition bucket (collection : list Z) (fullYear getMonth i : Z) : option string * nat :=
  let '(year, month) := target fullYear getMonth i in
  let startDate := Date year month 1 in
  let endDate := Date year (month + 1) 0 in
  (monthNames !! Z.to_nat month, countDocuments collection startDate endDate).

(** [for (let i = 11; i >= 0; i--)], today being in the month
    [getMonth] of [fullYear]. *)
Definition getMonthlyRequestCounts (collection : list Z) (fullYear getMonth : Z)
    : list (option string * nat) :=
  bucket collection fullYear getMonth <$> [11; 10; 9; 8; 7; 6; 5; 4; 3; 2; 1; 0].

End Calendar.

End AdminStats.

(** ** The list of tender requests ([components/admin/TenderRequests.tsx]) *)

Module TenderList.

Record TenderRequest : Type := mkRequest {
  _id : string;
  companyName : string;
  projectType : string;
  status : string
}.

Definition with_status (newStatus : string) (req : TenderRequest) : TenderRequest :=
  mkRequest (_id req) (companyName req) (projectType req) newStatus.

(** [WebSocketMessage], and what else may arrive on the channel. *)
Inductive WebSocketMessage : Type :=
  | NEW_REQUEST (request : TenderRequest)
  | UPDATE_REQUEST (request : TenderRequest)
  | DELETE_REQUEST (requestId : string)
  | OtherMessage.

(** The two lists of the component: [requests], and [filteredRequests],
    the rows of the table. *)
Record State : Type := mkState {
  requests : list TenderRequest;
  filteredRequests : list TenderRequest
}.

Definition setRequests (f : list TenderRequest -> list TenderRequest) (st : State) : State :=
  mkState (f (requests st)) (filteredRequests st).
Definition setFilteredRequests (f : list TenderRequest -> list TenderRequest) (st : State)
    : State :=
  mkState (requests st) (f (filteredRequests st)).

(** The [onMessage] passed to [useWebSocket]. *)
Definition onMessage (data : WebSocketMessage) : State -> State :=
  match data with
  | NEW_REQUEST request => setRequests (fun prev => request :: prev)
  | UPDATE_REQUEST request =>
      setRequests (fun prev =>
        (fun req => if String.eqb (_id req) (_id request) then request else req) <$> prev)
  | DELETE_REQUEST requestId =>
      setRequests (fun prev =>
        List.filter (fun req => negb (String.eqb (_id req) requestId)) prev)
  | OtherMessage => fun st => st
  end.

(** [fetchRequests(pageNum, append)] once the response [data.requests]
    is there. *)
Definition fetched (append : bool) (data : list TenderRequest) (st : State) : State :=
  if append
  then setFilteredRequests (fun prev => prev ++ data) (setRequests (fun prev => prev ++ data) st)
  else setFilteredRequests (fun _ => data) (setRequests (fun _ => data) st).

(** [handleUpdateStatus] once the [PATCH] has succeeded. *)
Definition handleUpdateStatus (requestId newStatus : string) : State -> State :=
  setRequests (fun prev =>
    (fun req => if String.eqb (_id req) requestId then with_status newStatus req else req)
      <$> prev).

(** What happens to the component. *)
Inductive Action : Type :=
  | Message (data : WebSocketMessage)
  | Fetched (append : bool) (data : list TenderRequest)
  | StatusUpdated (requestId newStatus : string).

Definition act (a : Action) : State -> State :=
  match a with
  | Message data => onMessage data
  | Fetched append data => fetched append data
  | StatusUpdated requestId newStatus => handleUpdateStatus requestId newStatus
  end.

Definition play (actions : list Action) (st : State) : State :=
  fold_left (fun st a => act a st) actions st.

Definition initial : State := mkState [] [].

(** The last response that replaced the lists, and the pages appended
    since. *)
Fixpoint lastFetch (actions : list Action) (rows : list TenderRequest) : list TenderRequest :=
  match actions with
  | [] => rows
  | Fetched false data :: rest => lastFetch rest data
  | Fetched true data :: rest => lastFetch rest (rows ++ data)
  | _ :: rest => lastFetch rest rows
  end.

End TenderList.

(** ** The selection of the comparison page ([pages/TenderComparisonPage.tsx]) *)

Module TenderComparison.

(** The updater [toggleTenderSelection] passes to [setSelectedTenders]. *)
Definition toggleTenderSelection (tenderId : string) (prev : list string) : list string :=
  if Server.includes prev tenderId
  then List.filter (fun id => negb (String.eqb id tenderId)) prev
  else prev ++ [tenderId].

End TenderComparison.

(** * A concrete runtime and concrete runs

    The facts below hold for every [JSON.parse], [JSON.stringify] and
    clock; to run the model on examples this module fixes a toy wire
    format in which the text of a message is the value of its [type]
    field. *)

Module Demo.

Definition parse (text : string) : option Json :=
  if String.eqb text "" then None
  else if String.eqb text "null" then Some JNull
  else Some (JObj [("type", JStr text)]).

Definition stringify (v : Json) : string :=
  match prop_type v with
  | Ok (Some (JStr type)) => type
  | _ => "?"
  end.

Definition isoString (t : Z) : string := pretty t.

Definition baseUrl : string := "ws://localhost:5000".

(** The event [{ type: 'NEW_REQUEST' }]. *)
Definition newRequest : Json := JObj [("type", JStr "NEW_REQUEST")].

(** The server after one dashboard connected. *)
Definition oneDashboard : Server.World :=
  Server.run parse stringify isoString
    [Server.Connect "/DASHBOARD_STATS" false] Server.initial.

(** The socket that connection left in the registry. *)
Definition dashboardSocket : Server.Socket :=
  Server.established "DASHBOARD_STATS"
    (Server.connectedText stringify isoString "DASHBOARD_STATS" 0).

(** Two dashboards and one tender list. *)
Definition threeClients : Server.World :=
  Server.run parse stringify isoString
    [Server.Connect "/DASHBOARD_STATS" false;
     Server.Connect "/TENDER_REQUESTS?token=abc" false;
     Server.Connect "/DASHBOARD_STATS" false] Server.initial.

(** What a silent client still does: it authenticates, time passes, and
    others are served. *)
Definition silence : list Server.Event :=
  [Server.Message 0 "AUTH" false; Server.Tick 1000;
   Server.Broadcast "DASHBOARD_STATS" newRequest ∅].

(** A component that listens to tender requests. *)
Definition subscriber : Client.Props :=
  Client.mkProps Client.TENDER_REQUESTS None None true None.

Definition clientRun : list Client.Event -> Client.World -> Client.World :=
  Client.run parse stringify baseUrl.

(** One subscriber whose socket is still connecting. *)
Definition oneSubscriber : Client.World := clientRun [Client.Mount subscriber] Client.initial.

(** The socket and the hook instance of that world. *)
Definition subscriberSocket : Client.Socket :=
  Client.mkSocket "ws://localhost:5000/ws/tender-requests?channel=TENDER_REQUESTS"
    CONNECTING 0 subscriber [].
Definition subscriberHook : Client.Hook :=
  Client.mkHook subscriber false None (Some 0%nat) 0 None 0 false.

(** A component that passes [enabled: false]. *)
Definition switchedOff : Client.Props :=
  Client.mkProps Client.DASHBOARD_STATS None (Some false) true None.

(** The only subscriber has unmounted; its socket is still open. *)
Definition abandoned : Client.World :=
  clientRun [Client.Mount subscriber; Client.SocketOpen 0; Client.Cleanup 0] Client.initial.

(** A subscriber whose open socket has been silent for 45.001 s. *)
Definition stale : Client.World :=
  clientRun [Client.Mount subscriber; Client.SocketOpen 0; Client.Tick 45001] Client.initial.

(** A calendar whose months all have 31 days, in milliseconds since
    the beginning of year 0. *)
Definition calendar (year month day : Z) : Z :=
  ((12 * year + month) * 31 + day - 1) * 86400000.

(** Two requests of the list. *)
Definition bridge : TenderList.TenderRequest :=
  TenderList.mkRequest "r1" "Acme" "Bridge" "new".
Definition road : TenderList.TenderRequest :=
  TenderList.mkRequest "r2" "Brick" "Road" "reviewed".

End Demo.

(** * Facts about the server *)

Module ServerFacts.
Import Server.

(** ** Maps, sets and loops *)

Lemma frame_refl w : frame w w.
Proof. by repeat split. Qed.

Lemma frame_trans w1 w2 w3 : frame w1 w2 -> frame w2 w3 -> frame w1 w3.
Proof. unfold frame. intros (?&?&?&?) (?&?&?&?). repeat split; congruence. Qed.

Lemma diff_singleton_empty (members : gset nat) (c : nat) :
  members ∖ {[c]} = ∅ <-> members ⊆ {[c]}.
Proof.
  split.
  - intros Hz x Hx. destruct (decide (x = c)) as [->|Hne]; [set_solver|].
    assert (x ∈ members ∖ {[c]}) as Hin by set_solver. rewrite Hz in Hin. set_solver.
  - intros Hsub. apply leibniz_equiv. intros x. split; [|set_solver].
    intros [Hx Hn]%elem_of_difference. specialize (Hsub x Hx). set_solver.
Qed.

Lemma flat_map_agree {A B} (g h : A -> list B) (l : list A) :
  (forall x, x ∈ l -> g x = h x) -> flat_map g l = flat_map h l.
Proof.
  induction l as [|a l IH]; intros H; simpl; [done|].
  rewrite H by set_solver. rewrite IH; [done|]. intros; apply H; set_solver.
Qed.

Section Loop.
Variable I : World -> Prop.
Variable f : nat -> Socket -> Socket.
Variable lg : nat -> option Socket -> list LogLine.
Variable m : nat -> M World unit.
Hypothesis m_spec : forall x w, I w ->
  exists w', m x w = (Ok tt, w') /\ frame w w' /\
    sockets w' = alter (f x) x (sockets w) /\
    console w' = (console w ++ lg x (sockets w !! x))%list /\ I w'.

Lemma forEach_sockets (l : list nat) : forall w, NoDup l -> I w ->
  exists w', forEach l m w = (Ok tt, w') /\ frame w w' /\
    (forall c, sockets w' !! c =
       if bool_decide (c ∈ l) then f c <$> sockets w !! c else sockets w !! c) /\
    console w' = (console w ++ flat_map (fun x => lg x (sockets w !! x)) l)%list /\ I w'.
Proof.
  induction l as [|x l IH]; intros w Hnd HI.
  - exists w. simpl. rewrite app_nil_r. repeat split; auto.
  - apply NoDup_cons in Hnd as [Hx Hnd].
    destruct (m_spec x w HI) as (w1 & E1 & F1 & S1 & C1 & I1).
    destruct (IH w1 Hnd I1) as (w2 & E2 & F2 & S2 & C2 & I2).
    exists w2. split; [|split; [|split; [|split]]]; auto.
    + simpl. unfold bind. rewrite E1. exact E2.
    + eapply frame_trans; eauto.
    + intros c. rewrite S2, S1. destruct (decide (c = x)) as [->|Hne].
      * rewrite (bool_decide_eq_false_2 _ Hx). rewrite lookup_alter_eq.
        rewrite bool_decide_eq_true_2 by set_solver. done.
      * rewrite lookup_alter_ne by done.
        destruct (decide (c ∈ l)).
        -- rewrite !bool_decide_eq_true_2 by set_solver. done.
        -- rewrite !bool_decide_eq_false_2 by set_solver. done.
    + rewrite C2, C1. simpl. rewrite <- app_assoc. f_equal. f_equal.
      apply flat_map_agree. intros y Hy. rewrite S1.
      rewrite lookup_alter_ne; [done|]. by intros ->.
Qed.
End Loop.

Ltac run_m :=
  cbv [bind gets modify ret throw try_catch console_log console_error field update
       with_console with_sockets with_registry with_clients with_now];
  cbn [nextId sockets clients wsConnections now console fst snd].

Lemma spec_unchanged (P : World -> Prop) (g : Socket -> Socket) x w :
  (forall s, sockets w !! x = Some s -> g s = s) -> P w ->
  exists w', (Ok tt, w) = (Ok tt, w') /\ frame w w' /\
    sockets w' = alter g x (sockets w) /\
    console w' = (console w ++ [])%list /\ P w'.
Proof.
  intros Hg HP. exists w. split; [done|]. split; [apply frame_refl|].
  split; [symmetry; by apply alter_id|]. by rewrite app_nil_r.
Qed.

(** ** What each callback does

    Each callback is shown to return normally and to change the world as
    the pure functions of the [Server] module say. *)

Section Facts.
Variable JSON_parse : string -> option Json.
Variable JSON_stringify : Json -> string.
Variable toISOString : Z -> string.

#[local] Abbreviation step := (step JSON_parse JSON_stringify toISOString).
#[local] Abbreviation exec := (exec JSON_parse JSON_stringify toISOString).
#[local] Abbreviation run := (run JSON_parse JSON_stringify toISOString).
#[local] Abbreviation reachable := (reachable JSON_parse JSON_stringify toISOString).
#[local] Abbreviation socket_after := (socket_after JSON_parse JSON_stringify toISOString).
#[local] Abbreviation created := (created JSON_stringify toISOString).
#[local] Abbreviation broadcastToChannel := (broadcastToChannel JSON_stringify).
#[local] Abbreviation classify := (classify JSON_parse).
#[local] Abbreviation signOfLife := (signOfLife JSON_parse).
#[local] Abbreviation silent := (silent JSON_parse).
#[local] Abbreviation onMessage := (onMessage JSON_parse JSON_stringify toISOString).
#[local] Abbreviation authSuccessText := (authSuccessText JSON_stringify toISOString).
#[local] Abbreviation pongText := (pongText JSON_stringify toISOString).
#[local] Abbreviation on_message := (on_message JSON_parse JSON_stringify toISOString).

Lemma sendToClient_spec failing data x w : True ->
  exists w', sendToClient JSON_stringify failing data x w = (Ok tt, w') /\ frame w w' /\
    sockets w' = alter (on_broadcast failing (JSON_stringify data) x) x (sockets w) /\
    console w' = (console w ++ broadcast_log failing x (sockets w !! x))%list /\ True.
Proof.
  intros _. unfold sendToClient, WebSocket_OPEN, ws_send, on_broadcast, broadcast_log. run_m.
  destruct (sockets w !! x) as [s|] eqn:E; simpl.
  - destruct (readyState s) eqn:R; simpl.
    1,3,4: apply (spec_unchanged (fun _ => True)); [|done];
        intros s' Hs'; assert (s' = s) as -> by congruence; by rewrite R.
    rewrite E; simpl. rewrite R.
    destruct (bool_decide (x ∈ failing)) eqn:F; simpl.
    + eexists; split; [reflexivity|]. repeat split; simpl.
      symmetry; apply alter_id. intros s' Hs'. assert (s' = s) as -> by congruence. by rewrite R.
    + eexists; split; [reflexivity|]. repeat split; simpl.
      * apply alter_ext. intros s' Hs'. assert (s' = s) as -> by congruence. by rewrite R.
      * by rewrite app_nil_r.
  - apply (spec_unchanged (fun _ => True)); [|done]. intros s' Hs'. congruence.
Qed.

Lemma broadcast_effect failing channel data w :
  exists w', broadcastToChannel failing channel data w = (Ok tt, w') /\
    frame w w' /\
    (forall c, sockets w' !! c =
       if bool_decide (c ∈ members w channel)
       then on_broadcast failing (JSON_stringify data) c <$> sockets w !! c
       else sockets w !! c) /\
    console w' = (console w ++
       flat_map (fun x => broadcast_log failing x (sockets w !! x))
                (elements (members w channel)))%list.
Proof.
  unfold broadcastToChannel, members. run_m.
  destruct (wsConnections w !! channel) as [set|] eqn:E; simpl.
  - destruct (forEach_sockets (fun _ => True) _ _ _
               (sendToClient_spec failing data) (elements set) w)
      as (w' & E' & F & S & C & _); [apply NoDup_elements|done|].
    exists w'. split; [done|]. split; [done|]. split; [|done].
    intros c. rewrite S. destruct (decide (c ∈ set)).
    + rewrite !bool_decide_eq_true_2; auto. by apply elem_of_elements.
    + rewrite !bool_decide_eq_false_2; auto. by rewrite elem_of_elements.
  - exists w. split; [done|]. split; [apply frame_refl|]. split.
    + intros c. rewrite bool_decide_eq_false_2; [done|]. set_solver.
    + rewrite elements_empty. simpl. by rewrite app_nil_r.
Qed.

Lemma noConnecting_alter (g : Socket -> Socket) x w w' :
  (forall s, readyState s <> CONNECTING -> readyState (g s) <> CONNECTING) ->
  sockets w' = alter g x (sockets w) -> noConnecting w -> noConnecting w'.
Proof.
  intros Hg E H c s. rewrite E. destruct (decide (c = x)) as [->|Hne].
  - rewrite lookup_alter_eq. destruct (sockets w !! x) as [s0|] eqn:E0; simpl; [|done].
    intros [= <-]. apply Hg. eauto.
  - rewrite lookup_alter_ne by done. apply H.
Qed.

Lemma on_sweep_readyState s :
  readyState s <> CONNECTING -> readyState (on_sweep s) <> CONNECTING.
Proof.
  unfold on_sweep. repeat case_bool_decide; simpl; congruence.
Qed.

Lemma alter_agree (g h : Socket -> Socket) x (mp : gmap nat Socket) s :
  mp !! x = Some s -> g s = h s -> alter g x mp = alter h x mp.
Proof. intros E H. apply alter_ext. intros s' Hs'. congruence. Qed.

Lemma alter_fix (g : Socket -> Socket) x (mp : gmap nat Socket) s :
  mp !! x = Some s -> g s = s -> mp = alter g x mp.
Proof. intros E H. symmetry. apply alter_id. intros s' Hs'. congruence. Qed.

Lemma alter_absent (g : Socket -> Socket) x (mp : gmap nat Socket) :
  mp !! x = None -> mp = alter g x mp.
Proof. intros E. symmetry. apply alter_id. intros s' Hs'. congruence. Qed.

Ltac sock_eq E :=
  cbn [sockets];
  rewrite ?alter_alter_eq;
  first [ eapply alter_agree; [exact E|]
        | eapply alter_fix; [exact E|]
        | by apply alter_absent
        | apply alter_ext; intros ? ?; congruence ].

Lemma checkClient_spec x w : noConnecting w ->
  exists w', checkClient x w = (Ok tt, w') /\ frame w w' /\
    sockets w' = alter on_sweep x (sockets w) /\
    console w' = (console w ++ sweep_log (sockets w !! x))%list /\ noConnecting w'.
Proof.
  intros HI.
  cut (exists w', checkClient x w = (Ok tt, w') /\ frame w w' /\
    sockets w' = alter on_sweep x (sockets w) /\
    console w' = (console w ++ sweep_log (sockets w !! x))%list).
  { intros (w' & ? & ? & ? & ?). exists w'. repeat (split; [done|]).
    eapply noConnecting_alter; eauto using on_sweep_readyState. }
  unfold checkClient, ws_terminate, ws_ping, sweep_log, on_sweep. run_m.
  rewrite ?lookup_alter_eq.
  destruct (sockets w !! x) as [s|] eqn:E; simpl.
  - pose proof (HI _ _ E) as Hs.
    destruct s as [rs al au lm lc lp se de]; simpl in *.
    destruct al as [[|]|]; simpl; rewrite ?lookup_alter_eq, ?E; simpl;
      destruct rs; try done; simpl;
      (eexists; split; [reflexivity|]; split; [done|]; split;
        [sock_eq E; reflexivity | cbn [console]; rewrite ?app_nil_r; reflexivity]).
  - rewrite ?lookup_alter_eq, ?E; simpl.
    eexists; split; [reflexivity|]; split; [done|]; split;
        [sock_eq E | cbn [console]; rewrite ?app_nil_r; reflexivity].
Qed.

Lemma sweep_effect w : noConnecting w ->
  exists w', pingInterval w = (Ok tt, w') /\ frame w w' /\
    (forall c, sockets w' !! c =
       if bool_decide (c ∈ clients w) then on_sweep <$> sockets w !! c
       else sockets w !! c) /\
    console w' = (console w ++
       flat_map (fun x => sweep_log (sockets w !! x)) (elements (clients w)))%list /\
    noConnecting w'.
Proof.
  intros HI. unfold pingInterval. run_m.
  destruct (forEach_sockets noConnecting (fun _ => on_sweep) (fun _ => sweep_log) _
              checkClient_spec (elements (clients w)) w)
    as (w' & E' & F & S & C & I'); [apply NoDup_elements|done|].
  exists w'. split; [done|]. split; [done|]. split; [|done].
  intros c. rewrite S. destruct (decide (c ∈ clients w)).
  - rewrite !bool_decide_eq_true_2; auto. by apply elem_of_elements.
  - rewrite !bool_decide_eq_false_2; auto. by rewrite elem_of_elements.
Qed.

Ltac close_case E :=
  eexists; eexists; split; [reflexivity|]; split; [done|]; split;
    [ first [ sock_eq E; reflexivity | sock_eq E ]
    | cbn [console]; rewrite <- ?app_assoc; first [reflexivity | symmetry; apply app_nil_r] ].

Lemma onMessage_spec rf x msg w :
  exists w' logs, onMessage rf x msg w = (Ok tt, w') /\
    frame w w' /\
    sockets w' = alter (on_message rf (now w) msg) x (sockets w) /\
    console w' = (console w ++ logs)%list.
Proof.
  unfold onMessage, parse, typeOf, on_message, classify, ws_send, pongText, authSuccessText.
  destruct (JSON_parse msg) as [data|]; run_m.
  2: { destruct (sockets w !! x) eqn:E; close_case E. }
  destruct (prop_type data) as [type|err]; run_m.
  2: { destruct (sockets w !! x) eqn:E; close_case E. }
  destruct (is_string type "PING"); run_m.
  - destruct (sockets w !! x) as [s|] eqn:E; simpl.
    + destruct s as [rs al au lm lc lp se de]; destruct rs; simpl;
        try destruct rf; run_m; close_case E.
    + close_case E.
  - destruct (is_string type "AUTH"); run_m; rewrite ?lookup_alter_eq.
    + destruct (sockets w !! x) as [s|] eqn:E; simpl; rewrite ?lookup_alter_eq, ?E; simpl.
      * destruct s as [rs al au lm lc lp se de]; destruct rs; simpl;
          try destruct rf; run_m; rewrite ?lookup_alter_eq, ?E; simpl; run_m; close_case E.
      * close_case E.
    + destruct (sockets w !! x) eqn:E; close_case E.
Qed.

Lemma accept_effect url af w :
  exists w', accept JSON_stringify toISOString url af w = (Ok tt, w') /\
    nextId w' = S (nextId w) /\ clients w' = clients w ∪ {[nextId w]} /\
    now w' = now w /\
    wsConnections w' = registry_after (Connect url af) w /\
    sockets w' = <[nextId w := connect_socket JSON_stringify toISOString url af (now w)]> (sockets w).
Proof.
  unfold accept, onConnection, connect_socket, registry_after, registry_add, ws_send,
    ws_close, members, connectedText.
  run_m. destruct (includes validChannels (channelOf url)); cbn [negb]; run_m.
  - destruct (wsConnections w !! channelOf url) as [set|] eqn:E; simpl.
    + rewrite ?E. run_m.
      rewrite lookup_insert_eq. simpl. destruct af; run_m;
        rewrite ?lookup_insert_eq; simpl; run_m;
        (eexists; split; [reflexivity|]; repeat (split; [reflexivity|]));
        cbn [sockets]; rewrite ?alter_alter_eq, alter_insert_eq; reflexivity.
    + rewrite ?lookup_insert_eq. run_m.
      rewrite lookup_insert_eq. simpl. destruct af; run_m;
        rewrite ?lookup_insert_eq; simpl; run_m;
        (eexists; split; [reflexivity|]; repeat (split; [reflexivity|]));
        cbn [sockets wsConnections]; rewrite ?insert_insert_eq, ?alter_alter_eq, ?alter_insert_eq;
        (split; [reflexivity|]); reflexivity.
  - rewrite lookup_insert_eq. simpl. run_m.
    eexists; split; [reflexivity|]; repeat (split; [reflexivity|]).
    cbn [sockets]. rewrite alter_insert_eq. reflexivity.
Qed.

Lemma onClose_registry x channel code reason w :
  exists w', onClose x channel code reason w = (Ok tt, w') /\
    nextId w' = nextId w /\ now w' = now w /\ clients w' = clients w /\
    sockets w' = sockets w /\
    wsConnections w' = unregister channel x (wsConnections w).
Proof.
  unfold onClose, registry_remove, unregister. run_m.
  destruct (wsConnections w !! channel) as [set|] eqn:E; run_m.
  - rewrite lookup_insert_eq. simpl.
    destruct (decide (size (set ∖ {[x]}) = 0%nat)) as [Hz|Hz].
    + rewrite !bool_decide_eq_true_2 by congruence. run_m.
      eexists; split; [reflexivity|]. repeat (split; [reflexivity|]).
      cbn. by rewrite delete_insert_eq.
    + rewrite !bool_decide_eq_false_2 by congruence. run_m.
      eexists; split; [reflexivity|]. repeat (split; [reflexivity|]). reflexivity.
  - rewrite E. simpl.
    eexists; split; [reflexivity|]. repeat (split; [reflexivity|]). reflexivity.
Qed.

Lemma emitClose_effect x code reason w :
  exists w', emitClose x code reason w = (Ok tt, w') /\
    nextId w' = nextId w /\ now w' = now w /\
    clients w' = clients_after (Close x code reason) w /\
    wsConnections w' = registry_after (Close x code reason) w /\
    sockets w' = alter (fun s => if negb (bool_decide (readyState s = CLOSED))
                                 then set_readyState CLOSED s else s) x (sockets w).
Proof.
  unfold emitClose, clients_after, registry_after. run_m.
  destruct (sockets w !! x) as [s|] eqn:E.
  - destruct (bool_decide (readyState s = CLOSED)) eqn:R.
    + exists w. repeat (split; [reflexivity|]). eapply alter_fix; [exact E|]. by rewrite R.
    + run_m. destruct (onCloseListener s) as [channel|] eqn:L.
      * match goal with |- context [onClose x channel code reason ?W] =>
          destruct (onClose_registry x channel code reason W)
            as (w' & E' & Hn & Ht & Hc & Hs & Hr) end.
        rewrite E'. exists w'. split; [reflexivity|]. rewrite Hn, Ht, Hc, Hs, Hr.
        repeat (split; [reflexivity|]). cbn.
        eapply alter_agree; [exact E|]. by rewrite R.
      * eexists; split; [reflexivity|]. repeat (split; [reflexivity|]). cbn.
        eapply alter_agree; [exact E|]. by rewrite R.
  - exists w. repeat (split; [reflexivity|]). by apply alter_absent.
Qed.

Lemma emitMessage_effect x msg rf w :
  exists w' logs, emitMessage JSON_parse JSON_stringify toISOString x msg rf w = (Ok tt, w') /\
    frame w w' /\
    sockets w' = alter (fun s => if receiving s && onMessageListener s
                                 then on_message rf (now w) msg s
                                 else s) x (sockets w) /\
    console w' = (console w ++ logs)%list.
Proof.
  unfold emitMessage. run_m.
  destruct (sockets w !! x) as [s|] eqn:E.
  - destruct (receiving s && onMessageListener s) eqn:R.
    + destruct (onMessage_spec rf x msg w) as (w' & logs & E' & F & S & C).
      exists w', logs. repeat (split; [done|]). split; [|done]. rewrite S.
      eapply alter_agree; [exact E|]. by rewrite R.
    + exists w, []. split; [done|]. split; [apply frame_refl|]. split.
      * eapply alter_fix; [exact E|]. by rewrite R.
      * by rewrite app_nil_r.
  - exists w, []. split; [done|]. split; [apply frame_refl|]. split.
    + by apply alter_absent.
    + by rewrite app_nil_r.
Qed.

Lemma emitPong_effect x w :
  exists w', emitPong x w = (Ok tt, w') /\ frame w w' /\
    sockets w' = alter (fun s => if receiving s && onPongListener s
                                 then set_isAlive true s else s) x (sockets w) /\
    console w' = console w.
Proof.
  unfold emitPong, onPong. run_m.
  destruct (sockets w !! x) as [s|] eqn:E.
  - destruct (receiving s && onPongListener s) eqn:R; run_m.
    + eexists. split; [done|]. split; [done|]. split; [|done]. cbn.
      eapply alter_agree; [exact E|]. by rewrite R.
    + exists w. split; [done|]. split; [apply frame_refl|]. split; [|done].
      eapply alter_fix; [exact E|]. by rewrite R.
  - exists w. split; [done|]. split; [apply frame_refl|]. split; [|done].
    by apply alter_absent.
Qed.

(** ** One step of the environment *)

Lemma step_effect e w : noConnecting w ->
  exec e w = (Ok tt, step e w) /\
  nextId (step e w) = nextId_after e w /\
  clients (step e w) = clients_after e w /\
  wsConnections (step e w) = registry_after e w /\
  (forall c, sockets (step e w) !! c =
     match created e w c with
     | Some s => Some s
     | None => socket_after e w c <$> sockets w !! c
     end).
Proof.
  intros HI. unfold step. destruct e as [url af|x msg rf|x|x code reason| |channel data failing|ms].
  - destruct (accept_effect url af w) as (w' & E & Hn & Hc & Ht & Hr & Hs).
    cbn [Server.exec]. rewrite E. cbn [snd]. repeat (split; [done|]).
    intros c. rewrite Hs. cbn [created]. case_bool_decide as Hc'.
    + subst c. by rewrite lookup_insert_eq.
    + rewrite lookup_insert_ne by done. cbn. by destruct (sockets w !! c).
  - destruct (emitMessage_effect x msg rf w) as (w' & logs & E & (Hn & Hc & Hr & Ht) & Hs & _).
    cbn [Server.exec]. rewrite E. cbn [snd]. repeat (split; [done|]).
    intros c. rewrite Hs. cbn [created Server.socket_after].
    destruct (decide (x = c)) as [->|Hne].
    + rewrite lookup_alter_eq. destruct (sockets w !! c) as [s|]; cbn; [|done].
      by rewrite (bool_decide_eq_true_2 (c = c)) by done.
    + rewrite lookup_alter_ne by done. destruct (sockets w !! c) as [s|]; cbn; [|done].
      by rewrite (bool_decide_eq_false_2 (x = c)) by done.
  - destruct (emitPong_effect x w) as (w' & E & (Hn & Hc & Hr & Ht) & Hs & _).
    cbn [Server.exec]. rewrite E. cbn [snd]. repeat (split; [done|]).
    intros c. rewrite Hs. cbn [created Server.socket_after].
    destruct (decide (x = c)) as [->|Hne].
    + rewrite lookup_alter_eq. destruct (sockets w !! c) as [s|]; cbn; [|done].
      by rewrite (bool_decide_eq_true_2 (c = c)) by done.
    + rewrite lookup_alter_ne by done. destruct (sockets w !! c) as [s|]; cbn; [|done].
      by rewrite (bool_decide_eq_false_2 (x = c)) by done.
  - destruct (emitClose_effect x code reason w) as (w' & E & Hn & Ht & Hc & Hr & Hs).
    cbn [Server.exec]. rewrite E. cbn [snd]. repeat (split; [done|]).
    intros c. rewrite Hs. cbn [created Server.socket_after].
    destruct (decide (x = c)) as [->|Hne].
    + rewrite lookup_alter_eq. destruct (sockets w !! c) as [s|]; cbn; [|done].
      by rewrite (bool_decide_eq_true_2 (c = c)) by done.
    + rewrite lookup_alter_ne by done. destruct (sockets w !! c) as [s|]; cbn; [|done].
      by rewrite (bool_decide_eq_false_2 (x = c)) by done.
  - destruct (sweep_effect w HI) as (w' & E & (Hn & Hc & Hr & Ht) & Hs & _).
    cbn [Server.exec]. rewrite E. cbn [snd]. repeat (split; [done|]).
    intros c. rewrite Hs. cbn [created Server.socket_after].
    destruct (sockets w !! c) as [s|]; cbn; [|by case_bool_decide].
    by case_bool_decide.
  - destruct (broadcast_effect failing channel data w) as (w' & E & (Hn & Hc & Hr & Ht) & Hs & _).
    cbn [Server.exec]. rewrite E. cbn [snd]. repeat (split; [done|]).
    intros c. rewrite Hs. cbn [created Server.socket_after].
    destruct (sockets w !! c) as [s|]; cbn; [|by case_bool_decide].
    by case_bool_decide.
  - cbn. repeat (split; [done|]). intros c. by destruct (sockets w !! c).
Qed.

(** ** What a step keeps of a socket *)

Ltac socket_cases s :=
  destruct s as [rs al au lm lc lp se de];
  cbn [Server.socket_after]; unfold on_message, on_sweep, on_broadcast, receiving;
  cbn [readyState isAlive onCloseListener onMessageListener onPongListener destroyed] in *;
  repeat match goal with
         | |- context [if ?b then _ else _] => destruct b eqn:?
         | |- context [match Server.classify ?p ?m with _ => _ end] =>
             destruct (Server.classify p m)
         | |- context [match ?rs with CONNECTING => _ | _ => _ end] => destruct rs
         end;
  simpl in *; try congruence.

Lemma socket_after_listener e w c s :
  onCloseListener (socket_after e w c s) = onCloseListener s.
Proof. destruct e; socket_cases s. Qed.

Lemma socket_after_connecting e w c s :
  readyState s <> CONNECTING -> readyState (socket_after e w c s) <> CONNECTING.
Proof. intros H. destruct e; socket_cases s. Qed.

Lemma socket_after_stays_closed e w c s :
  readyState s = CLOSED -> readyState (socket_after e w c s) = CLOSED.
Proof.
  destruct s as [rs al au lm lc lp se de]. cbn. intros ->.
  destruct e; cbn; unfold receiving, on_sweep, on_broadcast; cbn;
    rewrite ?(bool_decide_eq_true_2 (CLOSED = CLOSED)) by done;
    rewrite ?(bool_decide_eq_false_2 (CLOSED = OPEN)) by done;
    repeat match goal with
           | |- context [bool_decide ?P] => destruct (bool_decide P)
           end; cbn; try done.
Qed.

Lemma socket_after_closed e w c s :
  closes c e = false -> readyState s <> CLOSED ->
  readyState (socket_after e w c s) <> CLOSED.
Proof.
  intros Hc H. destruct e; socket_cases s.
  all: try (rewrite Hc in *; simpl in *; congruence).
Qed.

(** ** The invariant holds in every reachable state *)

Lemma Inv_noConnecting w : Inv w -> noConnecting w.
Proof. intros H. exact (inv_connected w H). Qed.

Lemma Inv_initial : Inv initial.
Proof.
  split; cbn; unfold members; cbn; intros *; rewrite ?lookup_empty; try done; set_solver.
Qed.

Lemma connect_socket_listener url af t channel :
  onCloseListener (connect_socket JSON_stringify toISOString url af t) = Some channel ->
  channel = channelOf url /\ includes validChannels (channelOf url) = true.
Proof.
  unfold connect_socket. destruct (includes _ _); [destruct af|]; cbn; intros; split; congruence.
Qed.

Lemma connect_socket_readyState url af t :
  readyState (connect_socket JSON_stringify toISOString url af t) <> CONNECTING /\
  readyState (connect_socket JSON_stringify toISOString url af t) <> CLOSED.
Proof. unfold connect_socket. destruct (includes _ _); [destruct af|]; cbn; done. Qed.

Lemma members_unregister channel x reg channel' c :
  c ∈ default ∅ (unregister channel x reg !! channel') ->
  c ∈ default ∅ (reg !! channel') /\ (channel' = channel -> c <> x).
Proof.
  unfold unregister. destruct (reg !! channel) as [set|] eqn:E.
  - case_bool_decide as Hz.
    + destruct (decide (channel' = channel)) as [->|Hne].
      * rewrite lookup_delete_eq. set_solver.
      * rewrite lookup_delete_ne by done. intros; split; [done|congruence].
    + destruct (decide (channel' = channel)) as [->|Hne].
      * rewrite lookup_insert_eq, E. cbn. set_solver.
      * rewrite lookup_insert_ne by done. intros; split; [done|congruence].
  - intros H. split; [done|]. intros ->. rewrite E in H. set_solver.
Qed.

(** Membership after a step: only the connection being accepted joins. *)
Lemma members_step e w channel c : noConnecting w ->
  c ∈ members (step e w) channel ->
  c ∈ members w channel \/
  (c = nextId w /\ exists url af, e = Connect url af /\ channel = channelOf url /\
     includes validChannels (channelOf url) = true).
Proof.
  intros HI. destruct (step_effect e w HI) as (_ & _ & _ & Hr & _).
  unfold members. rewrite Hr. destruct e; cbn [Server.registry_after]; auto.
  - destruct (includes validChannels (channelOf url)) eqn:V; auto.
    destruct (decide (channel = channelOf url)) as [->|Hne].
    + rewrite lookup_insert_eq. cbn. unfold members. intros [H| ->%elem_of_singleton]%elem_of_union; eauto 10.
    + rewrite lookup_insert_ne by done. auto.
  - destruct (sockets w !! ws) as [s|]; auto. case_bool_decide; auto.
    destruct (onCloseListener s); auto. intros Hm%members_unregister. tauto.
Qed.

Lemma Inv_step e w : Inv w -> Inv (step e w).
Proof.
  intros H. pose proof (Inv_noConnecting w H) as HI.
  destruct (step_effect e w HI) as (_ & Hn & Hc & Hr & Hs).
  assert (forall c s', sockets (step e w) !! c = Some s' ->
    (created e w c = Some s' /\ c = nextId w /\ nextId_after e w = S (nextId w)) \/
    (exists s, sockets w !! c = Some s /\ s' = socket_after e w c s /\ (c < nextId w)%nat))
    as Hsock.
  { intros c s'. rewrite Hs. destruct (created e w c) as [s0|] eqn:Ec.
    - intros [= <-]. left. split; [done|]. destruct e; cbn in Ec; try done.
      case_bool_decide; done.
    - destruct (sockets w !! c) as [s|] eqn:E; cbn; [|done]. intros [= <-]. right.
      exists s. repeat split; auto. eapply inv_bounded; eauto. }
  assert (nextId w <= nextId_after e w)%nat as Hmono by (destruct e; cbn; lia).
  split.
  - intros c s' [(_ & -> & Hn')|(s & _ & _ & Hlt)]%Hsock; rewrite Hn; lia.
  - intros c s' [(Ec & _)|(s & E & -> & _)]%Hsock.
    + destruct e; cbn in Ec; try done. case_bool_decide; [|done].
      injection Ec as <-. apply connect_socket_readyState.
    + apply socket_after_connecting. eapply inv_connected; eauto.
  - intros channel set. rewrite Hr. destruct e; cbn [Server.registry_after];
      try apply (inv_nonempty w H).
    + destruct (includes _ _); [|apply (inv_nonempty w H)].
      destruct (decide (channel = channelOf url)) as [->|Hne].
      * rewrite lookup_insert_eq. intros [= <-]. set_solver.
      * rewrite lookup_insert_ne by done. apply (inv_nonempty w H).
    + destruct (sockets w !! ws) as [s|]; [|apply (inv_nonempty w H)].
      case_bool_decide; [apply (inv_nonempty w H)|].
      destruct (onCloseListener s) as [ch|]; [|apply (inv_nonempty w H)].
      unfold unregister. destruct (wsConnections w !! ch) as [set0|] eqn:E0;
        [|apply (inv_nonempty w H)].
      case_bool_decide as Hz.
      * destruct (decide (channel = ch)) as [->|Hne].
        -- by rewrite lookup_delete_eq.
        -- rewrite lookup_delete_ne by done. apply (inv_nonempty w H).
      * destruct (decide (channel = ch)) as [->|Hne].
        -- rewrite lookup_insert_eq. intros [= <-] Hemp. apply Hz. rewrite Hemp.
           apply size_empty.
        -- rewrite lookup_insert_ne by done. apply (inv_nonempty w H).
  - intros channel c Hm. destruct (members_step e w channel c HI Hm)
      as [Hold|(-> & url & af & -> & -> & V)].
    + destruct (inv_member w H channel c Hold) as (s & E & Hl).
      exists (socket_after e w c s). split.
      * rewrite Hs. assert (created e w c = None) as ->.
        { destruct e; cbn; try done. rewrite bool_decide_eq_false_2; [done|].
          pose proof (inv_bounded w H c s E). lia. }
        by rewrite E.
      * intros channel'. rewrite socket_after_listener. apply Hl.
    + exists (connect_socket JSON_stringify toISOString url af (now w)). split.
      * rewrite Hs. cbn. by rewrite bool_decide_eq_true_2.
      * intros channel' Hl'. apply connect_socket_listener in Hl'. tauto.
  - intros c. rewrite Hc. intros Hin.
    destruct (decide (created e w c = None)) as [Ec|Ec].
    + assert (c ∈ clients w /\ closes c e = false) as [Hin' Hcl].
      { destruct e; cbn in *; auto.
        - apply elem_of_union in Hin as [?| ->%elem_of_singleton]; [done|].
          by rewrite bool_decide_eq_true_2 in Ec.
        - destruct (sockets w !! ws) as [s|] eqn:E.
          + case_bool_decide as Hcd.
            * split; [done|]. apply bool_decide_eq_false_2. intros ->.
              destruct (inv_client w H c Hin) as (s0 & E0 & N0). congruence.
            * split; [set_solver|]. apply bool_decide_eq_false_2. set_solver.
          + split; [done|]. apply bool_decide_eq_false_2. intros ->.
            destruct (inv_client w H c Hin) as (s0 & E0 & N0). congruence. }
      destruct (inv_client w H c Hin') as (s & E & N).
      exists (socket_after e w c s). split.
      * rewrite Hs, Ec, E. done.
      * by apply socket_after_closed.
    + destruct (created e w c) as [s0|] eqn:Ec'; [|done].
      exists s0. split; [by rewrite Hs, Ec'|].
      destruct e; cbn in Ec'; try done. case_bool_decide; [|done].
      injection Ec' as <-. apply connect_socket_readyState.
  - intros c s' channel Hs' Hl Hopen.
    apply Hsock in Hs' as [(Ec & -> & _)|(s & E & -> & Hlt)].
    + destruct e; cbn in Ec; try done. rewrite bool_decide_eq_true_2 in Ec by done.
      injection Ec as <-. apply connect_socket_listener in Hl as [-> V].
      unfold members. rewrite Hr. cbn [Server.registry_after].
      rewrite V, lookup_insert_eq. cbn. set_solver.
    + rewrite socket_after_listener in Hl.
      assert (readyState s <> CLOSED) as Hopen'.
      { intros Hcl. apply Hopen. by apply socket_after_stays_closed. }
      pose proof (inv_registered w H c s channel E Hl Hopen') as Hin.
      unfold members in *. rewrite Hr. destruct e; cbn [Server.registry_after]; try done.
      * destruct (includes _ _); [|done].
        destruct (decide (channel = channelOf url)) as [->|Hne].
        -- rewrite lookup_insert_eq. cbn. unfold members. set_solver.
        -- by rewrite lookup_insert_ne.
      * destruct (sockets w !! ws) as [s0|] eqn:E0; [|done].
        case_bool_decide as Hcd; [done|].
        destruct (decide (ws = c)) as [->|Hne].
        { exfalso. apply Hopen. cbn. rewrite bool_decide_eq_true_2 by done.
          assert (s0 = s) as -> by congruence.
          rewrite bool_decide_eq_false_2 by done. done. }
        destruct (onCloseListener s0) as [ch|]; [|done].
        unfold unregister. destruct (wsConnections w !! ch) as [set0|] eqn:E1; [|done].
        destruct (decide (channel = ch)) as [->|Hne'].
        -- rewrite E1 in Hin. cbn in Hin.
           rewrite bool_decide_eq_false_2.
           ++ rewrite lookup_insert_eq. cbn. set_solver.
           ++ intros Hz. apply size_empty_inv in Hz. set_solver.
        -- case_bool_decide; [by rewrite lookup_delete_ne|by rewrite lookup_insert_ne].
Qed.

Lemma Inv_run es : forall w, Inv w -> Inv (run es w).
Proof.
  induction es as [|e es IH]; intros w H; cbn; [done|]. apply IH. by apply Inv_step.
Qed.

Lemma reachable_Inv w : reachable w -> Inv w.
Proof. intros [es ->]. apply Inv_run, Inv_initial. Qed.

(** ** Broadcast *)

(** C1.  One call of [broadcastToChannel] hands the serialized event
    exactly once to every member of the channel that is open (and whose
    send does not fail), leaves every socket that is not a member of the
    channel, and every socket that is not open, as it was, does not
    touch the registry, and does nothing at all when the channel has no
    entry. *)
Theorem broadcast_delivers failing channel data w :
  let w' := snd (broadcastToChannel failing channel data w) in
  (forall c, c ∈ members w channel -> isOpen w c -> c ∉ failing ->
     outbox w' c = (outbox w c ++ [Text (JSON_stringify data)])%list) /\
  (forall c, c ∉ members w channel -> sockets w' !! c = sockets w !! c) /\
  (forall c, ~ isOpen w c -> sockets w' !! c = sockets w !! c) /\
  wsConnections w' = wsConnections w /\ clients w' = clients w /\
  (wsConnections w !! channel = None ->
     broadcastToChannel failing channel data w = (Ok tt, w)).
Proof.
  destruct (broadcast_effect failing channel data w) as (w' & E & (Hn & Hc & Hr & Ht) & Hs & Hl).
  rewrite E. cbn [snd]. repeat split; auto.
  - intros c Hm Ho Hf. unfold outbox. rewrite Hs, bool_decide_eq_true_2 by done.
    unfold isOpen in Ho. destruct (sockets w !! c) as [s|]; [|done]. cbn in *.
    injection Ho as Ho. unfold on_broadcast.
    rewrite Ho, (bool_decide_eq_false_2 (c ∈ failing)) by done. done.
  - intros c Hm. by rewrite Hs, bool_decide_eq_false_2.
  - intros c Ho. rewrite Hs. case_bool_decide; [|done].
    unfold isOpen in Ho. destruct (sockets w !! c) as [s|]; [|done]. cbn in *.
    unfold on_broadcast. rewrite bool_decide_eq_false_2; [done|]. congruence.
  - intros Hnone. revert E. unfold Server.broadcastToChannel. run_m. rewrite Hnone.
    by intros [= <-].
Qed.

Lemma broadcast_log_count failing w (l : list nat) :
  flat_map (fun x => broadcast_log failing x (sockets w !! x)) l =
  replicate (length (filter (fun c => isOpen w c /\ c ∈ failing) l)) sendError.
Proof.
  induction l as [|x l IH]; [done|]. cbn [flat_map]. rewrite IH, filter_cons.
  assert (broadcast_log failing x (sockets w !! x) =
          if decide (isOpen w x /\ x ∈ failing) then [sendError] else []) as ->.
  { destruct (decide (isOpen w x /\ x ∈ failing)) as [[Ho Hf]|Hn].
    - unfold isOpen in Ho. unfold broadcast_log.
      destruct (sockets w !! x) as [s|]; [|done]. injection Ho as Ho.
      by rewrite !bool_decide_eq_true_2.
    - unfold broadcast_log. destruct (sockets w !! x) as [s|] eqn:E; [|done].
      destruct (decide (readyState s = OPEN)) as [R|R].
      + rewrite (bool_decide_eq_true_2 _ R).
        rewrite (bool_decide_eq_false_2 (x ∈ failing)); [done|].
        intros Hf. apply Hn. split; [|done]. unfold isOpen. by rewrite E, <- R.
      + by rewrite (bool_decide_eq_false_2 _ R). }
  by destruct (decide _).
Qed.

(** C6.  [broadcastToChannel] always returns: a failing [send] is
    caught inside the call and logged, one line per failing open member,
    and every other open member of the channel still gets the event. *)
Theorem broadcast_never_throws failing channel data w :
  let r := broadcastToChannel failing channel data w in
  fst r = Ok tt /\
  (forall c, c ∈ members w channel -> isOpen w c -> c ∉ failing ->
     outbox (snd r) c = (outbox w c ++ [Text (JSON_stringify data)])%list) /\
  console (snd r) =
    (console w ++
     replicate (length (filter (fun c => isOpen w c /\ c ∈ failing)
                               (elements (members w channel)))) sendError)%list.
Proof.
  destruct (broadcast_effect failing channel data w) as (w' & E & (Hn & Hc & Hr & Ht) & Hs & Hl).
  cbn zeta. rewrite E. cbn [fst snd]. split; [done|]. split.
  - intros c Hm Ho Hf. unfold outbox. rewrite Hs, bool_decide_eq_true_2 by done.
    unfold isOpen in Ho. destruct (sockets w !! c) as [s|]; [|done]. cbn in *.
    injection Ho as Ho. unfold on_broadcast.
    rewrite Ho, (bool_decide_eq_false_2 (c ∈ failing)) by done. done.
  - by rewrite Hl, broadcast_log_count.
Qed.

(** ** Channel validation *)

Lemma includes_elem_of (l : list string) x : includes l x = true <-> x ∈ l.
Proof.
  unfold includes. rewrite existsb_exists. split.
  - intros (y & Hy & ->%String.eqb_eq). by apply list_elem_of_In.
  - intros H. exists x. split; [by apply list_elem_of_In|apply String.eqb_refl].
Qed.

Lemma includes_not_elem_of (l : list string) x : includes l x = false <-> x ∉ l.
Proof.
  rewrite <- includes_elem_of. destruct (includes l x); split; congruence.
Qed.

(** A socket that is not registered and already exists stays out of the
    registry whatever happens next. *)
Lemma never_registered es : forall w c,
  Inv w -> (c < nextId w)%nat -> (forall channel, c ∉ members w channel) ->
  forall channel, c ∉ members (run es w) channel.
Proof.
  induction es as [|e es IH]; intros w c H Hlt Hout channel; cbn; [apply Hout|].
  apply IH.
  - by apply Inv_step.
  - destruct (step_effect e w (Inv_noConnecting w H)) as (_ & -> & _). destruct e; cbn; lia.
  - intros channel' [Hin|(-> & _)]%members_step; [by apply (Hout channel')|lia|].
    by apply Inv_noConnecting.
Qed.

Lemma reject_effect url af w : Inv w ->
  includes validChannels (channelOf url) = false ->
  exec (Connect url af) w = (Ok tt, step (Connect url af) w) /\
  sockets (step (Connect url af) w) !! nextId w = Some (rejected 1008 "Invalid channel") /\
  wsConnections (step (Connect url af) w) = wsConnections w /\
  forall es channel, nextId w ∉ members (run es (step (Connect url af) w)) channel.
Proof.
  intros H V. pose proof (Inv_noConnecting w H) as HI.
  destruct (step_effect (Connect url af) w HI) as (E & Hn & Hc & Hr & Hs).
  split; [done|]. split; [|split].
  - rewrite Hs. cbn [Server.created]. rewrite bool_decide_eq_true_2 by done.
    unfold connect_socket. by rewrite V.
  - rewrite Hr. cbn [Server.registry_after]. by rewrite V.
  - intros es. apply never_registered.
    + by apply Inv_step.
    + rewrite Hn. cbn. lia.
    + intros channel Hin. unfold members in Hin. rewrite Hr in Hin.
      cbn [Server.registry_after] in Hin. rewrite V in Hin. destruct (inv_member w H channel (nextId w) Hin) as (s & Es & _).
      pose proof (inv_bounded w H _ _ Es). lia.
Qed.

(** C2, as amended.  The whitelist is [DASHBOARD_STATS],
    [TENDER_REQUESTS], [WEBSITE_ANALYTICS]: a connection whose first
    path segment is not one of these is closed at once with code 1008
    and never enters the registry, and a connection whose first path
    segment is one of them is registered under it. *)
Theorem connect_checks_whitelist url af w :
  reachable w ->
  validChannels = ["DASHBOARD_STATS"; "TENDER_REQUESTS"; "WEBSITE_ANALYTICS"] /\
  (channelOf url ∉ validChannels ->
     exec (Connect url af) w = (Ok tt, step (Connect url af) w) /\
     sockets (step (Connect url af) w) !! nextId w =
       Some (rejected 1008 "Invalid channel") /\
     wsConnections (step (Connect url af) w) = wsConnections w /\
     forall es channel, nextId w ∉ members (run es (step (Connect url af) w)) channel) /\
  (channelOf url ∈ validChannels ->
     nextId w ∈ members (step (Connect url af) w) (channelOf url)).
Proof.
  intros Hr. pose proof (reachable_Inv w Hr) as H.
  split; [done|]. split.
  - intros V%includes_not_elem_of. by apply reject_effect.
  - intros V%includes_elem_of.
    destruct (step_effect (Connect url af) w (Inv_noConnecting w H)) as (_ & _ & _ & Hreg & _).
    unfold members at 1. rewrite Hreg. cbn [Server.registry_after].
    rewrite V, lookup_insert_eq. cbn. set_solver.
Qed.

(** C9.  A request path without a non-empty first segment is given the
    channel [default], which is not in the whitelist: the connection is
    closed with code 1008 and reason [Invalid channel] and never enters
    the registry. *)
Theorem missing_segment_rejected url af w :
  reachable w ->
  urlParts url !! 1%nat = None \/ urlParts url !! 1%nat = Some "" ->
  channelOf url = "default" /\ ("default" ∉ validChannels) /\
  exec (Connect url af) w = (Ok tt, step (Connect url af) w) /\
  sockets (step (Connect url af) w) !! nextId w = Some (rejected 1008 "Invalid channel") /\
  wsConnections (step (Connect url af) w) = wsConnections w /\
  forall es channel, nextId w ∉ members (run es (step (Connect url af) w)) channel.
Proof.
  intros Hr Hseg. pose proof (reachable_Inv w Hr) as H.
  assert (channelOf url = "default") as Hd.
  { unfold channelOf. destruct Hseg as [-> | ->]; done. }
  split; [done|]. split.
  - apply includes_not_elem_of. reflexivity.
  - apply reject_effect; [done|]. rewrite Hd. reflexivity.
Qed.

(** ** Heartbeat *)

Lemma socket_after_flag_false e w c s :
  signOfLife c e = false -> isAlive s = Some false ->
  isAlive (socket_after e w c s) = Some false.
Proof.
  intros Hq Ha. destruct e; cbn [Server.signOfLife] in Hq;
    destruct s as [rs al au lm lc lp se de];
    cbn [Server.socket_after]; unfold on_message, on_sweep, on_broadcast, receiving;
    cbn [readyState isAlive onCloseListener onMessageListener onPongListener destroyed] in *;
    subst al.
  - done.
  - destruct (bool_decide (ws = c)); cbn in *; [|done].
    destruct (Server.classify JSON_parse message); try done;
      repeat match goal with
             | |- context [if ?b then _ else _] => destruct b
             | |- context [match ?r with CONNECTING => _ | _ => _ end] => destruct r
             end; done.
  - rewrite Hq. done.
  - repeat match goal with |- context [if ?b then _ else _] => destruct b end; done.
  - rewrite (bool_decide_eq_true_2 (Some false = Some false)) by done.
    repeat match goal with |- context [if ?b then _ else _] => destruct b end; done.
  - repeat match goal with |- context [if ?b then _ else _] => destruct b end; done.
  - done.
Qed.

Lemma socket_after_flag_true e w c s :
  signOfLife c e = false -> isAlive (socket_after e w c s) = Some true ->
  isAlive s = Some true.
Proof.
  intros Hq. destruct e; cbn [Server.signOfLife] in Hq;
    destruct s as [rs al au lm lc lp se de];
    cbn [Server.socket_after]; unfold on_message, on_sweep, on_broadcast, receiving;
    cbn [readyState isAlive onCloseListener onMessageListener onPongListener destroyed] in *.
  - done.
  - destruct (bool_decide (ws = c)); cbn in *; [|done].
    destruct (Server.classify JSON_parse message); try done;
      repeat match goal with
             | |- context [if ?b then _ else _] => destruct b
             | |- context [match ?r with CONNECTING => _ | _ => _ end] => destruct r
             end; done.
  - rewrite Hq. done.
  - repeat match goal with |- context [if ?b then _ else _] => destruct b end; done.
  - repeat match goal with |- context [if ?b then _ else _] => destruct b end; done.
  - repeat match goal with |- context [if ?b then _ else _] => destruct b end; done.
  - done.
Qed.

Lemma step_existing e w c s : Inv w -> sockets w !! c = Some s ->
  sockets (step e w) !! c = Some (socket_after e w c s).
Proof.
  intros H E. destruct (step_effect e w (Inv_noConnecting w H)) as (_ & _ & _ & _ & Hs).
  rewrite Hs. assert (created e w c = None) as ->.
  { destruct e; cbn; try done. rewrite bool_decide_eq_false_2; [done|].
    pose proof (inv_bounded w H c s E). lia. }
  by rewrite E.
Qed.

Lemma step_keeps_client e w c : Inv w -> c ∈ clients w -> closes c e = false ->
  c ∈ clients (step e w).
Proof.
  intros H Hin Hc. destruct (step_effect e w (Inv_noConnecting w H)) as (_ & _ & -> & _).
  destruct e; cbn in *; try done.
  - set_solver.
  - apply bool_decide_eq_false in Hc.
    destruct (sockets w !! ws); [|done]. case_bool_decide; set_solver.
Qed.

Lemma run_silent es : forall w c s,
  Inv w -> c ∈ clients w -> sockets w !! c = Some s -> isAlive s = Some false ->
  Forall (silent c) es ->
  exists s', sockets (run es w) !! c = Some s' /\ isAlive s' = Some false /\
    onCloseListener s' = onCloseListener s /\ c ∈ clients (run es w) /\ Inv (run es w).
Proof.
  induction es as [|e es IH]; intros w c s H Hin E Ha Hall; cbn.
  - exists s. auto.
  - apply Forall_cons in Hall as [[Hq Hc] Hall].
    destruct (IH (step e w) c (socket_after e w c s)) as (s' & E' & Ha' & Hl' & Hin' & H'); auto.
    + by apply Inv_step.
    + by apply step_keeps_client.
    + by apply step_existing.
    + by apply socket_after_flag_false.
    + exists s'. rewrite socket_after_listener in Hl'. auto.
Qed.

Lemma sweep_flag w c s : Inv w -> c ∈ clients w -> sockets w !! c = Some s ->
  sockets (step Sweep w) !! c = Some (on_sweep s) /\ isAlive (on_sweep s) = Some false /\
  onCloseListener (on_sweep s) = onCloseListener s /\
  c ∈ clients (step Sweep w) /\ Inv (step Sweep w).
Proof.
  intros H Hin E. split; [|split; [|split; [|split]]].
  - rewrite (step_existing Sweep w c s H E). cbn. by rewrite bool_decide_eq_true_2.
  - unfold on_sweep. destruct (decide (isAlive s = Some false)) as [A|A].
    + rewrite (bool_decide_eq_true_2 _ A). by case_bool_decide.
    + rewrite (bool_decide_eq_false_2 _ A). by case_bool_decide.
  - unfold on_sweep. repeat case_bool_decide; done.
  - by apply step_keeps_client.
  - by apply Inv_step.
Qed.

(** After a sweep, a socket whose peer stays silent is destroyed by the
    next sweep. *)
Lemma silent_terminated w c s es :
  Inv w -> c ∈ clients w -> sockets w !! c = Some s -> Forall (silent c) es ->
  exists s2, sockets (step Sweep (run es (step Sweep w))) !! c = Some s2 /\
    destroyed s2 = true /\ readyState s2 = CLOSING /\ isAlive s2 = Some false /\
    onCloseListener s2 = onCloseListener s /\
    c ∈ clients (step Sweep (run es (step Sweep w))) /\
    Inv (step Sweep (run es (step Sweep w))).
Proof.
  intros H Hin E Hall.
  destruct (sweep_flag w c s H Hin E) as (E1 & A1 & L1 & Hin1 & H1).
  destruct (run_silent es _ c _ H1 Hin1 E1 A1 Hall) as (s' & E' & A' & L' & Hin' & H').
  destruct (sweep_flag _ c s' H' Hin' E') as (E2 & A2 & L2 & Hin2 & H2).
  destruct (inv_client _ H' c Hin') as (s0 & E0 & Hopen).
  assert (s0 = s') as -> by congruence.
  exists (on_sweep s'). split; [done|].
  assert (on_sweep s' = set_destroyed (set_readyState CLOSING s')) as Hs'.
  { unfold on_sweep. rewrite (bool_decide_eq_true_2 _ A').
    by rewrite (bool_decide_eq_false_2 _ Hopen). }
  split; [by rewrite Hs'|]. split; [by rewrite Hs'|]. split; [done|].
  split; [congruence|]. split; done.
Qed.

(** C7.  A sweep that finds the liveness flag of a connection not
    [false] sets it to [false] and pings; if no pong and no [PING]
    message of that connection arrives, the next sweep destroys it, and
    its close handler takes it out of the member set of its channel,
    deleting the entry when no member is left.  Only a pong or a [PING]
    message turns the flag back to [true], and a pong does. *)
Theorem heartbeat_terminates_silent w c s channel es code reason :
  reachable w -> c ∈ clients w -> sockets w !! c = Some s ->
  onCloseListener s = Some channel -> Forall (silent c) es ->
  let w1 := step Sweep w in
  let w2 := step Sweep (run es w1) in
  let w3 := step (Close c code reason) w2 in
  (isAlive s <> Some false ->
     exists s1, sockets w1 !! c = Some s1 /\ isAlive s1 = Some false /\
       destroyed s1 = destroyed s /\ readyState s1 = readyState s /\
       (readyState s = OPEN -> sent s1 = (sent s ++ [PingFrame])%list)) /\
  (exists s2, sockets w2 !! c = Some s2 /\ destroyed s2 = true /\
     readyState s2 = CLOSING) /\
  c ∈ members w2 channel /\
  (forall channel', c ∉ members w3 channel') /\
  (c ∉ clients w3) /\
  wsConnections w3 !! channel =
    (if decide (members w2 channel ∖ {[c]} = ∅) then None
     else Some (members w2 channel ∖ {[c]})) /\
  (forall w0 e x s0 s0', reachable w0 -> sockets w0 !! x = Some s0 ->
     sockets (step e w0) !! x = Some s0' ->
     isAlive s0 <> Some true -> isAlive s0' = Some true -> signOfLife x e = true) /\
  (forall w0 x s0, reachable w0 -> sockets w0 !! x = Some s0 ->
     receiving s0 = true -> onPongListener s0 = true ->
     exists s0', sockets (step (Pong x) w0) !! x = Some s0' /\ isAlive s0' = Some true).
Proof.
  intros Hr Hin E Hl Hall w1 w2 w3. pose proof (reachable_Inv w Hr) as H.
  destruct (silent_terminated w c s es H Hin E Hall)
    as (s2 & E2 & D2 & R2 & A2 & L2 & Hin2 & H2).
  fold w1 in E2, Hin2, H2. fold w2 in E2, Hin2, H2.
  assert (c ∈ members w2 channel) as Hm2.
  { eapply inv_registered; eauto; congruence. }
  destruct (step_effect (Close c code reason) w2 (Inv_noConnecting w2 H2))
    as (_ & _ & Hc3 & Hr3 & _).
  fold w3 in Hc3, Hr3. cbn in Hc3, Hr3. rewrite E2 in Hc3, Hr3.
  rewrite bool_decide_eq_false_2 in Hc3, Hr3 by congruence.
  rewrite L2, Hl in Hr3.
  split; [|split; [|split; [|split; [|split; [|split; [|split]]]]]].
  - intros Ha. destruct (sweep_flag w c s H Hin E) as (E1 & A1 & _).
    exists (on_sweep s). split; [done|]. split; [done|].
    unfold on_sweep. rewrite (bool_decide_eq_false_2 _ Ha).
    case_bool_decide as Ho; cbn; repeat split; try done.
  - eauto.
  - done.
  - intros channel' Hin3. unfold members in Hin3. rewrite Hr3 in Hin3.
    apply members_unregister in Hin3 as [Hin3 Hne].
    destruct (inv_member w2 H2 channel' c Hin3) as (s0 & E0 & Hl0).
    assert (s0 = s2) as -> by congruence.
    apply Hne; [|done]. symmetry. apply Hl0. congruence.
  - rewrite Hc3. set_solver.
  - rewrite Hr3. unfold unregister, members.
    destruct (wsConnections w2 !! channel) as [set|] eqn:Es; cbn.
    + destruct (decide (set ∖ {[c]} = ∅)) as [Hz|Hz].
      * rewrite bool_decide_eq_true_2 by (rewrite Hz; apply size_empty).
        apply lookup_delete_eq.
      * rewrite bool_decide_eq_false_2; [apply lookup_insert_eq|].
        intros Hsz. apply Hz. by apply size_empty_inv in Hsz; apply leibniz_equiv.
    + rewrite Es. rewrite decide_True; [done|set_solver].
  - intros w0 e x s0 s0' Hr0 E0 E0' Hn Ht.
    rewrite (step_existing e w0 x s0 (reachable_Inv w0 Hr0) E0) in E0'.
    injection E0' as <-. destruct (signOfLife x e) eqn:Hq; [done|].
    exfalso. apply Hn. eapply socket_after_flag_true; eauto.
  - intros w0 x s0 Hr0 E0 Hrec Hp.
    rewrite (step_existing (Pong x) w0 x s0 (reachable_Inv w0 Hr0) E0).
    eexists. split; [done|]. cbn. rewrite bool_decide_eq_true_2 by done.
    by rewrite Hrec, Hp.
Qed.

(** ** Registry *)

(** C8.  In every reachable state a channel has an entry in the
    registry exactly when it has a member; registering creates or
    extends the entry, the close handler removes the connection and
    deletes the entry when nobody is left, and running the close handler
    a second time changes nothing in the registry. *)
Theorem registry_entry_iff_member :
  (forall w, reachable w -> forall channel,
     is_Some (wsConnections w !! channel) <-> exists c, c ∈ members w channel) /\
  (forall w url af, reachable w -> channelOf url ∈ validChannels ->
     wsConnections (step (Connect url af) w) !! channelOf url =
       Some (members w (channelOf url) ∪ {[nextId w]})) /\
  (forall w c channel code reason,
     let w' := snd (onClose c channel code reason w) in
     fst (onClose c channel code reason w) = Ok tt /\
     (c ∉ members w' channel) /\
     (forall c', c' <> c -> c' ∈ members w' channel <-> c' ∈ members w channel) /\
     (forall channel', channel' <> channel ->
        wsConnections w' !! channel' = wsConnections w !! channel') /\
     (wsConnections w' !! channel = None <-> members w channel ⊆ {[c]})) /\
  (forall w c channel code reason code' reason',
     wsConnections (snd (onClose c channel code' reason'
                           (snd (onClose c channel code reason w)))) =
     wsConnections (snd (onClose c channel code reason w))).
Proof.
  split; [|split; [|split]].
  - intros w Hr channel. pose proof (reachable_Inv w Hr) as H. unfold members. split.
    + intros [set Es]. rewrite Es. cbn.
      pose proof (inv_nonempty w H channel set Es) as Hne.
      apply set_choose_L in Hne. done.
    + intros [c Hc]. destruct (wsConnections w !! channel); [eauto|set_solver].
  - intros w url af Hr V%includes_elem_of. pose proof (reachable_Inv w Hr) as H.
    destruct (step_effect (Connect url af) w (Inv_noConnecting w H)) as (_ & _ & _ & -> & _).
    cbn [Server.registry_after]. by rewrite V, lookup_insert_eq.
  - intros w c channel code reason.
    destruct (onClose_registry c channel code reason w) as (w' & E & _ & _ & _ & _ & Hr).
    cbn zeta. rewrite E. cbn [fst snd]. split; [done|]. unfold members. rewrite Hr.
    unfold unregister. destruct (wsConnections w !! channel) as [set|] eqn:Es; cbn.
    + destruct (decide (set ∖ {[c]} = ∅)) as [Hz|Hz].
      * rewrite bool_decide_eq_true_2 by (rewrite Hz; apply size_empty).
        rewrite lookup_delete_eq. cbn.
        split; [set_solver|]. split; [set_solver|]. split.
        -- intros channel' Hne. by rewrite lookup_delete_ne.
        -- split; [intros _; by apply diff_singleton_empty|done].
      * rewrite bool_decide_eq_false_2.
        2:{ intros Hsz. apply Hz. by apply size_empty_inv in Hsz; apply leibniz_equiv. }
        rewrite lookup_insert_eq. cbn.
        split; [set_solver|]. split; [set_solver|]. split.
        -- intros channel' Hne. by rewrite lookup_insert_ne.
        -- split; [done|]. intros Hsub. exfalso. apply Hz. by apply diff_singleton_empty.
    + rewrite Es. cbn. split; [set_solver|]. split; [set_solver|]. split; [done|].
      split; [intros _; set_solver|done].
  - intros w c channel code reason code' reason'.
    destruct (onClose_registry c channel code reason w) as (w1 & E1 & _ & _ & _ & _ & Hr1).
    rewrite E1. cbn [snd].
    destruct (onClose_registry c channel code' reason' w1) as (w2 & E2 & _ & _ & _ & _ & Hr2).
    rewrite E2. cbn [snd]. rewrite Hr2, Hr1. unfold unregister.
    destruct (wsConnections w !! channel) as [set|] eqn:Es.
    + case_bool_decide as Hz.
      * by rewrite lookup_delete_eq.
      * rewrite lookup_insert_eq.
        assert (set ∖ {[c]} ∖ {[c]} = set ∖ {[c]}) as -> by set_solver.
        rewrite bool_decide_eq_false_2 by done. by rewrite insert_insert_eq.
    + by rewrite Es.
Qed.

(** ** Authentication *)

(** C10.  An [AUTH] message sets the authenticated flag of its
    connection and, on an open socket whose send works, adds the
    [AUTH_SUCCESS] reply to what the socket sent; liveness flag,
    ready state, listeners, registry and every other socket stay as they
    were.  A message sets the liveness flag only if it is a [PING], so a
    client that only authenticates is destroyed by the second sweep. *)
Theorem auth_sets_only_authenticated :
  (forall w c s message replyFails,
     sockets w !! c = Some s -> classify message = IsAuth ->
     let r := onMessage replyFails c message w in
     fst r = Ok tt /\ frame w (snd r) /\
     (forall c', c' <> c -> sockets (snd r) !! c' = sockets w !! c') /\
     exists s', sockets (snd r) !! c = Some s' /\
       isAuthenticated s' = Some true /\
       isAlive s' = isAlive s /\ readyState s' = readyState s /\
       onMessageListener s' = onMessageListener s /\
       onCloseListener s' = onCloseListener s /\
       onPongListener s' = onPongListener s /\
       destroyed s' = destroyed s /\
       sent s' = if bool_decide (readyState s = OPEN) && negb replyFails
                 then (sent s ++ [Text (authSuccessText (now w))])%list
                 else sent s) /\
  (forall w c s s' message replyFails,
     sockets w !! c = Some s ->
     sockets (snd (onMessage replyFails c message w)) !! c = Some s' ->
     isAlive s <> Some true -> isAlive s' = Some true ->
     classify message = IsPing) /\
  (forall w c s es,
     reachable w -> c ∈ clients w -> sockets w !! c = Some s ->
     Forall (fun e => exists message replyFails,
               e = Message c message replyFails /\ classify message = IsAuth) es ->
     exists s2, sockets (step Sweep (run es (step Sweep w))) !! c = Some s2 /\
       destroyed s2 = true /\ readyState s2 = CLOSING).
Proof.
  split; [|split].
  - intros w c s message rf E K.
    destruct (onMessage_spec rf c message w) as (w' & logs & E' & F & S & C).
    cbn zeta. rewrite E'. cbn [fst snd]. split; [done|]. split; [done|]. split.
    + intros c' Hne. rewrite S. by rewrite lookup_alter_ne.
    + exists (on_message rf (now w) message s). split.
      * by rewrite S, lookup_alter_eq, E.
      * unfold Server.on_message. rewrite K.
        destruct s as [rs al au lm lc lp se de]; destruct rs, rf; cbn; by repeat split.
  - intros w c s s' message rf E E' Hn Ht.
    destruct (onMessage_spec rf c message w) as (w' & logs & Ew & F & S & C).
    rewrite Ew in E'. cbn [snd] in E'. rewrite S, lookup_alter_eq, E in E'.
    injection E' as <-. unfold Server.on_message in Ht.
    destruct (classify message); try done.
    destruct (readyState s), rf; cbn in Ht; done.
  - intros w c s es Hr Hin E Hall.
    destruct (silent_terminated w c s es (reachable_Inv w Hr) Hin E)
      as (s2 & E2 & D2 & R2 & _); [|eauto].
    eapply Forall_impl; [exact Hall|]. intros e (message & rf & -> & K).
    split; cbn; [|done]. rewrite K. by rewrite andb_false_r.
Qed.

(** ** More about the registry *)

(** Every key of the registry is a whitelisted channel. *)
Lemma registry_keys_run es : forall w,
  Inv w ->
  (forall channel, is_Some (wsConnections w !! channel) -> channel ∈ validChannels) ->
  forall channel, is_Some (wsConnections (run es w) !! channel) -> channel ∈ validChannels.
Proof.
  induction es as [|e es IH]; intros w H Hk; cbn; [exact Hk|].
  apply IH; [by apply Inv_step|]. intros channel.
  destruct (step_effect e w (Inv_noConnecting w H)) as (_ & _ & _ & -> & _).
  destruct e; cbn [Server.registry_after]; try apply Hk.
  - destruct (includes validChannels (channelOf url)) eqn:V; [|apply Hk].
    destruct (decide (channel = channelOf url)) as [->|Hne].
    + intros _. by apply includes_elem_of.
    + rewrite lookup_insert_ne by done. apply Hk.
  - destruct (sockets w !! ws) as [s|]; [|apply Hk].
    case_bool_decide; [apply Hk|].
    destruct (onCloseListener s) as [ch|]; [|apply Hk].
    unfold unregister. destruct (wsConnections w !! ch) as [members|] eqn:E; [|apply Hk].
    case_bool_decide.
    + destruct (decide (channel = ch)) as [->|Hne].
      * rewrite lookup_delete_eq. by intros [? ?].
      * rewrite lookup_delete_ne by done. apply Hk.
    + destruct (decide (channel = ch)) as [->|Hne].
      * intros _. apply Hk. by rewrite E.
      * rewrite lookup_insert_ne by done. apply Hk.
Qed.

(** X1.  In every reachable state every key of the registry is one of
    the whitelisted names, so broadcasting under any other name, such as
    the [tender-requests] and [dashboard-stats] of the tender routes,
    returns with the world unchanged. *)
Theorem broadcast_outside_whitelist failing channel data w :
  reachable w -> (channel ∉ validChannels) ->
  wsConnections w !! channel = None /\
  broadcastToChannel failing channel data w = (Ok tt, w).
Proof.
  intros [es ->] Hout.
  assert (wsConnections (run es initial) !! channel = None) as Hnone.
  { destruct (wsConnections (run es initial) !! channel) as [members|] eqn:E; [|done].
    exfalso. apply Hout. apply (registry_keys_run es initial Inv_initial).
    - intros ch. cbn. rewrite lookup_empty. by intros [? ?].
    - by rewrite E. }
  split; [done|]. unfold Server.broadcastToChannel. run_m. by rewrite Hnone.
Qed.

(** X2.  In every reachable state every callback of the server returns
    normally, whatever the event: no exception reaches the event loop. *)
Theorem callbacks_return e w :
  reachable w -> exec e w = (Ok tt, step e w).
Proof.
  intros Hr. apply step_effect. apply Inv_noConnecting. by apply reachable_Inv.
Qed.

(** Membership of one socket in two channels. *)
Lemma one_channel_run es : forall w,
  Inv w ->
  (forall c channel channel', c ∈ members w channel -> c ∈ members w channel' ->
     channel = channel') ->
  forall c channel channel',
    c ∈ members (run es w) channel -> c ∈ members (run es w) channel' ->
    channel = channel'.
Proof.
  induction es as [|e es IH]; intros w H Hone; cbn; [exact Hone|].
  apply IH; [by apply Inv_step|]. intros c channel channel' H1 H2.
  pose proof (Inv_noConnecting w H) as HI.
  assert ((nextId w ∉ members w channel) /\ (nextId w ∉ members w channel')) as [Hf1 Hf2].
  { split; intros Hin; destruct (inv_member w H _ _ Hin) as (s & E & _);
      pose proof (inv_bounded w H _ _ E); lia. }
  pose proof (members_step e w channel c HI H1) as M1.
  pose proof (members_step e w channel' c HI H2) as M2.
  destruct M1 as [H1'|(Hc & url & af & He & -> & _)];
    destruct M2 as [H2'|(Hc' & url' & af' & He' & -> & _)].
  - eauto.
  - by subst c.
  - by subst c.
  - congruence.
Qed.

(** X3.  In every reachable state a socket is a member of at most one
    channel. *)
Theorem socket_in_one_channel w c channel channel' :
  reachable w -> c ∈ members w channel -> c ∈ members w channel' ->
  channel = channel'.
Proof.
  intros [es ->]. apply (one_channel_run es initial Inv_initial).
  intros c0 ch ch'. unfold members. cbn. rewrite lookup_empty. cbn. set_solver.
Qed.

(** ** More about inbound messages *)

(** X4.  A [PING] message on an open socket is answered with one [PONG]
    frame and marks the connection alive; when sending the reply fails,
    the failure is caught and the liveness flag is not set.  Nothing
    else changes. *)
Theorem ping_is_answered w c s message replyFails :
  sockets w !! c = Some s -> classify message = IsPing -> readyState s = OPEN ->
  let r := onMessage replyFails c message w in
  fst r = Ok tt /\ frame w (snd r) /\
  (forall c', c' <> c -> sockets (snd r) !! c' = sockets w !! c') /\
  sockets (snd r) !! c =
    Some (if replyFails then s
          else set_isAlive true (push_frame (Text (pongText (now w))) s)).
Proof.
  intros E K Ho. destruct (onMessage_spec replyFails c message w) as (w' & logs & E' & F & S & C).
  cbn zeta. rewrite E'. cbn [fst snd]. split; [done|]. split; [done|]. split.
  - intros c' Hne. rewrite S. by rewrite lookup_alter_ne.
  - rewrite S, lookup_alter_eq, E. cbn. unfold Server.on_message. by rewrite K, Ho.
Qed.

(** X5.  A message that does not parse, that parses to [null], or whose
    type is neither [PING] nor [AUTH] is dropped: the handler returns,
    and no socket, no membership and no client set changes. *)
Theorem other_messages_are_dropped w c message replyFails :
  classify message = Malformed \/ classify message = Ignored ->
  let r := onMessage replyFails c message w in
  fst r = Ok tt /\ frame w (snd r) /\ sockets (snd r) = sockets w.
Proof.
  intros K. destruct (onMessage_spec replyFails c message w) as (w' & logs & E' & F & S & C).
  cbn zeta. rewrite E'. cbn [fst snd]. split; [done|]. split; [done|].
  rewrite S. apply alter_id. intros s _. unfold Server.on_message.
  by destruct K as [-> | ->].
Qed.

(** ** More about registration *)

(** X6.  A connection to a whitelisted channel whose acknowledgement is
    sent ends up open, alive, with its three listeners installed, with
    the [CONNECTED] envelope naming the channel as the only frame sent,
    and as a member of that channel and of the client set. *)
Theorem registration_establishes url w :
  reachable w -> channelOf url ∈ validChannels ->
  let w' := step (Connect url false) w in
  sockets w' !! nextId w =
    Some (established (channelOf url)
            (JSON_stringify (JObj [("type", JStr "CONNECTED");
                                   ("channel", JStr (channelOf url));
                                   ("timestamp", JStr (toISOString (now w)))]))) /\
  (nextId w ∈ members w' (channelOf url)) /\
  (nextId w ∈ clients w').
Proof.
  intros Hr V%includes_elem_of. pose proof (reachable_Inv w Hr) as H.
  destruct (step_effect (Connect url false) w (Inv_noConnecting w H))
    as (_ & _ & Hc & Hreg & Hs).
  cbn zeta. split; [|split].
  - rewrite Hs. cbn [Server.created]. rewrite bool_decide_eq_true_2 by done.
    unfold connect_socket. by rewrite V.
  - unfold members at 1. rewrite Hreg. cbn [Server.registry_after].
    rewrite V, lookup_insert_eq. cbn. set_solver.
  - rewrite Hc. cbn. set_solver.
Qed.

(** A member without a close listener is never taken out of its set. *)
Lemma listenerless_member_stays es : forall w c s channel,
  Inv w -> sockets w !! c = Some s -> onCloseListener s = None ->
  c ∈ members w channel ->
  c ∈ members (run es w) channel.
Proof.
  induction es as [|e es IH]; intros w c s channel H E Hl Hin; cbn; [done|].
  apply (IH (step e w) c (socket_after e w c s)).
  - by apply Inv_step.
  - by apply step_existing.
  - by rewrite socket_after_listener.
  - destruct (step_effect e w (Inv_noConnecting w H)) as (_ & _ & _ & Hreg & _).
    unfold members in *. rewrite Hreg. destruct e; cbn [Server.registry_after]; try done.
    + destruct (includes validChannels (channelOf url)); [|done].
      destruct (decide (channel = channelOf url)) as [->|Hne].
      * rewrite lookup_insert_eq. cbn. unfold members. set_solver.
      * by rewrite lookup_insert_ne.
    + destruct (sockets w !! ws) as [s0|] eqn:E0; [|done].
      case_bool_decide; [done|].
      destruct (onCloseListener s0) as [ch|] eqn:L0; [|done].
      assert (ws <> c) as Hne by (intros ->; congruence).
      unfold unregister. destruct (wsConnections w !! ch) as [set0|] eqn:E1; [|done].
      destruct (decide (channel = ch)) as [->|Hne'].
      * rewrite E1 in Hin. cbn in Hin. rewrite bool_decide_eq_false_2.
        -- rewrite lookup_insert_eq. cbn. set_solver.
        -- intros Hz. apply size_empty_inv in Hz. set_solver.
      * case_bool_decide; [by rewrite lookup_delete_ne|by rewrite lookup_insert_ne].
Qed.

(** X7.  When sending the acknowledgement throws, the connection is
    closed with code 1011 and gets no listener, but it has already been
    added to its channel: it stays a member through every later event,
    its own close included. *)
Theorem failed_setup_stays_registered url w es :
  reachable w -> channelOf url ∈ validChannels ->
  let w' := step (Connect url true) w in
  sockets w' !! nextId w = Some (rejected 1011 "Internal Server Error") /\
  (nextId w ∈ members (run es w') (channelOf url)).
Proof.
  intros Hr V%includes_elem_of. pose proof (reachable_Inv w Hr) as H.
  destruct (step_effect (Connect url true) w (Inv_noConnecting w H))
    as (_ & _ & _ & Hreg & Hs).
  cbn zeta.
  assert (sockets (step (Connect url true) w) !! nextId w =
          Some (rejected 1011 "Internal Server Error")) as Es.
  { rewrite Hs. cbn [Server.created]. rewrite bool_decide_eq_true_2 by done.
    unfold connect_socket. by rewrite V. }
  split; [done|].
  eapply listenerless_member_stays; [by apply Inv_step|exact Es|done|].
  unfold members at 1. rewrite Hreg. cbn [Server.registry_after].
  rewrite V, lookup_insert_eq. cbn. set_solver.
Qed.

(** ** More about the heartbeat *)

(** X8.  A connection that answers every ping is never destroyed: after
    any number of rounds of a sweep followed by its pong it is still
    open with its flag set, and it was pinged once per round. *)
Theorem answering_pings_survives n : forall w c s,
  reachable w -> c ∈ clients w -> sockets w !! c = Some s ->
  readyState s = OPEN -> destroyed s = false -> onPongListener s = true ->
  isAlive s <> Some false ->
  exists s', sockets (run (mjoin (replicate n [Sweep; Pong c])) w) !! c = Some s' /\
    readyState s' = OPEN /\ destroyed s' = false /\ isAlive s' <> Some false /\
    sent s' = (sent s ++ replicate n PingFrame)%list /\
    c ∈ clients (run (mjoin (replicate n [Sweep; Pong c])) w).
Proof.
  induction n as [|n IH]; intros w c s Hr Hin E Ho Hd Hp Ha.
  - exists s. cbn. rewrite app_nil_r. by split_and!.
  - pose proof (reachable_Inv w Hr) as H.
    cbn [replicate mjoin list_join]. cbn [app Server.run fold_left].
    set (w1 := step Sweep w). set (w2 := step (Pong c) w1).
    assert (Inv w1) as H1 by (by apply Inv_step).
    assert (sockets w1 !! c = Some (push_frame PingFrame (set_isAlive false s))) as E1.
    { unfold w1. rewrite (step_existing Sweep w c s H E). cbn.
      rewrite bool_decide_eq_true_2 by done. unfold on_sweep.
      rewrite (bool_decide_eq_false_2 _ Ha). by rewrite (bool_decide_eq_true_2 _ Ho). }
    assert (sockets w2 !! c =
            Some (set_isAlive true (push_frame PingFrame (set_isAlive false s)))) as E2.
    { unfold w2. rewrite (step_existing (Pong c) w1 c _ H1 E1). cbn.
      rewrite bool_decide_eq_true_2 by done. unfold receiving. cbn.
      rewrite Ho, Hd, Hp. done. }
    assert (reachable w2) as Hr2.
    { destruct Hr as [es0 ->]. exists (es0 ++ [Sweep; Pong c])%list.
      unfold w2, w1, Server.run. by rewrite fold_left_app. }
    assert (c ∈ clients w2) as Hin2.
    { unfold w2. apply step_keeps_client; [done| |done].
      unfold w1. by apply step_keeps_client. }
    destruct (IH w2 c _ Hr2 Hin2 E2) as (s' & E' & Ho' & Hd' & Ha' & Hs' & Hin'); try done.
    exists s'. repeat (split; [done|]). split; [|done].
    rewrite Hs'. cbn. by rewrite <- app_assoc.
Qed.

(** ** More about the channel of a request *)

Lemma split_nonempty sep s : split sep s <> [].
Proof.
  destruct s as [|c s]; cbn [split]; [done|].
  destruct (Ascii.eqb c sep); [done|]. by destruct (split sep s).
Qed.

Lemma split_prefix sep (s t : string) :
  (forall c, In c (list_ascii_of_string s) -> c <> sep) ->
  split sep (s +:+ t) =
    (s +:+ List.hd "" (split sep t)) :: List.tl (split sep t).
Proof.
  induction s as [|c s IH]; intros H.
  - change ("" +:+ t) with t. pose proof (split_nonempty sep t) as Hn.
    destruct (split sep t); [by destruct Hn|reflexivity].
  - change (String c s +:+ t) with (String c (s +:+ t)). cbn [split].
    destruct (Ascii.eqb_spec c sep) as [->|Hne].
    + exfalso. apply (H sep); [by left|done].
    + rewrite IH; [done|]. intros c' Hc'. apply H. by right.
Qed.

Lemma split_at sep (t : string) :
  split sep (String sep t) = "" :: split sep t.
Proof. cbn [split]. by rewrite Ascii.eqb_refl. Qed.

(** X9.  The channel of a request is the first segment of its path: for
    a non-empty name without [/] and [?], a request for [/name], for
    [/name/...] and for [/name?...] is a request for channel [name],
    whatever follows. *)
Theorem channelOf_first_segment name tail :
  name <> "" ->
  (forall c, In c (list_ascii_of_string name) -> c <> "/"%char /\ c <> "?"%char) ->
  (tail = "" \/ exists t, tail = String "/" t \/ tail = String "?" t) ->
  channelOf (String "/" (name +:+ tail)) = name.
Proof.
  intros Hne Hc Ht.
  assert (exists rest, List.hd "" (split "?" (String "/" (name +:+ tail)))
                       = String "/" (name +:+ rest) /\
                       (rest = "" \/ exists t, rest = String "/" t)) as (rest & E & Hrest).
  { change (String "/" (name +:+ tail)) with (String "/" name +:+ tail).
    rewrite split_prefix.
    2:{ intros c [<-|Hin]; [done|]. by apply Hc. }
    cbn [List.hd]. destruct Ht as [->|(t & [->| ->])].
    - exists "". split; [done|by left].
    - exists (String "/" (List.hd "" (split "?" t))). split; [|right; by eexists].
      change (String "/" t) with ("/" +:+ t). by rewrite (split_prefix _ "/" t) by (by intros c [<-|[]]).
    - exists "". split; [|by left]. by rewrite split_at. }
  unfold channelOf, urlParts. rewrite E, split_at, split_prefix by (intros c Hin; by apply Hc).
  cbn [lookup list_lookup]. 
  assert (List.hd "" (split "/" rest) = "") as ->.
  { destruct Hrest as [->|(t & ->)]; [done|]. by rewrite split_at. }
  assert (name +:+ "" = name) as ->.
  { clear. induction name as [|c n IH]; [done|].
    change (String c n +:+ "") with (String c (n +:+ "")). by rewrite IH. }
  by apply String.eqb_neq in Hne as ->.
Qed.

End Facts.

(** ** The theorems at work on concrete runs *)

Ltac by_compute := apply (bool_decide_unpack _); vm_compute; exact I.

Lemma broadcast_delivers_witness :
  let w := Demo.threeClients in
  let w' := snd (broadcastToChannel Demo.stringify ∅ "DASHBOARD_STATS" Demo.newRequest w) in
  outbox w' 0 = (outbox w 0 ++ [Text "NEW_REQUEST"])%list /\
  outbox w' 2 = (outbox w 2 ++ [Text "NEW_REQUEST"])%list /\
  sockets w' !! 1%nat = sockets w !! 1%nat.
Proof.
  destruct (broadcast_delivers Demo.stringify ∅ "DASHBOARD_STATS" Demo.newRequest
              Demo.threeClients) as (Hopen & Hother & _).
  split; [|split].
  - apply (Hopen 0%nat); [by_compute|vm_compute; reflexivity|by_compute].
  - apply (Hopen 2%nat); [by_compute|vm_compute; reflexivity|by_compute].
  - apply (Hother 1%nat). by_compute.
Defined.

Lemma broadcast_never_throws_witness :
  let r := broadcastToChannel Demo.stringify {[2%nat]} "DASHBOARD_STATS" Demo.newRequest
             Demo.threeClients in
  fst r = Ok tt /\
  outbox (snd r) 0 = (outbox Demo.threeClients 0 ++ [Text "NEW_REQUEST"])%list /\
  console (snd r) = (console Demo.threeClients ++ [sendError])%list.
Proof.
  destruct (broadcast_never_throws Demo.stringify {[2%nat]} "DASHBOARD_STATS"
              Demo.newRequest Demo.threeClients) as (Hok & Hopen & Hlog).
  split; [exact Hok|]. split.
  - apply (Hopen 0%nat); [by_compute|vm_compute; reflexivity|by_compute].
  - exact Hlog.
Defined.

Lemma oneDashboard_reachable :
  reachable Demo.parse Demo.stringify Demo.isoString Demo.oneDashboard.
Proof. exists [Connect "/DASHBOARD_STATS" false]. reflexivity. Defined.

Lemma connect_checks_whitelist_witness :
  sockets (step Demo.parse Demo.stringify Demo.isoString
             (Connect "/ws/tender-requests?channel=TENDER_REQUESTS" false)
             Demo.oneDashboard) !! 1%nat
    = Some (rejected 1008 "Invalid channel") /\
  1%nat ∈ members (step Demo.parse Demo.stringify Demo.isoString
                     (Connect "/TENDER_REQUESTS?token=abc" true) Demo.oneDashboard)
            "TENDER_REQUESTS".
Proof.
  split.
  - destruct (connect_checks_whitelist Demo.parse Demo.stringify Demo.isoString
                "/ws/tender-requests?channel=TENDER_REQUESTS" false Demo.oneDashboard
                oneDashboard_reachable) as (_ & Hreject & _).
    apply Hreject. by_compute.
  - destruct (connect_checks_whitelist Demo.parse Demo.stringify Demo.isoString
                "/TENDER_REQUESTS?token=abc" true Demo.oneDashboard
                oneDashboard_reachable) as (_ & _ & Haccept).
    apply Haccept. by_compute.
Defined.

(** C2, as stated, fails: with the names of the specification as the
    whitelist, [/DASHBOARD_STATS] names no valid channel, yet the code
    registers the connection and leaves it open; and [/dashboard-stats],
    which the specification lists, is closed with code 1008. *)
Lemma spec_whitelist_counterexample :
  let accepted := step Demo.parse Demo.stringify Demo.isoString
                    (Connect "/DASHBOARD_STATS" false) initial in
  let refused := step Demo.parse Demo.stringify Demo.isoString
                   (Connect "/dashboard-stats" false) initial in
  (channelOf "/DASHBOARD_STATS" ∉ specChannels) /\
  wsConnections accepted !! "DASHBOARD_STATS" = Some {[0%nat]} /\
  isOpen accepted 0 /\
  (channelOf "/dashboard-stats" ∈ specChannels) /\
  sockets refused !! 0%nat = Some (rejected 1008 "Invalid channel") /\
  wsConnections refused = ∅.
Proof.
  cbn zeta. split; [by_compute|]. split; [vm_compute; reflexivity|].
  split; [vm_compute; reflexivity|]. split; [by_compute|].
  split; vm_compute; reflexivity.
Qed.

Lemma missing_segment_rejected_witness :
  channelOf "/" = "default" /\
  sockets (step Demo.parse Demo.stringify Demo.isoString (Connect "/" false)
             Demo.oneDashboard) !! 1%nat
    = Some (rejected 1008 "Invalid channel") /\
  wsConnections (step Demo.parse Demo.stringify Demo.isoString (Connect "/" false)
                   Demo.oneDashboard) = wsConnections Demo.oneDashboard.
Proof.
  destruct (missing_segment_rejected Demo.parse Demo.stringify Demo.isoString
              "/" false Demo.oneDashboard oneDashboard_reachable)
    as (Hd & _ & _ & Hs & Hr & _).
  - right. reflexivity.
  - split; [exact Hd|]. split; [exact Hs|exact Hr].
Defined.

Lemma heartbeat_terminates_silent_witness :
  let w2 := step Demo.parse Demo.stringify Demo.isoString Sweep
              (run Demo.parse Demo.stringify Demo.isoString Demo.silence
                 (step Demo.parse Demo.stringify Demo.isoString Sweep Demo.oneDashboard)) in
  let w3 := step Demo.parse Demo.stringify Demo.isoString (Close 0 1006 "") w2 in
  (exists s2, sockets w2 !! 0%nat = Some s2 /\ destroyed s2 = true /\
     readyState s2 = CLOSING) /\
  (0%nat ∈ members w2 "DASHBOARD_STATS") /\
  (forall channel', 0%nat ∉ members w3 channel') /\
  wsConnections w3 !! "DASHBOARD_STATS" = None.
Proof.
  destruct (heartbeat_terminates_silent Demo.parse Demo.stringify Demo.isoString
              Demo.oneDashboard 0%nat Demo.dashboardSocket "DASHBOARD_STATS"
              Demo.silence 1006 "" oneDashboard_reachable)
    as (_ & Hterm & Hmem & Hout & _ & Hentry & _).
  - by_compute.
  - vm_compute. reflexivity.
  - reflexivity.
  - repeat constructor.
  - cbn zeta. split; [exact Hterm|]. split; [exact Hmem|]. split; [exact Hout|].
    rewrite Hentry. vm_compute. reflexivity.
Defined.

Lemma registry_entry_iff_member_witness :
  exists c, c ∈ members Demo.threeClients "TENDER_REQUESTS".
Proof.
  destruct (registry_entry_iff_member Demo.parse Demo.stringify Demo.isoString)
    as (Hiff & _).
  apply (Hiff Demo.threeClients).
  - exists [Connect "/DASHBOARD_STATS" false; Connect "/TENDER_REQUESTS?token=abc" false;
            Connect "/DASHBOARD_STATS" false]. reflexivity.
  - vm_compute. eexists. reflexivity.
Defined.

Lemma auth_sets_only_authenticated_witness :
  let r := onMessage Demo.parse Demo.stringify Demo.isoString false 0 "AUTH"
             Demo.oneDashboard in
  fst r = Ok tt /\ frame Demo.oneDashboard (snd r) /\
  exists s', sockets (snd r) !! 0%nat = Some s' /\ isAuthenticated s' = Some true /\
    isAlive s' = Some true.
Proof.
  destruct (auth_sets_only_authenticated Demo.parse Demo.stringify Demo.isoString)
    as (Hauth & _).
  destruct (Hauth Demo.oneDashboard 0%nat Demo.dashboardSocket "AUTH" false)
    as (Hok & Hframe & _ & s' & Hs' & Ha & Hl & _).
  - vm_compute. reflexivity.
  - reflexivity.
  - cbn zeta. split; [exact Hok|]. split; [exact Hframe|].
    exists s'. split; [exact Hs'|]. split; [exact Ha|exact Hl].
Defined.

(** ** Further concrete runs *)

Lemma threeClients_reachable :
  reachable Demo.parse Demo.stringify Demo.isoString Demo.threeClients.
Proof.
  exists [Connect "/DASHBOARD_STATS" false; Connect "/TENDER_REQUESTS?token=abc" false;
          Connect "/DASHBOARD_STATS" false]. reflexivity.
Defined.

Lemma broadcast_outside_whitelist_witness :
  wsConnections Demo.threeClients !! "tender-requests" = None /\
  broadcastToChannel Demo.stringify ∅ "tender-requests" Demo.newRequest Demo.threeClients
    = (Ok tt, Demo.threeClients).
Proof.
  apply (broadcast_outside_whitelist Demo.parse Demo.stringify Demo.isoString
           ∅ "tender-requests" Demo.newRequest Demo.threeClients threeClients_reachable).
  by_compute.
Defined.

Lemma callbacks_return_witness :
  exec Demo.parse Demo.stringify Demo.isoString (Close 0 1000 "") Demo.oneDashboard
    = (Ok tt, step Demo.parse Demo.stringify Demo.isoString (Close 0 1000 "")
                Demo.oneDashboard).
Proof.
  apply (callbacks_return Demo.parse Demo.stringify Demo.isoString (Close 0 1000 "")
           Demo.oneDashboard oneDashboard_reachable).
Defined.

Lemma socket_in_one_channel_witness :
  (2%nat ∈ members Demo.threeClients "DASHBOARD_STATS") /\
  "DASHBOARD_STATS" = channelOf "/DASHBOARD_STATS?token=abc".
Proof.
  split; [by_compute|].
  apply (socket_in_one_channel Demo.parse Demo.stringify Demo.isoString
           Demo.threeClients 2%nat "DASHBOARD_STATS" (channelOf "/DASHBOARD_STATS?token=abc")
           threeClients_reachable); by_compute.
Defined.

Lemma ping_is_answered_witness :
  let r := onMessage Demo.parse Demo.stringify Demo.isoString false 0 "PING"
             Demo.oneDashboard in
  fst r = Ok tt /\
  sockets (snd r) !! 0%nat =
    Some (set_isAlive true
            (push_frame (Text (pongText Demo.stringify Demo.isoString 0))
               Demo.dashboardSocket)).
Proof.
  destruct (ping_is_answered Demo.parse Demo.stringify Demo.isoString
              Demo.oneDashboard 0%nat Demo.dashboardSocket "PING" false)
    as (Hok & _ & _ & Hs).
  - vm_compute. reflexivity.
  - reflexivity.
  - reflexivity.
  - cbn zeta. split; [exact Hok|exact Hs].
Defined.

Lemma other_messages_are_dropped_witness :
  let r := onMessage Demo.parse Demo.stringify Demo.isoString false 0 "NEW_REQUEST"
             Demo.oneDashboard in
  fst r = Ok tt /\ sockets (snd r) = sockets Demo.oneDashboard.
Proof.
  destruct (other_messages_are_dropped Demo.parse Demo.stringify Demo.isoString
              Demo.oneDashboard 0%nat "NEW_REQUEST" false) as (Hok & _ & Hs).
  - right. reflexivity.
  - cbn zeta. split; [exact Hok|exact Hs].
Defined.

Lemma registration_establishes_witness :
  let w' := step Demo.parse Demo.stringify Demo.isoString
              (Connect "/TENDER_REQUESTS?token=abc" false) Demo.oneDashboard in
  sockets w' !! 1%nat = Some (established "TENDER_REQUESTS" "CONNECTED") /\
  (1%nat ∈ members w' "TENDER_REQUESTS") /\ (1%nat ∈ clients w').
Proof.
  apply (registration_establishes Demo.parse Demo.stringify Demo.isoString
           "/TENDER_REQUESTS?token=abc" Demo.oneDashboard oneDashboard_reachable).
  by_compute.
Defined.

Lemma failed_setup_stays_registered_witness :
  let w' := step Demo.parse Demo.stringify Demo.isoString
              (Connect "/TENDER_REQUESTS" true) Demo.oneDashboard in
  sockets w' !! 1%nat = Some (rejected 1011 "Internal Server Error") /\
  (1%nat ∈ members (run Demo.parse Demo.stringify Demo.isoString
                      [Close 1 1011 "Internal Server Error"; Sweep; Sweep] w')
            "TENDER_REQUESTS").
Proof.
  apply (failed_setup_stays_registered Demo.parse Demo.stringify Demo.isoString
           "/TENDER_REQUESTS" Demo.oneDashboard
           [Close 1 1011 "Internal Server Error"; Sweep; Sweep] oneDashboard_reachable).
  by_compute.
Defined.

Lemma answering_pings_survives_witness :
  exists s', sockets (run Demo.parse Demo.stringify Demo.isoString
                        [Sweep; Pong 0; Sweep; Pong 0; Sweep; Pong 0] Demo.oneDashboard)
               !! 0%nat = Some s' /\
    readyState s' = OPEN /\ destroyed s' = false /\
    sent s' = [Text "CONNECTED"; PingFrame; PingFrame; PingFrame].
Proof.
  destruct (answering_pings_survives Demo.parse Demo.stringify Demo.isoString 3
              Demo.oneDashboard 0%nat Demo.dashboardSocket oneDashboard_reachable)
    as (s' & Hs & Ho & Hd & _ & Hsent & _).
  - by_compute.
  - vm_compute. reflexivity.
  - reflexivity.
  - reflexivity.
  - reflexivity.
  - discriminate.
  - exists s'. split; [exact Hs|]. split; [exact Ho|]. split; [exact Hd|exact Hsent].
Defined.

Lemma channelOf_first_segment_witness :
  channelOf "/DASHBOARD_STATS?token=abc" = "DASHBOARD_STATS".
Proof.
  apply (channelOf_first_segment "DASHBOARD_STATS" "?token=abc").
  - discriminate.
  - apply (proj1 (List.Forall_forall _ _)). by_compute.
  - right. exists "token=abc". right. reflexivity.
Defined.

End ServerFacts.

(** * Facts about the client *)

Module ClientFacts.
Import Client.

(** ** Rules for [keeps] *)

Lemma keeps_ret {A} P (a : A) : keeps P (ret a).
Proof. by intros w. Qed.
Lemma keeps_throw {A} P e : keeps P (@throw World A e).
Proof. by intros w. Qed.
Lemma keeps_gets {A} P (f : World -> A) : keeps P (gets f).
Proof. by intros w. Qed.
Lemma keeps_modify P f : (forall w, P w -> P (f w)) -> keeps P (modify f).
Proof. intros H w. apply H. Qed.
Lemma keeps_bind {A B} P (m : M World A) (k : A -> M World B) :
  keeps P m -> (forall a, keeps P (k a)) -> keeps P (bind m k).
Proof.
  intros Hm Hk w Hw. unfold bind. specialize (Hm w Hw).
  destruct (m w) as [[a|e] w']; cbn in *; [by apply Hk|done].
Qed.
Lemma keeps_try_catch {A} P (m : M World A) (k : string -> M World A) :
  keeps P m -> (forall e, keeps P (k e)) -> keeps P (try_catch m k).
Proof.
  intros Hm Hk w Hw. unfold try_catch. specialize (Hm w Hw).
  destruct (m w) as [[a|e] w']; cbn in *; [done|by apply Hk].
Qed.

Lemma CInv_alter (g : Socket -> Socket) ws w :
  (forall s, closure (g s) = closure s) -> CInv w -> CInv (with_sockets (alter g ws) w).
Proof.
  intros Hg H x s. cbn. destruct (decide (x = ws)) as [->|Hne].
  - rewrite lookup_alter_eq. destruct (sockets w !! ws) as [s0|] eqn:E; cbn; [|done].
    intros [= <-]. rewrite Hg. eauto.
  - rewrite lookup_alter_ne by done. apply H.
Qed.

Ltac keeps_step :=
  first
    [ apply keeps_ret | apply keeps_throw | apply keeps_gets
    | apply keeps_bind; [|intros ?]
    | apply keeps_try_catch; [|intros ?]
    | apply keeps_modify; intros ? ?;
      first [ assumption | apply CInv_alter; [intros ?; reflexivity|assumption] ]
    | match goal with
      | |- keeps _ (match ?x with _ => _ end) => destruct x eqn:?
      | |- keeps _ (if ?x then _ else _) => destruct x eqn:?
      end ].

Create HintDb keeps.
Ltac keeps_tac := repeat keeps_step.

Section ClientFacts.
Variable JSON_parse : string -> option Json.
Variable JSON_stringify : Json -> string.
Variable WS_BASE_URL : string.

#[local] Abbreviation step := (step JSON_parse JSON_stringify WS_BASE_URL).
#[local] Abbreviation run := (run JSON_parse JSON_stringify WS_BASE_URL).
#[local] Abbreviation reachable := (reachable JSON_parse JSON_stringify WS_BASE_URL).

Lemma keeps_update h f : keeps CInv (update h f).
Proof. unfold update. keeps_tac. Qed.
Lemma keeps_the_hook h : keeps CInv (the_hook h).
Proof. unfold the_hook. keeps_tac. Qed.
Lemma keeps_ws_send ws data : keeps CInv (ws_send ws data).
Proof. unfold ws_send. keeps_tac. Qed.
Lemma keeps_ws_close ws : keeps CInv (ws_close ws).
Proof. unfold ws_close. keeps_tac. Qed.
Lemma keeps_setTimer t : keeps CInv (setTimer t).
Proof. unfold setTimer. keeps_tac. Qed.
Lemma keeps_clearTimer t : keeps CInv (clearTimer t).
Proof. unfold clearTimer. keeps_tac. Qed.
Lemma keeps_console_error a b : keeps CInv (console_error a b).
Proof. unfold console_error. keeps_tac. Qed.

#[local] Hint Resolve keeps_update keeps_the_hook keeps_ws_send keeps_ws_close keeps_setTimer
  keeps_clearTimer keeps_console_error : keeps.

Ltac keeps_all := repeat first [ solve [auto with keeps] | keeps_step ].

Lemma keeps_connect h : keeps CInv (connect WS_BASE_URL h).
Proof.
  unfold connect. keeps_all.
  apply keeps_modify. intros w Hw x s. cbn.
  match goal with |- <[?k := _]> _ !! _ = _ -> _ => destruct (decide (x = k)) as [->|Hne] end.
  - rewrite lookup_insert_eq. intros [= <-]. cbn.
    match goal with H : negb ?b = false |- _ => by destruct b end.
  - rewrite lookup_insert_ne by done. apply Hw.
Qed.

Lemma keeps_onopen h p ws : keeps CInv (onopen JSON_stringify h p ws).
Proof. unfold onopen. keeps_all. Qed.
Lemma keeps_onmessage h p data : keeps CInv (onmessage JSON_parse h p data).
Proof. unfold onmessage. keeps_all. Qed.
Lemma keeps_onerror h p : keeps CInv (onerror h p).
Proof. unfold onerror. keeps_all. Qed.
Lemma keeps_onclose h p : keeps CInv (onclose h p).
Proof. unfold onclose. keeps_all. Qed.

#[local] Hint Resolve keeps_connect keeps_onopen keeps_onmessage keeps_onerror keeps_onclose : keeps.

Lemma keeps_exec e : keeps CInv (exec JSON_parse JSON_stringify WS_BASE_URL e).
Proof.
  destruct e; cbn [exec]; unfold mount, cleanup, effect, socketOpen, socketMessage,
    socketError, socketClose, timerFires, reconnectNow, pingTick, healthTick;
    keeps_all.
Qed.

Lemma CInv_run es : forall w, CInv w -> CInv (run es w).
Proof.
  induction es as [|e es IH]; intros w H; cbn; [done|]. apply IH. by apply keeps_exec.
Qed.

Lemma reachable_CInv w : reachable w -> CInv w.
Proof. intros [es ->]. apply CInv_run. intros ws s. cbn. by rewrite lookup_empty. Qed.

Ltac crun :=
  cbv [bind gets modify ret throw try_catch update the_hook console_error setTimer
       clearTimer with_hooks with_sockets with_active with_timers with_received
       with_console with_now];
  cbn [hooks sockets activeConnections timers nextHook nextSocket nextTimer now
       received console fst snd].

(** ** Reconnection *)

Lemma backoff_values :
  map backoff (seq 0 7) = [1000; 2000; 4000; 8000; 16000; 30000; 30000].
Proof. reflexivity. Qed.

Lemma backoff_capped n : (5 <= n)%nat -> backoff n = 30000.
Proof.
  intros H. unfold backoff. apply Z.min_r.
  assert (2 ^ 5 <= 2 ^ Z.of_nat n) by (apply Z.pow_le_mono_r; lia). lia.
Qed.

Lemma close_schedules w ws s hk :
  sockets w !! ws = Some s -> readyState s <> CLOSED ->
  hooks w !! owner s = Some hk -> isUnmountedRef hk = false ->
  enabled (closure s) = true ->
  (reconnectCountRef hk < reconnectAttempts (closure s))%nat ->
  timers (step (SocketClose ws) w) =
    <[nextTimer w := Reconnect (owner s) (backoff (reconnectCountRef hk))]> (timers w) /\
  nextTimer (step (SocketClose ws) w) = S (nextTimer w) /\
  exists hk', hooks (step (SocketClose ws) w) !! owner s = Some hk' /\
    reconnectTimeoutRef hk' = Some (nextTimer w) /\
    reconnectCountRef hk' = reconnectCountRef hk /\
    error hk' = error hk /\ isConnected hk' = false /\ wsRef hk' = None.
Proof.
  intros E Hc Eh Hu He Hlt. unfold Client.step. cbn [exec]. unfold socketClose, onclose. crun.
  rewrite E. rewrite (bool_decide_eq_false_2 _ Hc). crun. rewrite Eh, Hu. crun.
  rewrite !lookup_alter_eq, Eh. cbn. rewrite Hu, He. cbn.
  rewrite (bool_decide_eq_true_2 _ Hlt). crun.
  split; [done|]. split; [done|].
  rewrite !lookup_alter_eq, Eh. cbn. eexists. split; [done|]. done.
Qed.

Lemma close_exhausted w ws s hk :
  sockets w !! ws = Some s -> readyState s <> CLOSED ->
  hooks w !! owner s = Some hk -> isUnmountedRef hk = false ->
  (reconnectAttempts (closure s) <= reconnectCountRef hk)%nat ->
  timers (step (SocketClose ws) w) = timers w /\
  nextTimer (step (SocketClose ws) w) = nextTimer w /\
  exists hk', hooks (step (SocketClose ws) w) !! owner s = Some hk' /\
    error hk' = Some "Maximum reconnection attempts reached" /\
    reconnectCountRef hk' = reconnectCountRef hk /\
    reconnectTimeoutRef hk' = reconnectTimeoutRef hk.
Proof.
  intros E Hc Eh Hu Hge. unfold Client.step. cbn [exec]. unfold socketClose, onclose. crun.
  rewrite E. rewrite (bool_decide_eq_false_2 _ Hc). crun. rewrite Eh, Hu. crun.
  rewrite !lookup_alter_eq, Eh. cbn. rewrite Hu.
  rewrite (bool_decide_eq_false_2 (_ < _)%nat) by lia. rewrite andb_false_r.
  rewrite (bool_decide_eq_true_2 _ Hge). crun.
  split; [done|]. split; [done|].
  rewrite !lookup_alter_eq, Eh. cbn. eexists. split; [done|]. done.
Qed.

Lemma open_resets w ws s hk :
  sockets w !! ws = Some s -> readyState s = CONNECTING ->
  hooks w !! owner s = Some hk ->
  exists hk', hooks (step (SocketOpen ws) w) !! owner s = Some hk' /\
    reconnectCountRef hk' = 0%nat /\ error hk' = None /\ isConnected hk' = true.
Proof.
  intros E Hc Eh. unfold Client.step. cbn [exec]. unfold socketOpen, onopen, ws_send. crun.
  rewrite E. rewrite (bool_decide_eq_true_2 _ Hc). crun.
  destruct (truthy (token (closure s))); crun.
  - rewrite lookup_alter_eq, E. cbn. crun. rewrite !lookup_alter_eq, Eh. cbn. eauto.
  - rewrite !lookup_alter_eq, Eh. cbn. eauto.
Qed.

Lemma connect_counts h w : sameCounts w (snd (connect WS_BASE_URL h w)).
Proof.
  assert (forall (g : Hook -> Hook) (hs : gmap nat Hook), (forall k, reconnectCountRef (g k) = reconnectCountRef k) ->
    forall x hk, hs !! x = Some hk ->
    exists hk', alter g h hs !! x = Some hk' /\ reconnectCountRef hk' = reconnectCountRef hk) as Halt.
  { intros g hs Hg x hk E. destruct (decide (x = h)) as [->|Hne].
    - rewrite lookup_alter_eq, E. cbn. eauto.
    - rewrite lookup_alter_ne by done. eauto. }
  intros x hk Ex. unfold connect. crun.
  destruct (hooks w !! h) as [hk0|] eqn:Eh; crun.
  - destruct (negb (enabled (props hk0))); crun; [by eauto|].
    destruct (_ || _); crun; [by eauto|].
    destruct (activeConnections w !! _); crun.
    + rewrite alter_alter_eq. by apply Halt.
    + by apply Halt.
  - by apply Halt.
Qed.

Lemma timer_increments w id h d hk :
  timers w !! id = Some (Reconnect h d) -> hooks w !! h = Some hk ->
  exists hk', hooks (step (TimerFires id) w) !! h = Some hk' /\
    reconnectCountRef hk' = S (reconnectCountRef hk).
Proof.
  intros Et Eh. unfold Client.step. cbn [exec]. unfold timerFires, reconnectNow. crun.
  rewrite Et. crun. rewrite Eh. crun.
  match goal with |- context [connect WS_BASE_URL h ?W] =>
    destruct (connect_counts h W h (set_reconnectCount (S (reconnectCountRef hk)) hk))
      as (hk' & E' & Hc) end.
  { cbn. by rewrite lookup_alter_eq, Eh. }
  exists hk'. split; [|done].
  match goal with |- context [connect WS_BASE_URL h ?W] =>
    destruct (connect WS_BASE_URL h W) as [[[]|e] w'] end; done.
Qed.

(** C3.  When a socket closes while its hook instance is mounted and
    the attempt counter [n] is below the maximum (5 unless configured),
    a reconnect is scheduled after [min(1000 * 2^n, 30000)] ms, that is
    1000, 2000, 4000, 8000, 16000, 30000, 30000, ...; the timeout
    increments the counter when it fires, every successful open resets
    it to 0, and a close with the counter at the maximum sets the error
    and schedules nothing. *)
Theorem reconnect_backoff :
  (forall w ws s hk,
     reachable w -> sockets w !! ws = Some s -> readyState s <> CLOSED ->
     hooks w !! owner s = Some hk -> isUnmountedRef hk = false ->
     (reconnectCountRef hk < reconnectAttempts (closure s))%nat ->
     timers (step (SocketClose ws) w) =
       <[nextTimer w := Reconnect (owner s)
                          (Z.min (1000 * 2 ^ Z.of_nat (reconnectCountRef hk)) 30000)]>
         (timers w) /\
     exists hk', hooks (step (SocketClose ws) w) !! owner s = Some hk' /\
       reconnectTimeoutRef hk' = Some (nextTimer w) /\
       reconnectCountRef hk' = reconnectCountRef hk /\ error hk' = error hk) /\
  (map backoff (seq 0 7) = [1000; 2000; 4000; 8000; 16000; 30000; 30000] /\
   forall n, (5 <= n)%nat -> backoff n = 30000) /\
  (forall p, optReconnectAttempts p = None -> reconnectAttempts p = 5%nat) /\
  (forall w id h d hk,
     timers w !! id = Some (Reconnect h d) -> hooks w !! h = Some hk ->
     exists hk', hooks (step (TimerFires id) w) !! h = Some hk' /\
       reconnectCountRef hk' = S (reconnectCountRef hk)) /\
  (forall w ws s hk,
     sockets w !! ws = Some s -> readyState s = CONNECTING ->
     hooks w !! owner s = Some hk ->
     exists hk', hooks (step (SocketOpen ws) w) !! owner s = Some hk' /\
       reconnectCountRef hk' = 0%nat) /\
  (forall w ws s hk,
     sockets w !! ws = Some s -> readyState s <> CLOSED ->
     hooks w !! owner s = Some hk -> isUnmountedRef hk = false ->
     (reconnectAttempts (closure s) <= reconnectCountRef hk)%nat ->
     timers (step (SocketClose ws) w) = timers w /\
     exists hk', hooks (step (SocketClose ws) w) !! owner s = Some hk' /\
       error hk' = Some "Maximum reconnection attempts reached").
Proof.
  split; [|split; [|split; [|split; [|split]]]].
  - intros w ws s hk Hr E Hc Eh Hu Hlt.
    destruct (close_schedules w ws s hk E Hc Eh Hu (reachable_CInv w Hr ws s E) Hlt)
      as (Ht & _ & hk' & E' & H1 & H2 & H3 & _).
    split; [exact Ht|]. exists hk'. auto.
  - split; [apply backoff_values|apply backoff_capped].
  - intros p Hp. unfold reconnectAttempts. by rewrite Hp.
  - apply timer_increments.
  - intros w ws s hk E Hc Eh. destruct (open_resets w ws s hk E Hc Eh) as (hk' & ? & ? & _).
    eauto.
  - intros w ws s hk E Hc Eh Hu Hge.
    destruct (close_exhausted w ws s hk E Hc Eh Hu Hge) as (Ht & _ & hk' & ? & ? & _).
    eauto.
Qed.
(** ** Sharing a socket *)

(** A message on a socket calls the callback of the instance that
    created the socket, and of no other instance. *)
Lemma message_reaches_only_creator w ws data s h :
  sockets w !! ws = Some s -> owner s <> h ->
  calls (step (SocketMessage ws data) w) h = calls w h.
Proof.
  intros E Hne. unfold Client.step. cbn [exec]. unfold socketMessage, onmessage. crun.
  rewrite E. destruct (bool_decide (readyState s = OPEN)); [|done].
  destruct (JSON_parse data) as [v|]; crun; [|done].
  destruct (onMessage (closure s)); crun; [|done].
  unfold calls. cbn. rewrite filter_app, filter_cons. cbn.
  rewrite decide_False by done. by rewrite app_nil_r.
Qed.

(** The test of the cleanup holds for every socket that is in
    [activeConnections], under whatever key. *)
Lemma registered_inUse w key ws :
  activeConnections w !! key = Some ws -> inUse w ws = true.
Proof.
  intros E. unfold inUse. apply bool_decide_eq_true. apply list_elem_of_fmap.
  exists (key, ws). split; [done|]. by apply elem_of_map_to_list.
Qed.

(** So the cleanup of an instance whose socket is registered closes
    nothing and deletes nothing. *)
Lemma cleanup_keeps_registered w h hk ws key :
  hooks w !! h = Some hk -> wsRef hk = Some ws ->
  activeConnections w !! key = Some ws ->
  sockets (step (Cleanup h) w) = sockets w /\
  activeConnections (step (Cleanup h) w) = activeConnections w.
Proof.
  intros Eh Er Ea. pose proof (registered_inUse w key ws Ea) as Hin.
  unfold Client.step. cbn [exec]. unfold cleanup. crun.
  rewrite lookup_alter_eq, Eh. cbn. rewrite Er.
  destruct (reconnectTimeoutRef hk); crun; unfold inUse in *; cbn; rewrite Hin; done.
Qed.

(** ** Hooks that are switched off *)

Lemma idle_alter (g : Hook -> Hook) h (hs : gmap nat Hook) :
  (forall hk, props (g hk) = props hk) ->
  (forall x hk, hs !! x = Some hk -> enabled (props hk) = false) ->
  forall x hk, alter g h hs !! x = Some hk -> enabled (props hk) = false.
Proof.
  intros Hg H x hk. destruct (decide (x = h)) as [->|Hne].
  - rewrite lookup_alter_eq. destruct (hs !! h) as [hk0|] eqn:E; cbn; [|done].
    intros [= <-]. rewrite Hg. eauto.
  - rewrite lookup_alter_ne by done. apply H.
Qed.

Lemma idle_step e w :
  (forall p, e = Mount p -> enabled p = false) -> idle w -> idle (step e w).
Proof.
  intros He (Hs & Ht & Ha & Hh). unfold Client.step.
  destruct e as [p|h|h|ws|ws data|ws|ws|id|ms]; cbn [exec].
  - specialize (He p eq_refl). unfold mount, effect. crun.
    rewrite lookup_insert_eq. cbn. rewrite He. crun.
    split_and!; try done. apply idle_alter; [done|].
    intros x hk. destruct (decide (x = nextHook w)) as [->|Hne].
    + rewrite lookup_insert_eq. by intros [= <-].
    + rewrite lookup_insert_ne by done. apply Hh.
  - unfold cleanup, ws_close. crun. rewrite lookup_alter_eq.
    destruct (hooks w !! h) as [hk|] eqn:Eh; cbn.
    2:{ split_and!; try done. by apply idle_alter. }
    destruct (reconnectTimeoutRef hk), (wsRef hk); crun;
      unfold inUse; cbn; rewrite ?Ha, ?map_to_list_empty; cbn;
      rewrite ?Hs, ?lookup_empty; cbn;
      (split_and!; [done|by rewrite ?Ht, ?delete_empty|by rewrite ?Ha, ?delete_empty|]);
      repeat (apply idle_alter; [done|]); done.
  - unfold effect. crun. destruct (hooks w !! h) as [hk|] eqn:Eh; crun.
    + rewrite (Hh h hk Eh). crun. split_and!; try done. by apply idle_alter.
    + done.
  - unfold socketOpen. crun. by rewrite Hs, lookup_empty.
  - unfold socketMessage. crun. by rewrite Hs, lookup_empty.
  - unfold socketError. crun. by rewrite Hs, lookup_empty.
  - unfold socketClose. crun. by rewrite Hs, lookup_empty.
  - unfold timerFires. crun. by rewrite Ht, lookup_empty.
  - crun. done.
Qed.

(** X10.  While every component that mounts passes [enabled: false], no
    socket is created, no timer is set and nothing is registered,
    whatever else happens. *)
Theorem disabled_hooks_open_nothing es :
  Forall (fun e => forall p, e = Mount p -> enabled p = false) es ->
  sockets (run es initial) = ∅ /\ timers (run es initial) = ∅ /\
  activeConnections (run es initial) = ∅.
Proof.
  intros H.
  assert (forall w, idle w -> idle (run es w)) as Hrun.
  { induction H as [|e es He _ IH]; intros w Hw; cbn; [done|].
    apply IH. by apply idle_step. }
  assert (idle initial) as Hi.
  { by split_and!. }
  destruct (Hrun initial Hi) as (? & ? & ? & _). done.
Qed.

(** ** Sockets that outlive their component *)

(** A component that mounts while its channel is registered takes the
    registered socket, whatever state that socket is in, and is told it
    is connected; nothing is created. *)
Lemma mount_reuses w p ws :
  enabled p = true -> activeConnections w !! channelName (channel p) = Some ws ->
  hooks (step (Mount p) w) =
    <[nextHook w := mkHook p true None (Some ws) 0 None (now w) false]> (hooks w) /\
  sockets (step (Mount p) w) = sockets w /\ timers (step (Mount p) w) = timers w /\
  activeConnections (step (Mount p) w) = activeConnections w /\
  nextSocket (step (Mount p) w) = nextSocket w.
Proof.
  intros He Ea. unfold Client.step. cbn [exec]. unfold mount, effect, connect. crun.
  rewrite lookup_insert_eq. cbn. rewrite He. crun.
  rewrite lookup_alter_eq, lookup_insert_eq. cbn. rewrite He. cbn. crun.
  rewrite !bool_decide_eq_false_2 by done. cbn. rewrite Ea. crun. split_and!; try done.
  rewrite !alter_alter_eq, alter_insert_eq. done.
Qed.

(** X11.  When a socket closes whose component has unmounted, the close
    handler returns at once: the socket stays registered for its
    channel.  A component that then mounts on this channel is handed the
    closed socket and told it is connected; no socket is opened and no
    reconnect is scheduled. *)
Theorem dead_socket_is_handed_out w ws s hk p :
  sockets w !! ws = Some s -> hooks w !! owner s = Some hk -> isUnmountedRef hk = true ->
  activeConnections w !! channelName (channel p) = Some ws -> enabled p = true ->
  let w' := run [SocketClose ws; Mount p] w in
  readyState <$> sockets w' !! ws = Some CLOSED /\
  activeConnections w' !! channelName (channel p) = Some ws /\
  hooks w' !! nextHook w = Some (mkHook p true None (Some ws) 0 None (now w) false) /\
  nextSocket w' = nextSocket w /\ timers w' = timers w.
Proof.
  intros E Eh Hu Ea He. cbn zeta. cbn [Client.run fold_left].
  set (w1 := step (SocketClose ws) w).
  assert (readyState <$> sockets w1 !! ws = Some CLOSED /\ hooks w1 = hooks w /\
          activeConnections w1 = activeConnections w /\ timers w1 = timers w /\
          nextHook w1 = nextHook w /\ nextSocket w1 = nextSocket w /\ now w1 = now w)
    as (Hc & Hh & Ha & Ht & Hn & Hs & Hnow).
  { unfold w1, Client.step. cbn [exec]. unfold socketClose, onclose. crun. rewrite E.
    case_bool_decide as Hcl; crun.
    - rewrite E. cbn. by rewrite Hcl.
    - rewrite Eh, Hu. crun. by rewrite lookup_alter_eq, E. }
  destruct (mount_reuses w1 p ws He) as (Hh' & Hs' & Ht' & Ha' & Hn'); [by rewrite Ha|].
  rewrite Hs', Ha', Hh', Ht', Hn', Hn, Hnow, Ha, Ht, Hs, lookup_insert_eq. done.
Qed.

(** ** Messages that do not parse *)

(** X12.  A message that is not JSON is caught and logged: the handler
    returns, no callback is called, and the time of the last message is
    not refreshed, so it does not count as a sign of life. *)
Theorem unparsable_message_is_logged w ws s data :
  sockets w !! ws = Some s -> readyState s = OPEN -> JSON_parse data = None ->
  exists err,
    exec JSON_parse JSON_stringify WS_BASE_URL (SocketMessage ws data) w =
      (Ok tt, with_console
                (fun l => l ++ [Error "Failed to parse WebSocket message:" err]) w).
Proof.
  intros E Ho Hp. cbn [exec]. unfold socketMessage, onmessage. crun.
  rewrite E, Ho. cbn. rewrite Hp. crun. eexists. reflexivity.
Qed.

(** ** The watchdog *)

(** X13.  When nothing has arrived on an open socket for more than 45 s,
    the health check closes it and clears itself and the ping interval;
    when the socket has then closed, one reconnect is pending, after the
    backoff delay of the attempt counter. *)
Theorem watchdog_then_reconnect w id ws pingInterval s hk :
  reachable w ->
  timers w !! id = Some (HealthCheck ws pingInterval) ->
  sockets w !! ws = Some s -> readyState s = OPEN ->
  hooks w !! owner s = Some hk -> isUnmountedRef hk = false ->
  45000 < now w - lastMessageTimeRef hk ->
  (reconnectCountRef hk < reconnectAttempts (closure s))%nat ->
  let w1 := step (TimerFires id) w in
  let w2 := step (SocketClose ws) w1 in
  readyState <$> sockets w1 !! ws = Some CLOSING /\
  timers w1 = delete pingInterval (delete id (timers w)) /\
  timers w2 = <[nextTimer w := Reconnect (owner s) (backoff (reconnectCountRef hk))]>
                (delete pingInterval (delete id (timers w))).
Proof.
  intros Hr Et E Ho Eh Hu Hstale Hlt. pose proof (reachable_CInv w Hr ws s E) as He.
  cbn zeta. set (w1 := step (TimerFires id) w).
  assert (w1 = with_timers (fun t => delete pingInterval (delete id t))
                 (with_sockets (alter (set_readyState CLOSING) ws) w)) as Hw1.
  { unfold w1, Client.step. cbn [exec]. unfold timerFires, healthTick, ws_close. crun.
    rewrite Et. crun. rewrite E. crun. rewrite Eh, Hu, He. cbn.
    rewrite (bool_decide_eq_true_2 _ Hstale). crun. rewrite E. cbn. rewrite Ho. done. }
  assert (sockets w1 !! ws = Some (set_readyState CLOSING s)) as E1.
  { rewrite Hw1. cbn. by rewrite lookup_alter_eq, E. }
  split; [by rewrite E1|]. split; [by rewrite Hw1|].
  destruct (close_schedules w1 ws (set_readyState CLOSING s) hk E1) as (Ht & _);
    try done; [by rewrite Hw1|].
  rewrite Ht. by rewrite Hw1.
Qed.

(** ** Where the sockets are opened *)

Lemma UrlInv_alter (g : Socket -> Socket) ws w :
  (forall s, url (g s) = url s) -> UrlInv WS_BASE_URL w ->
  UrlInv WS_BASE_URL (with_sockets (alter g ws) w).
Proof.
  intros Hg H x s. cbn. destruct (decide (x = ws)) as [->|Hne].
  - rewrite lookup_alter_eq. destruct (sockets w !! ws) as [s0|] eqn:E; cbn; [|done].
    intros [= <-]. rewrite Hg. eauto.
  - rewrite lookup_alter_ne by done. apply H.
Qed.

Ltac url_step :=
  first
    [ apply keeps_ret | apply keeps_throw | apply keeps_gets
    | apply keeps_bind; [|intros ?]
    | apply keeps_try_catch; [|intros ?]
    | apply keeps_modify; intros ? ?;
      first [ match goal with H : UrlInv _ _ |- _ => exact H end
            | apply UrlInv_alter; [intros ?; reflexivity|assumption] ]
    | match goal with
      | |- keeps _ (match ?x with _ => _ end) => destruct x eqn:?
      | |- keeps _ (if ?x then _ else _) => destruct x eqn:?
      end ].

Lemma UrlInv_exec e : keeps (UrlInv WS_BASE_URL) (exec JSON_parse JSON_stringify WS_BASE_URL e).
Proof.
  destruct e; cbn [exec]; unfold mount, cleanup, effect, socketOpen, socketMessage,
    socketError, socketClose, timerFires, reconnectNow, pingTick, healthTick, connect,
    onopen, onmessage, onerror, onclose, update, the_hook, ws_send, ws_close, setTimer,
    clearTimer, console_error;
    repeat url_step.
  all: apply keeps_modify; intros w Hw x s; cbn;
    match goal with |- <[?k := _]> _ !! _ = _ -> _ => destruct (decide (x = k)) as [->|Hne] end;
    [rewrite lookup_insert_eq; intros [= <-]; cbn; eauto
    |rewrite lookup_insert_ne by done; apply Hw].
Qed.

Lemma reachable_UrlInv w : reachable w -> UrlInv WS_BASE_URL w.
Proof.
  intros [es ->].
  assert (forall w, UrlInv WS_BASE_URL w -> UrlInv WS_BASE_URL (run es w)) as Hrun.
  { induction es as [|e es IH]; intros w H; cbn; [done|]. apply IH. by apply UrlInv_exec. }
  apply Hrun. intros ws s. cbn. by rewrite lookup_empty.
Qed.

End ClientFacts.

(** ** The theorems at work on concrete runs *)

Lemma reconnect_backoff_witness :
  timers (step Demo.parse Demo.stringify Demo.baseUrl (SocketClose 0) Demo.oneSubscriber)
    = <[2%nat := Reconnect 0 1000]> (timers Demo.oneSubscriber).
Proof.
  destruct (reconnect_backoff Demo.parse Demo.stringify Demo.baseUrl) as (Hclose & _).
  destruct (Hclose Demo.oneSubscriber 0%nat Demo.subscriberSocket Demo.subscriberHook)
    as (Htimers & _).
  - exists [Mount Demo.subscriber]. reflexivity.
  - vm_compute. reflexivity.
  - discriminate.
  - vm_compute. reflexivity.
  - reflexivity.
  - vm_compute. lia.
  - exact Htimers.
Defined.

(** With the default maximum, five closes in a row are answered by
    reconnects after 1000, 2000, 4000, 8000 and 16000 ms; the sixth close
    sets the error and schedules nothing. *)
Lemma reconnects_until_exhausted :
  let attempt (k : nat) : list Event := [SocketClose k; TimerFires (3 * k + 2)%nat] in
  let after (k : nat) : World :=
    step Demo.parse Demo.stringify Demo.baseUrl (SocketClose k)
      (Demo.clientRun (Mount Demo.subscriber :: flat_map attempt (seq 0 k)) initial) in
  map (fun k => pendingReconnects (after k)) (seq 0 6%nat) =
    [[(0%nat, 1000)]; [(0%nat, 2000)]; [(0%nat, 4000)]; [(0%nat, 8000)];
     [(0%nat, 16000)]; []] /\
  error <$> hooks (after 5%nat) !! 0%nat =
    Some (Some "Maximum reconnection attempts reached").
Proof. vm_compute. split; reflexivity. Qed.

(** C4, the code at work: two components subscribe to the same channel
    and share the socket the first one created; when a message arrives
    the callback of the first is called once and the callback of the
    second is not called. *)
Theorem second_subscriber_never_called :
  let w := Demo.clientRun
             [Mount Demo.subscriber; Mount Demo.subscriber; SocketOpen 0;
              SocketMessage 0 "NEW_REQUEST"] initial in
  wsRef <$> hooks w !! 0%nat = Some (Some 0%nat) /\
  wsRef <$> hooks w !! 1%nat = Some (Some 0%nat) /\
  isConnected <$> hooks w !! 1%nat = Some true /\
  calls w 0 = [Demo.newRequest] /\
  calls w 1 = [].
Proof. vm_compute. repeat split. Qed.

(** C5, the code at work: the only subscriber of a channel unmounts,
    and its socket stays open and stays in [activeConnections]. *)
Theorem last_unsubscribe_leaves_socket_open :
  let w := Demo.clientRun [Mount Demo.subscriber; SocketOpen 0; Cleanup 0] initial in
  isUnmountedRef <$> hooks w !! 0%nat = Some true /\
  wsRef <$> hooks w !! 0%nat = Some None /\
  readyState <$> sockets w !! 0%nat = Some OPEN /\
  activeConnections w !! "TENDER_REQUESTS" = Some 0%nat.
Proof. vm_compute. repeat split. Qed.

(** Two open sockets for one channel: the shared socket drops and the
    first subscriber reconnects, the second subscriber unmounts and
    deletes the entry of the new socket, and a third subscriber opens
    another one. *)
Lemma two_sockets_for_one_channel :
  let w := Demo.clientRun
             [Mount Demo.subscriber; Mount Demo.subscriber; SocketOpen 0; SocketClose 0;
              TimerFires 2; SocketOpen 1; Cleanup 1; Mount Demo.subscriber;
              SocketOpen 2] initial in
  readyState <$> sockets w !! 1%nat = Some OPEN /\
  readyState <$> sockets w !! 2%nat = Some OPEN /\
  url <$> sockets w !! 1%nat = url <$> sockets w !! 2%nat /\
  activeConnections w !! "TENDER_REQUESTS" = Some 2%nat.
Proof. vm_compute. repeat split. Qed.

(** ** Further concrete runs *)

Lemma disabled_hooks_open_nothing_witness :
  let w := Demo.clientRun [Mount Demo.switchedOff; Effect 0; SocketOpen 0; TimerFires 0;
                           Cleanup 0] initial in
  sockets w = ∅ /\ timers w = ∅ /\ activeConnections w = ∅.
Proof.
  apply (disabled_hooks_open_nothing Demo.parse Demo.stringify Demo.baseUrl
           [Mount Demo.switchedOff; Effect 0; SocketOpen 0; TimerFires 0; Cleanup 0]).
  repeat (constructor; [intros p Hp; try discriminate Hp; by injection Hp as <-|]).
  constructor.
Defined.

Lemma dead_socket_is_handed_out_witness :
  let w' := Demo.clientRun [SocketClose 0; Mount Demo.subscriber] Demo.abandoned in
  readyState <$> sockets w' !! 0%nat = Some CLOSED /\
  activeConnections w' !! "TENDER_REQUESTS" = Some 0%nat /\
  hooks w' !! 1%nat = Some (mkHook Demo.subscriber true None (Some 0%nat) 0 None 0 false) /\
  nextSocket w' = 1%nat /\ timers w' = timers Demo.abandoned.
Proof.
  apply (dead_socket_is_handed_out Demo.parse Demo.stringify Demo.baseUrl Demo.abandoned
           0%nat
           (mkSocket "ws://localhost:5000/ws/tender-requests?channel=TENDER_REQUESTS"
              OPEN 0 Demo.subscriber [])
           (mkHook Demo.subscriber true None None 0 None 0 true) Demo.subscriber).
  - vm_compute. reflexivity.
  - vm_compute. reflexivity.
  - reflexivity.
  - vm_compute. reflexivity.
  - reflexivity.
Defined.

Lemma unparsable_message_is_logged_witness :
  exists err,
    exec Demo.parse Demo.stringify Demo.baseUrl (SocketMessage 0 "") Demo.stale =
      (Ok tt, with_console
                (fun l => l ++ [Error "Failed to parse WebSocket message:" err]) Demo.stale).
Proof.
  apply (unparsable_message_is_logged Demo.parse Demo.stringify Demo.baseUrl Demo.stale
           0%nat
           (mkSocket "ws://localhost:5000/ws/tender-requests?channel=TENDER_REQUESTS"
              OPEN 0 Demo.subscriber [])).
  - vm_compute. reflexivity.
  - reflexivity.
  - reflexivity.
Defined.

Lemma watchdog_then_reconnect_witness :
  let w1 := step Demo.parse Demo.stringify Demo.baseUrl (TimerFires 1) Demo.stale in
  let w2 := step Demo.parse Demo.stringify Demo.baseUrl (SocketClose 0) w1 in
  readyState <$> sockets w1 !! 0%nat = Some CLOSING /\
  timers w1 = delete 0%nat (delete 1%nat (timers Demo.stale)) /\
  timers w2 = <[2%nat := Reconnect 0 1000]> (delete 0%nat (delete 1%nat (timers Demo.stale))).
Proof.
  apply (watchdog_then_reconnect Demo.parse Demo.stringify Demo.baseUrl Demo.stale
           1%nat 0%nat 0%nat
           (mkSocket "ws://localhost:5000/ws/tender-requests?channel=TENDER_REQUESTS"
              OPEN 0 Demo.subscriber [])
           (mkHook Demo.subscriber true None (Some 0%nat) 0 None 0 false)).
  - exists [Mount Demo.subscriber; SocketOpen 0; Tick 45001]. reflexivity.
  - vm_compute. reflexivity.
  - vm_compute. reflexivity.
  - reflexivity.
  - vm_compute. reflexivity.
  - reflexivity.
  - vm_compute. reflexivity.
  - vm_compute. lia.
Defined.

End ClientFacts.

(** * Facts about the code around the transport *)

Module AppFacts.

(** ** The origin check *)

Lemma append_assoc (a b c : string) : (a +:+ b) +:+ c = a +:+ (b +:+ c).
Proof.
  induction a as [|x a IH]; [done|].
  change ((String x a +:+ b) +:+ c) with (String x ((a +:+ b) +:+ c)). by rewrite IH.
Qed.

Lemma endsWith_spec s suffix :
  Cors.endsWith s suffix = true <-> exists prefix, s = prefix +:+ suffix.
Proof.
  induction s as [|c s IH]; cbn [Cors.endsWith]; rewrite orb_true_iff.
  - split.
    + intros [->%String.eqb_eq|?]; [by exists ""|done].
    + intros (prefix & H). left. apply String.eqb_eq. by destruct prefix.
  - rewrite IH. split.
    + intros [<-%String.eqb_eq|(prefix & ->)]; [by exists ""|by exists (String c prefix)].
    + intros ([|c' prefix] & H).
      * left. by apply String.eqb_eq.
      * right. exists prefix. change (String c' prefix +:+ suffix)
          with (String c' (prefix +:+ suffix)) in H. congruence.
Qed.

(** X14.  A request is let through when it carries no [Origin] header
    or an empty one, when its origin ends in [.vercel.app], whoever
    deployed it, or when its origin is one of the five [localhost]
    addresses or the production address with a trailing slash; every
    other origin is refused. *)
Theorem cors_allows_iff o :
  fst (Cors.origin o) = Cors.Allowed <->
  o = None \/ o = Some "" \/
  exists x, o = Some x /\
    ((exists prefix, x = prefix +:+ ".vercel.app") \/
     x ∈ ["http://localhost:5173"; "http://localhost:5174"; "ws://localhost:5173";
          "ws://localhost:5174"; "http://localhost:5000";
          "https://dhiya-frontend.vercel.app/"]).
Proof.
  destruct o as [x|]; cbn [Cors.origin]; [|by split; [left|]].
  destruct (String.eqb_spec x "") as [->|Hne]; [by split; [right; left|]|].
  destruct (Cors.endsWith x ".vercel.app") eqn:Hends.
  - rewrite orb_true_r. split; [|done]. intros _. right. right. exists x. split; [done|].
    left. by apply endsWith_spec.
  - rewrite orb_false_r. destruct (Server.includes Cors.allowedOrigins x) eqn:Hin; cbn [fst].
    + split; [|done]. intros _. right. right. exists x. split; [done|]. right.
      apply ServerFacts.includes_elem_of in Hin. unfold Cors.allowedOrigins in Hin.
      repeat (apply elem_of_cons in Hin as [->|Hin]); try discriminate Hends;
        [set_solver..|by apply elem_of_nil in Hin].
    + split; [done|]. intros [?|[[= ->]|(y & [= <-] & [Hsuf|Hy])]]; [done|done| |].
      * apply endsWith_spec in Hsuf. congruence.
      * apply ServerFacts.includes_not_elem_of in Hin. exfalso. apply Hin.
        unfold Cors.allowedOrigins. set_solver.
Qed.

(** ** The database retries *)

Lemma connectDB_delays results : forall retryCount,
  (retryCount <= Database.MAX_RETRIES)%nat ->
  let delays := fst (Database.connectDB results retryCount) in
  (retryCount + length delays <= Database.MAX_RETRIES)%nat /\
  delays = (fun k => 5000 * 2 ^ Z.of_nat k) <$> seq retryCount (length delays) /\
  Database.waited delays =
    5000 * (2 ^ Z.of_nat (retryCount + length delays) - 2 ^ Z.of_nat retryCount).
Proof.
  unfold Database.MAX_RETRIES.
  induction results as [|[] results IH]; intros n Hn; cbn [Database.connectDB].
  1,2: cbn [fst length seq fmap list_fmap Database.waited foldr];
    rewrite Nat.add_0_r; split; [done|]; split; [done|lia].
  case_bool_decide as Hlt; unfold Database.MAX_RETRIES in Hlt.
  2:{ cbn [fst length seq fmap list_fmap Database.waited foldr].
      rewrite Nat.add_0_r. split; [done|]. split; [done|lia]. }
  specialize (IH (S n) ltac:(lia)).
  destruct (Database.connectDB results (S n)) as [delays outcome].
  cbn [fst length seq fmap list_fmap Database.waited foldr] in *.
  destruct IH as (Hle & Hd & Hw). split; [lia|]. split; [by rewrite <- Hd|].
  unfold Database.waited in Hw. rewrite Hw.
  replace (n + S (length delays))%nat with (S n + length delays)%nat by lia.
  replace (Z.of_nat (S n)) with (Z.of_nat n + 1) by lia.
  rewrite Z.pow_add_r by lia. lia.
Qed.

Lemma connectDB_outcome results : forall retryCount,
  (retryCount <= Database.MAX_RETRIES)%nat ->
  snd (Database.connectDB results retryCount) = Database.Exited 1 <->
  take (S Database.MAX_RETRIES - retryCount) results =
    replicate (S Database.MAX_RETRIES - retryCount) false.
Proof.
  unfold Database.MAX_RETRIES.
  induction results as [|[] results IH]; intros n Hn; cbn [Database.connectDB].
  - replace (6 - n)%nat with (S (5 - n)) by lia. done.
  - replace (6 - n)%nat with (S (5 - n)) by lia. done.
  - case_bool_decide as Hlt; unfold Database.MAX_RETRIES in Hlt.
    + specialize (IH (S n) ltac:(lia)).
      destruct (Database.connectDB results (S n)) as [delays outcome]. cbn [snd] in *.
      rewrite IH. unfold Database.MAX_RETRIES in *.
      replace (6 - n)%nat with (S (6 - S n)) by lia. cbn. split; congruence.
    + unfold Database.MAX_RETRIES in *. assert (n = 5%nat) as -> by lia. cbn.
      by rewrite take_0.
Qed.

(** X15.  However the connection attempts end, [connectDB] retries at
    most five times, the k-th retry [5000 * 2^k] ms after the failure
    before it, so that it never waits more than 155 s in total; and the
    process exits, with code 1, exactly when six attempts in a row
    fail. *)
Theorem connectDB_schedule results :
  let delays := fst (Database.connectDB results 0) in
  let outcome := snd (Database.connectDB results 0) in
  (length delays <= 5)%nat /\
  delays = take (length delays) [5000; 10000; 20000; 40000; 80000] /\
  Database.waited delays <= 155000 /\
  (outcome = Database.Exited 1 <-> take 6 results = replicate 6 false) /\
  (outcome = Database.Exited 1 -> Database.waited delays = 155000).
Proof.
  cbn zeta.
  destruct (connectDB_delays results 0) as (Hle & Hd & Hw); [unfold Database.MAX_RETRIES; lia|].
  pose proof (connectDB_outcome results 0 ltac:(unfold Database.MAX_RETRIES; lia)) as Ho.
  unfold Database.MAX_RETRIES in *. cbn [Nat.add Nat.sub] in *.
  set (delays := fst (Database.connectDB results 0)) in *.
  assert (length delays <= 5)%nat as Hlen by lia.
  split; [done|]. split.
  { rewrite Hd at 1. clear -Hlen. revert Hlen. generalize (length delays) as n. intros n Hlen.
    do 6 (destruct n as [|n]; [reflexivity|]); lia. }
  split.
  { rewrite Hw. cbn [Z.of_nat Z.pow Z.pow_pos Pos.iter Z.mul Pos.mul].
    assert (2 ^ Z.of_nat (length delays) <= 2 ^ 5) by (apply Z.pow_le_mono_r; lia). lia. }
  split; [exact Ho|].
  intros Hexit. apply Ho in Hexit. rewrite Hw.
  assert (length delays = 5%nat) as ->; [|reflexivity].
  clear -Hexit. subst delays.
  do 6 (destruct results as [|[] results]; try discriminate Hexit). reflexivity.
Qed.

(** ** The monthly buckets *)

Lemma target_index fullYear getMonth i :
  AdminStats.target fullYear getMonth i =
    ((12 * fullYear + getMonth - i) / 12, (12 * fullYear + getMonth - i) mod 12).
Proof.
  unfold AdminStats.target.
  replace (12 * fullYear + getMonth - i) with ((getMonth - i) + fullYear * 12) by lia.
  remember (getMonth - i) as t eqn:Ht.
  assert (Z.rem (Z.rem t 12 + 12) 12 = t mod 12) as ->.
  { pose proof (Z.rem_bound_abs t 12 ltac:(lia)) as Hb.
    rewrite Z.rem_mod_nonneg by lia.
    pose proof (Z.quot_rem' t 12) as Hq.
    replace (Z.rem t 12 + 12) with (t + (1 - t ÷ 12) * 12) by lia.
    apply Z_mod_plus_full. }
  rewrite Z_div_plus_full by lia. rewrite Z_mod_plus_full. f_equal. lia.
Qed.

(** X16.  The bucket [i] months back is the calendar month that lies
    [i] months before the current one, across the turn of the year: its
    month is between 0 and 11, and counting months from year 0 it has
    the number of the current month less [i]. *)
Theorem bucket_is_i_months_back fullYear getMonth i :
  let '(year, month) := AdminStats.target fullYear getMonth i in
  0 <= month < 12 /\ 12 * year + month = 12 * fullYear + getMonth - i.
Proof.
  rewrite target_index.
  pose proof (Z.mod_pos_bound (12 * fullYear + getMonth - i) 12 ltac:(lia)).
  pose proof (Z.div_mod (12 * fullYear + getMonth - i) 12 ltac:(lia)). lia.
Qed.

Section Calendar.

Variable Date : Z -> Z -> Z -> Z.

(** Day 0 of a month is the day before its day 1, that is the last day
    of the month before, which is not before the first day of that
    month; and month 12 of a year is month 0 of the next. *)
Hypothesis day_zero : forall year month, Date year month 0 < Date year month 1.
Hypothesis month_long : forall year month, Date year month 1 <= Date year (month + 1) 0.
Hypothesis month_wraps : forall year month day,
  Date year (month + 12) day = Date (year + 1) month day.

#[local] Abbreviation bucket := (AdminStats.bucket Date).
#[local] Abbreviation getMonthlyRequestCounts := (AdminStats.getMonthlyRequestCounts Date).

(** The bounds of the bucket of the [k]-th month, counted from year 0. *)
#[local] Abbreviation startDate k := (Date (k / 12) (k mod 12) 1).
#[local] Abbreviation endDate k := (Date (k / 12) (k mod 12 + 1) 0).

Lemma end_before_next_start k : endDate k < startDate (k + 1).
Proof.
  pose proof (Z.mod_pos_bound k 12 ltac:(lia)) as Hb.
  pose proof (Z.div_mod k 12 ltac:(lia)) as Hk.
  destruct (decide (k mod 12 = 11)) as [E|Hne].
  - assert ((k + 1) / 12 = k / 12 + 1) as -> by (symmetry; apply Z.div_unique with 0; lia).
    assert ((k + 1) mod 12 = 0) as -> by (symmetry; apply Z.mod_unique with (k / 12 + 1); lia).
    rewrite E. change (11 + 1) with (0 + 12). rewrite month_wraps. apply day_zero.
  - assert ((k + 1) / 12 = k / 12) as ->
      by (symmetry; apply Z.div_unique with (k mod 12 + 1); lia).
    assert ((k + 1) mod 12 = k mod 12 + 1) as ->
      by (symmetry; apply Z.mod_unique with (k / 12); lia).
    apply day_zero.
Qed.

Lemma starts_increase (n : nat) k : startDate k <= startDate (k + Z.of_nat n).
Proof.
  induction n as [|n IH]; [by rewrite Z.add_0_r|].
  replace (k + Z.of_nat (S n)) with (k + Z.of_nat n + 1) by lia.
  pose proof (end_before_next_start (k + Z.of_nat n)).
  pose proof (month_long ((k + Z.of_nat n) / 12) ((k + Z.of_nat n) mod 12)). lia.
Qed.

Lemma ends_increase (n : nat) k : endDate k <= endDate (k + Z.of_nat n).
Proof.
  induction n as [|n IH]; [by rewrite Z.add_0_r|].
  replace (k + Z.of_nat (S n)) with (k + Z.of_nat n + 1) by lia.
  pose proof (end_before_next_start (k + Z.of_nat n)).
  pose proof (month_long ((k + Z.of_nat n + 1) / 12) ((k + Z.of_nat n + 1) mod 12)). lia.
Qed.

Lemma bucket_bounds collection fullYear getMonth i :
  bucket collection fullYear getMonth i =
    let k := 12 * fullYear + getMonth - i in
    (AdminStats.monthNames !! Z.to_nat (k mod 12),
     AdminStats.countDocuments collection (startDate k) (endDate k)).
Proof. unfold AdminStats.bucket. by rewrite target_index. Qed.

(** X17.  A request created on the last day of a month, after midnight,
    is in none of the buckets: counting it changes no count, in the
    bucket of its own month and in every other. *)
Theorem last_day_is_not_counted collection fullYear getMonth j createdAt :
  (let '(year, month) := AdminStats.target fullYear getMonth j in
   Date year (month + 1) 0 < createdAt < Date year (month + 1) 1) ->
  getMonthlyRequestCounts (createdAt :: collection) fullYear getMonth =
  getMonthlyRequestCounts collection fullYear getMonth.
Proof.
  rewrite target_index. set (kj := 12 * fullYear + getMonth - j). intros (Hlo & Hhi).
  assert (forall k, ~ (startDate k <= createdAt <= endDate k)) as Hout.
  { intros k (Hs & He). destruct (Z.le_gt_cases k kj) as [Hle|Hgt].
    - pose proof (ends_increase (Z.to_nat (kj - k)) k) as Hinc.
      replace (k + Z.of_nat (Z.to_nat (kj - k))) with kj in Hinc by lia. lia.
    - pose proof (starts_increase (Z.to_nat (k - (kj + 1))) (kj + 1)) as Hinc.
      replace (kj + 1 + Z.of_nat (Z.to_nat (k - (kj + 1)))) with k in Hinc by lia.
      pose proof (end_before_next_start kj) as Hn.
      pose proof (Z.mod_pos_bound kj 12 ltac:(lia)) as Hb.
      assert (Date (kj / 12) (kj mod 12 + 1) 1 <= startDate (kj + 1)); [|lia].
      pose proof (Z.div_mod kj 12 ltac:(lia)) as Hk.
      destruct (decide (kj mod 12 = 11)) as [E|Hne].
      + assert ((kj + 1) / 12 = kj / 12 + 1) as ->
          by (symmetry; apply Z.div_unique with 0; lia).
        assert ((kj + 1) mod 12 = 0) as ->
          by (symmetry; apply Z.mod_unique with (kj / 12 + 1); lia).
        rewrite E. change (11 + 1) with (0 + 12). by rewrite month_wraps.
      + assert ((kj + 1) / 12 = kj / 12) as ->
          by (symmetry; apply Z.div_unique with (kj mod 12 + 1); lia).
        assert ((kj + 1) mod 12 = kj mod 12 + 1) as ->
          by (symmetry; apply Z.mod_unique with (kj / 12); lia).
        done. }
  unfold AdminStats.getMonthlyRequestCounts. apply list_fmap_ext. intros _ i _.
  rewrite !bucket_bounds. cbn zeta. f_equal. unfold AdminStats.countDocuments.
  by rewrite filter_cons_False.
Qed.

(** X18.  The labels of the twelve buckets are the twelve month names,
    each once, in calendar order, ending with the current month. *)
Theorem monthly_labels collection fullYear getMonth :
  0 <= getMonth < 12 ->
  fst <$> getMonthlyRequestCounts collection fullYear getMonth =
  Some <$> rotate (Z.to_nat getMonth + 1) AdminStats.monthNames.
Proof.
  intros Hm.
  assert (exists n, getMonth = Z.of_nat n /\ (n < 12)%nat) as (n & -> & Hn)
    by (exists (Z.to_nat getMonth); lia).
  do 12 (destruct n as [|n]; [vm_compute; reflexivity|]). lia.
Qed.

End Calendar.

(** ** The list of tender requests *)

Import TenderList.

Lemma update_ids request (prev : list TenderRequest) :
  _id <$> ((fun req => if String.eqb (_id req) (_id request) then request else req) <$> prev)
  = _id <$> prev.
Proof.
  induction prev as [|req prev IH]; cbn; [done|]. rewrite IH. f_equal.
  by destruct (String.eqb_spec (_id req) (_id request)).
Qed.

Lemma update_absent request (prev : list TenderRequest) :
  _id request ∉ _id <$> prev ->
  (fun req => if String.eqb (_id req) (_id request) then request else req) <$> prev = prev.
Proof.
  induction prev as [|req prev IH]; cbn; [done|].
  rewrite not_elem_of_cons. intros (Hne & Hout). rewrite IH by done.
  destruct (String.eqb_spec (_id req) (_id request)); congruence.
Qed.

Lemma delete_absent requestId (prev : list TenderRequest) :
  requestId ∉ _id <$> prev ->
  List.filter (fun req => negb (String.eqb (_id req) requestId)) prev = prev.
Proof.
  induction prev as [|req prev IH]; cbn; [done|].
  rewrite not_elem_of_cons. intros (Hne & Hout).
  destruct (String.eqb_spec (_id req) requestId); [congruence|]. cbn. by rewrite IH.
Qed.

(** X19.  An [UPDATE_REQUEST] message replaces every row that has the
    id of the request by the request and leaves the other rows, the
    order and the ids of the list as they are; for an id that is not in
    the list it changes nothing: the request is not added. *)
Theorem update_replaces_in_place request st :
  let st' := onMessage (UPDATE_REQUEST request) st in
  _id <$> requests st' = _id <$> requests st /\
  (forall i req, requests st !! i = Some req ->
     requests st' !! i = Some (if bool_decide (_id req = _id request) then request else req)) /\
  (_id request ∉ _id <$> requests st -> st' = st).
Proof.
  cbn zeta. destruct st as [prev rows]. cbn. split; [apply update_ids|]. split.
  - intros i req E. rewrite list_lookup_fmap, E. cbn. f_equal.
    destruct (String.eqb_spec (_id req) (_id request)); by case_bool_decide.
  - intros Hout. unfold setRequests. cbn. f_equal. by apply update_absent.
Qed.

(** X20.  A [DELETE_REQUEST] for the id of a request undoes the
    [NEW_REQUEST] that announced it, provided the id was not in the list
    before; in any case no row with that id is left afterwards. *)
Theorem delete_undoes_new request st :
  _id request ∉ _id <$> requests st ->
  onMessage (DELETE_REQUEST (_id request)) (onMessage (NEW_REQUEST request) st) = st /\
  forall st0, _id request ∉ _id <$> requests (onMessage (DELETE_REQUEST (_id request)) st0).
Proof.
  intros Hout. split.
  - destruct st as [prev rows]. unfold onMessage, setRequests. cbn in *.
    rewrite String.eqb_refl. cbn. f_equal. by apply delete_absent.
  - intros [prev rows]. cbn. clear. induction prev as [|req prev IH]; cbn; [set_solver|].
    destruct (String.eqb_spec (_id req) (_id request)); cbn; [done|].
    rewrite not_elem_of_cons. split; [congruence|done].
Qed.

(** X21.  The rows of the table are [filteredRequests], and only a
    fetch writes them: however many messages arrive on the channel and
    however many status changes succeed, the rows stay what they
    were. *)
Theorem messages_never_reach_the_table actions st :
  Forall (fun a => forall append data, a <> Fetched append data) actions ->
  filteredRequests (play actions st) = filteredRequests st.
Proof.
  intros H. revert st. induction H as [|a actions Ha _ IH]; intros st; cbn; [done|].
  rewrite IH. destruct a as [[]| |]; try done. by destruct (Ha append data).
Qed.

(** ** The selection of the comparison page *)

Lemma filter_absent tenderId (prev : list string) :
  tenderId ∉ prev ->
  List.filter (fun id => negb (String.eqb id tenderId)) prev = prev.
Proof.
  induction prev as [|x prev IH]; cbn; [done|]. rewrite not_elem_of_cons. intros (Hne & Hout).
  destruct (String.eqb_spec x tenderId); [congruence|]. cbn. by rewrite IH.
Qed.

Lemma elem_of_filter_ne tenderId x (prev : list string) :
  x ∈ List.filter (fun id => negb (String.eqb id tenderId)) prev <-> x <> tenderId /\ x ∈ prev.
Proof.
  rewrite !list_elem_of_In, filter_In, negb_true_iff, String.eqb_neq. tauto.
Qed.

(** X22.  Toggling a tender flips whether it is selected and leaves
    every other tender as it was; a selection without duplicates stays
    without duplicates; and toggling a tender that is not selected
    twice gives the selection back. *)
Theorem toggle_flips_membership tenderId prev :
  (tenderId ∈ TenderComparison.toggleTenderSelection tenderId prev <-> tenderId ∉ prev) /\
  (forall x, x <> tenderId ->
     x ∈ TenderComparison.toggleTenderSelection tenderId prev <-> x ∈ prev) /\
  (NoDup prev -> NoDup (TenderComparison.toggleTenderSelection tenderId prev)) /\
  (tenderId ∉ prev ->
     TenderComparison.toggleTenderSelection tenderId
       (TenderComparison.toggleTenderSelection tenderId prev) = prev).
Proof.
  unfold TenderComparison.toggleTenderSelection at 1 2 3.
  destruct (Server.includes prev tenderId) eqn:Hin.
  - apply ServerFacts.includes_elem_of in Hin. split_and!.
    + rewrite elem_of_filter_ne. tauto.
    + intros x Hne. rewrite elem_of_filter_ne. tauto.
    + intros Hnd. clear Hin. induction Hnd as [|x prev Hx Hnd IH]; cbn; [constructor|].
      destruct (String.eqb x tenderId); cbn; [done|]. constructor; [|done].
      rewrite elem_of_filter_ne. tauto.
    + done.
  - apply ServerFacts.includes_not_elem_of in Hin. split_and!.
    + set_solver.
    + set_solver.
    + intros Hnd. apply NoDup_app. split_and!; [done|set_solver|apply NoDup_singleton].
    + intros _. pose proof Hin as Hin'%ServerFacts.includes_not_elem_of.
      unfold TenderComparison.toggleTenderSelection. rewrite Hin'.
      assert (Server.includes (prev ++ [tenderId]) tenderId = true) as ->
        by (apply ServerFacts.includes_elem_of; set_solver).
      rewrite List.filter_app. cbn. rewrite String.eqb_refl. cbn.
      rewrite app_nil_r. by apply filter_absent.
Qed.

(** ** The hook against the server *)

Section Together.

Variable JSON_parse : string -> option Json.
Variable JSON_stringify : Json -> string.
Variable toISOString : Z -> string.
Variable WS_BASE_URL : string.

(** X23.  Every socket the hook opens is opened at [WS_BASE_URL]
    followed by a request target whose first path segment is [ws], which
    is not a channel of the server: whenever such a request arrives the
    server closes the connection with code 1008 and never registers it,
    so that no broadcast reaches it. *)
Theorem hook_sockets_are_refused cw ws s w ackFails :
  Client.reachable JSON_parse JSON_stringify WS_BASE_URL cw ->
  Client.sockets cw !! ws = Some s ->
  Server.reachable JSON_parse JSON_stringify toISOString w ->
  exists target,
    Client.url s = WS_BASE_URL +:+ target /\
    Server.channelOf target = "ws" /\
    (let w' := Server.step JSON_parse JSON_stringify toISOString
                 (Server.Connect target ackFails) w in
     Server.sockets w' !! Server.nextId w = Some (Server.rejected 1008 "Invalid channel") /\
     forall es channel,
       Server.nextId w ∉
         Server.members (Server.run JSON_parse JSON_stringify toISOString es w') channel).
Proof.
  intros Hc E Hs.
  destruct (ClientFacts.reachable_UrlInv JSON_parse JSON_stringify WS_BASE_URL cw Hc ws s E)
    as (c & Hurl).
  pose proof (ServerFacts.reachable_Inv JSON_parse JSON_stringify toISOString w Hs) as HI.
  exists (match c with
          | Client.DASHBOARD_STATS => "/ws/dashboard-stats?channel=DASHBOARD_STATS"
          | Client.TENDER_REQUESTS => "/ws/tender-requests?channel=TENDER_REQUESTS"
          | Client.WEBSITE_ANALYTICS => "/ws/website-analytics?channel=WEBSITE_ANALYTICS"
          end).
  split; [|split].
  - rewrite Hurl. destruct c; cbn [Client.wsEndpoint Client.channelName];
      by rewrite append_assoc.
  - by destruct c.
  - cbn zeta.
    match goal with |- context [Server.Connect ?t _] =>
      destruct (ServerFacts.reject_effect JSON_parse JSON_stringify toISOString
                  t ackFails w HI) as (_ & Hsock & _ & Hnever) end.
    + by destruct c.
    + split; [exact Hsock|exact Hnever].
Qed.

End Together.

(** ** The theorems at work on concrete inputs *)

Lemma last_day_is_not_counted_witness :
  AdminStats.getMonthlyRequestCounts Demo.calendar
    [Demo.calendar 2024 2 0 + 43200000; Demo.calendar 2024 2 5] 2024 4
  = AdminStats.getMonthlyRequestCounts Demo.calendar [Demo.calendar 2024 2 5] 2024 4.
Proof.
  apply (last_day_is_not_counted Demo.calendar) with (j := 3); unfold Demo.calendar.
  - intros. lia.
  - intros. lia.
  - intros. lia.
  - vm_compute. split; reflexivity.
Defined.

Lemma monthly_labels_witness :
  fst <$> AdminStats.getMonthlyRequestCounts Demo.calendar [] 2024 2 =
  Some <$> ["Apr"; "May"; "Jun"; "Jul"; "Aug"; "Sep"; "Oct"; "Nov"; "Dec"; "Jan"; "Feb"; "Mar"].
Proof. apply (monthly_labels Demo.calendar [] 2024 2). lia. Defined.

Lemma delete_undoes_new_witness :
  let st := mkState [Demo.road] [Demo.road] in
  onMessage (DELETE_REQUEST "r1") (onMessage (NEW_REQUEST Demo.bridge) st) = st /\
  forall st0, "r1" ∉ _id <$> requests (onMessage (DELETE_REQUEST "r1") st0).
Proof.
  apply (delete_undoes_new Demo.bridge (mkState [Demo.road] [Demo.road])).
  apply (bool_decide_unpack _). vm_compute. exact I.
Defined.

Lemma messages_never_reach_the_table_witness :
  filteredRequests
    (play [Message (NEW_REQUEST Demo.bridge); StatusUpdated "r2" "completed";
           Message (DELETE_REQUEST "r2")] (mkState [Demo.road] [Demo.road]))
  = [Demo.road].
Proof.
  apply (messages_never_reach_the_table
           [Message (NEW_REQUEST Demo.bridge); StatusUpdated "r2" "completed";
            Message (DELETE_REQUEST "r2")] (mkState [Demo.road] [Demo.road])).
  repeat (constructor; [intros append data; discriminate|]). constructor.
Defined.

Lemma hook_sockets_are_refused_witness :
  exists target,
    "ws://localhost:5000/ws/tender-requests?channel=TENDER_REQUESTS"
      = Demo.baseUrl +:+ target /\
    Server.channelOf target = "ws" /\
    (let w' := Server.step Demo.parse Demo.stringify Demo.isoString
                 (Server.Connect target false) Demo.oneDashboard in
     Server.sockets w' !! 1%nat = Some (Server.rejected 1008 "Invalid channel") /\
     forall es channel,
       1%nat ∉ Server.members (Server.run Demo.parse Demo.stringify Demo.isoString es w')
                 channel).
Proof.
  apply (hook_sockets_are_refused Demo.parse Demo.stringify Demo.isoString Demo.baseUrl
           Demo.oneSubscriber 0%nat Demo.subscriberSocket Demo.oneDashboard false).
  - exists [Client.Mount Demo.subscriber]. reflexivity.
  - vm_compute. reflexivity.
  - exists [Server.Connect "/DASHBOARD_STATS" false]. reflexivity.
Defined.

End AppFacts.
